(** * Blockchain messaging protocol: ledger and transmission engine

  A shallow embedding of [src/core/blockchain.py] (blocks, proof of work,
  chain validation, persistence, Merkle root) and of
  [src/engine/engine.py] (the transmission engine), with the theorems that
  settle the specification's statements about them.

  Python values are represented as follows.
  - [bytes] is [list byte]; [str] is [string], holding the UTF-8 encoding
    of the text, so that [s.encode()] is the list of the string's bytes
    and [b.decode()] succeeds exactly on well-formed UTF-8.
  - [int] is [Z]; [len(...)] is [Z.of_nat (length ...)].
  - [float] is [pyfloat], a float named by its [repr]: the only things the
    code does with a timestamp are to store it and to write it with
    [json.dumps], which writes that [repr].
  - a JSON-like value ([dict[str, Any]], the ledger payloads, the
    persisted document) is [json]; a [dict] is an association list in
    insertion order.
  - the engine's [dict] of shared secrets is a [gmap]. *)

From Stdlib Require Import ZArith List Ascii String Bool Lia.
From Stdlib.Strings Require Import Byte.
From stdpp Require Import base option list gmap strings.

Import ListNotations.
Local Open Scope Z_scope.
Set Warnings "-register-all".

(** ** hashlib: SHA-256 (FIPS 180-4) *)

Module hashlib.

Definition wrap32 (x : Z) : Z := Z.land x 0xffffffff.
Definition add32 (x y : Z) : Z := wrap32 (x + y).
Definition rotr (n x : Z) : Z :=
  Z.lor (Z.shiftr x n) (wrap32 (Z.shiftl x (32 - n))).
Definition xor3 (x y z : Z) : Z := Z.lxor (Z.lxor x y) z.

Definition Ch (x y z : Z) : Z :=
  Z.lxor (Z.land x y) (Z.land (Z.lxor x 0xffffffff) z).
Definition Maj (x y z : Z) : Z :=
  xor3 (Z.land x y) (Z.land x z) (Z.land y z).
Definition Sigma0 (x : Z) : Z := xor3 (rotr 2 x) (rotr 13 x) (rotr 22 x).
Definition Sigma1 (x : Z) : Z := xor3 (rotr 6 x) (rotr 11 x) (rotr 25 x).
Definition sigma0 (x : Z) : Z := xor3 (rotr 7 x) (rotr 18 x) (Z.shiftr x 3).
Definition sigma1 (x : Z) : Z := xor3 (rotr 17 x) (rotr 19 x) (Z.shiftr x 10).

(** The round constants are the first 32 bits of the fractional parts of
    the cube roots of the first 64 primes; the initial hash value is made
    of those of the square roots of the first 8. *)
Definition is_prime (p : nat) : bool :=
  forallb (fun d => negb (p mod d =? 0)%nat) (seq 2 (p - 2)).

Definition first_primes (n : nat) : list Z :=
  map Z.of_nat (firstn n (filter is_prime (seq 2 400))).

(** The integer cube root of [n < 2 ^ (3 * bits)], one bit at a time. *)
Fixpoint cube_root (bits : nat) (n r : Z) : Z :=
  match bits with
  | O => r
  | S bits' =>
      let r' := r + 2 ^ Z.of_nat bits' in
      cube_root bits' n (if r' * r' * r' <=? n then r' else r)
  end.

Definition K256 : list Z :=
  Eval vm_compute in
    map (fun p => wrap32 (cube_root 36 (p * 2 ^ 96) 0)) (first_primes 64).

Definition H256 : list Z :=
  Eval vm_compute in
    map (fun p => wrap32 (Z.sqrt (p * 2 ^ 64))) (first_primes 8).

(** Padding: one [0x80] byte, zeros up to 56 modulo 64, then the bit
    length as a 64-bit big-endian integer. *)
Definition be_bytes (n : nat) (x : Z) : list Z :=
  map (fun i => Z.land (Z.shiftr x (8 * Z.of_nat i)) 0xff) (rev (seq 0 n)).

Definition pad (msg : list Z) : list Z :=
  let len := Z.of_nat (length msg) in
  msg ++ [0x80] ++ repeat 0 (Z.to_nat ((55 - len) mod 64))
      ++ be_bytes 8 (8 * len).

Fixpoint words_of_bytes (l : list Z) : list Z :=
  match l with
  | a :: b :: c :: d :: rest =>
      Z.lor (Z.shiftl a 24) (Z.lor (Z.shiftl b 16) (Z.lor (Z.shiftl c 8) d))
        :: words_of_bytes rest
  | _ => []
  end.

(** The message schedule, produced through a sliding window of the last
    sixteen words. *)
Definition next_word (win : list Z) : Z :=
  add32 (add32 (sigma1 (nth 14 win 0)) (nth 9 win 0))
        (add32 (sigma0 (nth 1 win 0)) (nth 0 win 0)).

Fixpoint schedule (n : nat) (win : list Z) : list Z :=
  match n, win with
  | S n', w0 :: rest => w0 :: schedule n' (rest ++ [next_word win])
  | _, _ => []
  end.

Record regs := Regs { ra : Z; rb : Z; rc : Z; rd : Z;
                      re : Z; rf : Z; rg : Z; rh : Z }.

Definition round (r : regs) (kw : Z * Z) : regs :=
  let t1 := add32 (add32 (add32 (rh r) (Sigma1 (re r)))
                         (add32 (Ch (re r) (rf r) (rg r)) (fst kw)))
                  (snd kw) in
  let t2 := add32 (Sigma0 (ra r)) (Maj (ra r) (rb r) (rc r)) in
  Regs (add32 t1 t2) (ra r) (rb r) (rc r) (add32 (rd r) t1) (re r) (rf r) (rg r).

Definition regs_of (h : list Z) : regs :=
  Regs (nth 0 h 0) (nth 1 h 0) (nth 2 h 0) (nth 3 h 0)
       (nth 4 h 0) (nth 5 h 0) (nth 6 h 0) (nth 7 h 0).
Definition list_of (r : regs) : list Z :=
  [ra r; rb r; rc r; rd r; re r; rf r; rg r; rh r].

Definition compress (h : list Z) (block : list Z) : list Z :=
  let w := schedule 64 block in
  let r := fold_left round (combine K256 w) (regs_of h) in
  map (fun p => add32 (fst p) (snd p)) (combine h (list_of r)).

Fixpoint blocks (n : nat) (h : list Z) (ws : list Z) : list Z :=
  match n with
  | O => h
  | S n' => blocks n' (compress h (firstn 16 ws)) (skipn 16 ws)
  end.

Definition digest_words (msg : list Z) : list Z :=
  let ws := words_of_bytes (pad msg) in
  blocks (length ws / 16) H256 ws.

Definition hex_digit (d : Z) : ascii :=
  ascii_of_N (Z.to_N (if d <? 10 then 48 + d else 87 + d)).

Fixpoint hex_of (n : nat) (x : Z) : string :=
  match n with
  | O => EmptyString
  | S n' => String (hex_digit (Z.land (Z.shiftr x (4 * Z.of_nat n')) 0xf))
                   (hex_of n' x)
  end.

(** [hashlib.sha256(data).hexdigest()] *)
Definition sha256_hexdigest (data : list byte) : string :=
  let ws := digest_words (map (fun b => Z.of_N (Byte.to_N b)) data) in
  fold_right (fun w acc => String.append (hex_of 8 w) acc) EmptyString ws.

End hashlib.

(** ** Python strings and bytes *)

Definition bytes := list byte.

#[global] Instance byte_eq_decision : EqDecision byte := Byte.byte_eq_dec.
#[global] Instance bytes_eq_decision : EqDecision bytes := list_eq_dec.

Definition Z_of_byte (b : byte) : Z := Z.of_N (Byte.to_N b).
Definition ascii_of_Z (c : Z) : ascii := ascii_of_N (Z.to_N c).

(** [s.encode()] *)
Definition str_encode (s : string) : bytes := list_byte_of_string s.

(** Truth value of a [str], a [bytes] or a [list]: false when empty. *)
Definition str_truthy (s : string) : bool :=
  match s with EmptyString => false | _ => true end.
Definition list_truthy {A} (l : list A) : bool :=
  match l with [] => false | _ => true end.

(** Truth value of an [Optional[bytes]]: [None] and [b""] are false. *)
Definition opt_bytes_truthy (o : option bytes) : bool :=
  match o with Some (_ :: _) => true | _ => false end.

(** [s.startswith(p)] *)
Definition startswith (s p : string) : bool := String.prefix p s.

(** [c * n] for a one-character string [c]; a negative [n] gives [""]. *)
Definition str_repeat (c : ascii) (n : Z) : string :=
  string_of_list_ascii (repeat c (Z.to_nat n)).

(** [p in s] for two strings: [p] occurs in [s]. *)
Fixpoint str_contains (s p : string) : bool :=
  String.prefix p s
  || match s with
     | EmptyString => false
     | String _ s' => str_contains s' p
     end.

(** A byte that continues a UTF-8 character. *)
Definition utf8_continuation (c : ascii) : bool :=
  let n := N_of_ascii c in (128 <=? n)%N && (n <=? 191)%N.

(** [len(s)]: the number of characters, that is, of bytes that do not
    continue a character. *)
Definition str_len (s : string) : Z :=
  Z.of_nat (length (filter (fun c => negb (utf8_continuation c))
                           (list_ascii_of_string s))).

(** [list(s)]: the characters of [s], each a string of its own. *)
Fixpoint str_chars_from (cur : string) (l : list ascii) : list string :=
  match l with
  | [] => [cur]
  | c :: l' =>
      if utf8_continuation c
      then str_chars_from (String.append cur (String c EmptyString)) l'
      else cur :: str_chars_from (String c EmptyString) l'
  end.

Definition str_chars (s : string) : list string :=
  match list_ascii_of_string s with
  | [] => []
  | c :: l => str_chars_from (String c EmptyString) l
  end.

(** The code points of a UTF-8 byte sequence, or [None] where the strict
  [utf-8] codec raises [UnicodeDecodeError] (a stray or missing
  continuation byte, an overlong form, a surrogate, a value above
  U+10FFFF). *)
Module utf8.

Definition cont (b : Z) : bool := (0x80 <=? b) && (b <=? 0xBF).
Definition low6 (b : Z) : Z := Z.land b 0x3F.
Definition between (lo x hi : Z) : bool := (lo <=? x) && (x <=? hi).

(** The range allowed for the second byte after the lead byte [a]. *)
Definition second_ok (a b : Z) : bool :=
  if a =? 0xE0 then between 0xA0 b 0xBF
  else if a =? 0xED then between 0x80 b 0x9F
  else if a =? 0xF0 then between 0x90 b 0xBF
  else if a =? 0xF4 then between 0x80 b 0x8F
  else cont b.

Fixpoint code_points (l : list Z) : option (list Z) :=
  match l with
  | [] => Some []
  | a :: l1 =>
      if a <? 0x80 then cons a <$> code_points l1
      else if between 0xC2 a 0xDF then
        match l1 with
        | b :: l2 =>
            if cont b
            then cons (Z.lor (Z.shiftl (Z.land a 0x1F) 6) (low6 b))
                   <$> code_points l2
            else None
        | _ => None
        end
      else if between 0xE0 a 0xEF then
        match l1 with
        | b :: c :: l3 =>
            if second_ok a b && cont c
            then cons (Z.lor (Z.shiftl (Z.land a 0x0F) 12)
                             (Z.lor (Z.shiftl (low6 b) 6) (low6 c)))
                   <$> code_points l3
            else None
        | _ => None
        end
      else if between 0xF0 a 0xF4 then
        match l1 with
        | b :: c :: d :: l4 =>
            if second_ok a b && cont c && cont d
            then cons (Z.lor (Z.shiftl (Z.land a 0x07) 18)
                             (Z.lor (Z.shiftl (low6 b) 12)
                                    (Z.lor (Z.shiftl (low6 c) 6) (low6 d))))
                   <$> code_points l4
            else None
        | _ => None
        end
      else None
  end.

End utf8.

(** Python exceptions that the modelled code can meet. [IllTyped] is not a
  Python exception: it marks a persisted document whose field does not
  have the type the dataclass annotation gives it, which the typed
  records below cannot hold. *)
Inductive pyexn :=
| KeyError (key : string)
| TypeError
| IndexError
| UnicodeDecodeError
| Exception (msg : string)
| IllTyped (field : string).

Inductive result (A : Type) :=
| Ok (a : A)
| Raise (e : pyexn).
Arguments Ok {A} a.
Arguments Raise {A} e.

#[global] Instance result_ret : MRet result := @Ok.
#[global] Instance result_bind : MBind result :=
  fun A B f r => match r with Ok a => f a | Raise e => Raise e end.

(** [b.decode()] *)
Definition bytes_decode (b : bytes) : result string :=
  match utf8.code_points (map Z_of_byte b) with
  | Some _ => Ok (string_of_list_byte b)
  | None => Raise UnicodeDecodeError
  end.

(** ** json: values and [json.dumps(..., sort_keys=True)] *)

(** A Python [float], named by its [repr]. *)
Record pyfloat := PyFloat { float_repr : string }.

Inductive json :=
| JNull
| JBool (b : bool)
| JInt (n : Z)
| JFloat (x : pyfloat)
| JStr (s : string)
| JList (l : list json)
| JDict (d : list (string * json)).

Module pyjson.

Definition chr (c : Z) : string := String (ascii_of_Z c) EmptyString.
Definition dquote : string := chr 34.
Definition backslash : string := chr 92.

(** [str(n)] for an [int]. *)
Definition digit (d : Z) : ascii := ascii_of_Z (48 + d).

Fixpoint digits (fuel : nat) (n : Z) (acc : string) : string :=
  match fuel with
  | O => acc
  | S fuel' =>
      let acc' := String (digit (n mod 10)) acc in
      if n <? 10 then acc' else digits fuel' (n / 10) acc'
  end.

Definition str_of_int (n : Z) : string :=
  let m := Z.abs n in
  let s := digits (S (Z.to_nat (Z.log2 m))) m EmptyString in
  if n <? 0 then String "-" s else s.

(** The escape of one code point under [ensure_ascii=True]. *)
Definition u_escape (c : Z) : string :=
  String.append backslash (String "u" (hashlib.hex_of 4 c)).

Definition escape_code_point (c : Z) : string :=
  if c =? 34 then String.append backslash dquote
  else if c =? 92 then String.append backslash backslash
  else if c =? 10 then String.append backslash "n"
  else if c =? 13 then String.append backslash "r"
  else if c =? 9 then String.append backslash "t"
  else if c =? 12 then String.append backslash "f"
  else if c =? 8 then String.append backslash "b"
  else if (32 <=? c) && (c <=? 126) then chr c
  else if c <? 0x10000 then u_escape c
  else
    let n := c - 0x10000 in
    String.append
      (u_escape (Z.lor 0xd800 (Z.land (Z.shiftr n 10) 0x3ff)))
      (u_escape (Z.lor 0xdc00 (Z.land n 0x3ff))).

(** [json.encoder.encode_basestring_ascii]. A [string] that is not
    well-formed UTF-8 stands for no Python [str]; its bytes are then
    escaped one by one. *)
Definition encode_basestring_ascii (s : string) : string :=
  let bs := map Z_of_byte (list_byte_of_string s) in
  let cps := match utf8.code_points bs with Some l => l | None => bs end in
  String.append dquote
    (String.append (String.concat EmptyString (map escape_code_point cps))
                   dquote).

(** [sorted(dct.items())] on the rendered items: a stable insertion sort
    on the keys, in code-point order (which is the byte order of
    UTF-8). *)
Fixpoint insert_item (kv : string * string) (l : list (string * string))
  : list (string * string) :=
  match l with
  | [] => [kv]
  | kv' :: l' =>
      if String.ltb (fst kv) (fst kv') then kv :: l
      else kv' :: insert_item kv l'
  end.

Definition sort_items (l : list (string * string)) : list (string * string) :=
  fold_left (fun acc kv => insert_item kv acc) l [].

Definition render_item (kv : string * string) : string :=
  String.append (encode_basestring_ascii (fst kv))
                (String.append ": " (snd kv)).

(** [json.dumps(j, sort_keys=True)], with the default separators. *)
Fixpoint dumps (j : json) : string :=
  match j with
  | JNull => "null"
  | JBool true => "true"
  | JBool false => "false"
  | JInt n => str_of_int n
  | JFloat x => float_repr x
  | JStr s => encode_basestring_ascii s
  | JList l =>
      String.append "["
        (String.append (String.concat ", " (map dumps l)) "]")
  | JDict d =>
      let items := map (fun kv => (fst kv, dumps (snd kv))) d in
      String.append "{"
        (String.append
           (String.concat ", " (map render_item (sort_items items))) "}")
  end.

(** [d[key]]: the first binding of [key]; [KeyError] when a dict has
    none, [TypeError] when [d] is not a dict. *)
Fixpoint assoc (key : string) (d : list (string * json)) : option json :=
  match d with
  | [] => None
  | (k, v) :: d' => if String.eqb k key then Some v else assoc key d'
  end.

Definition getitem (d : json) (key : string) : result json :=
  match d with
  | JDict l =>
      match assoc key l with
      | Some v => Ok v
      | None => Raise (KeyError key)
      end
  | _ => Raise TypeError
  end.

End pyjson.

(** ** core/blockchain.py *)

Module blockchain.

(** *** class Block *)

Record Block := mkBlock {
  index : Z;
  timestamp : pyfloat;
  data : json;
  previous_hash : string;
  nonce : Z;
  hash : string
}.

Definition set_data (v : json) (b : Block) : Block :=
  mkBlock (index b) (timestamp b) v (previous_hash b) (nonce b) (hash b).
Definition set_previous_hash (v : string) (b : Block) : Block :=
  mkBlock (index b) (timestamp b) (data b) v (nonce b) (hash b).
Definition set_nonce (v : Z) (b : Block) : Block :=
  mkBlock (index b) (timestamp b) (data b) (previous_hash b) v (hash b).
Definition set_hash (v : string) (b : Block) : Block :=
  mkBlock (index b) (timestamp b) (data b) (previous_hash b) (nonce b) v.

Definition calculate_hash (self : Block) : string :=
  let block_string :=
    pyjson.dumps (JDict [ ("index", JInt (index self));
                          ("timestamp", JFloat (timestamp self));
                          ("data", data self);
                          ("previous_hash", JStr (previous_hash self));
                          ("nonce", JInt (nonce self)) ]) in
  hashlib.sha256_hexdigest (str_encode block_string).

(** The dataclass constructor: the generated [__init__] leaves [hash] at
    its default [""], then [__post_init__] fills it in. *)
Definition __post_init__ (self : Block) : Block :=
  if negb (str_truthy (hash self))
  then set_hash (calculate_hash self) self
  else self.

Definition Block_new (index : Z) (timestamp : pyfloat) (data : json)
    (previous_hash : string) (nonce : Z) : Block :=
  __post_init__ (mkBlock index timestamp data previous_hash nonce EmptyString).

Definition target (difficulty : Z) : string := str_repeat "0" difficulty.

(** [mine]: the [while] loop, unrolled at most [fuel] times; [None] when
    the fuel runs out before the hash meets the target. *)
Fixpoint mine (fuel : nat) (self : Block) (difficulty : Z) : option Block :=
  if startswith (hash self) (target difficulty) then Some self
  else
    match fuel with
    | O => None
    | S fuel' =>
        let self := set_nonce (nonce self + 1) self in
        let self := set_hash (calculate_hash self) self in
        mine fuel' self difficulty
    end.

Definition Block_to_dict (self : Block) : json :=
  JDict [ ("index", JInt (index self));
          ("timestamp", JFloat (timestamp self));
          ("data", data self);
          ("previous_hash", JStr (previous_hash self));
          ("nonce", JInt (nonce self));
          ("hash", JStr (hash self)) ].

(** Readers of a document field at the type of the annotation. *)
Definition as_int (field : string) (j : json) : result Z :=
  match j with JInt n => Ok n | _ => Raise (IllTyped field) end.
Definition as_float (field : string) (j : json) : result pyfloat :=
  match j with JFloat x => Ok x | _ => Raise (IllTyped field) end.
Definition as_str (field : string) (j : json) : result string :=
  match j with JStr s => Ok s | _ => Raise (IllTyped field) end.
Definition as_list (field : string) (j : json) : result (list json) :=
  match j with JList l => Ok l | _ => Raise (IllTyped field) end.

Definition field {A} (as_ty : string -> json -> result A) (d : json)
    (key : string) : result A :=
  pyjson.getitem d key ≫= as_ty key.

Definition Block_from_dict (d : json) : result Block :=
  i ← field as_int d "index";
  t ← field as_float d "timestamp";
  dt ← pyjson.getitem d "data";
  ph ← field as_str d "previous_hash";
  n ← field as_int d "nonce";
  let block := Block_new i t dt ph n in
  h ← field as_str d "hash";
  Ok (set_hash h block).

(** *** class Blockchain *)

Record Blockchain := mkBlockchain {
  chain : list Block;
  pending_data : list json;
  difficulty : Z
}.

Definition genesis_data : json :=
  JDict [("message", JStr "Genesis Block"); ("type", JStr "system")].

(** [now] is the reading of [time.time()]. *)
Definition _create_genesis_block (fuel : nat) (now : pyfloat)
    (self : Blockchain) : option Blockchain :=
  let genesis := Block_new 0 now genesis_data (str_repeat "0" 64) 0 in
  genesis ← mine fuel genesis (difficulty self);
  Some (mkBlockchain (chain self ++ [genesis]) (pending_data self)
                     (difficulty self)).

Definition __init__ (fuel : nat) (now : pyfloat) (difficulty : Z)
  : option Blockchain :=
  _create_genesis_block fuel now (mkBlockchain [] [] difficulty).

(** [self.chain[-1]] *)
Definition latest_block (self : Blockchain) : result Block :=
  match last (chain self) with
  | Some b => Ok b
  | None => Raise IndexError
  end.

Definition add_data (data : json) (self : Blockchain) : Blockchain :=
  mkBlockchain (chain self) (pending_data self ++ [data]) (difficulty self).

(** [mine_pending] returns the value returned (or the exception raised)
    together with the ledger afterwards; [None] stands for a proof-of-work
    search that outlasts the fuel. *)
Definition mine_pending (fuel : nat) (now : pyfloat) (self : Blockchain)
  : option (result (option Block) * Blockchain) :=
  if negb (list_truthy (pending_data self)) then Some (Ok None, self)
  else
    match latest_block self with
    | Raise e => Some (Raise e, self)
    | Ok latest =>
        let new_block :=
          Block_new (Z.of_nat (length (chain self))) now
                    (JDict [("messages", JList (pending_data self))])
                    (hash latest) 0 in
        new_block ← mine fuel new_block (difficulty self);
        Some (Ok (Some new_block),
              mkBlockchain (chain self ++ [new_block]) [] (difficulty self))
    end.

(** The body of the validation loop for one block: [false] where the
    code returns [False], [true] where it goes on to the next
    iteration. *)
Definition check_block (self : Blockchain) (current previous : Block)
  : bool :=
  if negb (String.eqb (hash current) (calculate_hash current)) then false
  else if negb (String.eqb (previous_hash current) (hash previous)) then false
  else if negb (startswith (hash current) (target (difficulty self)))
  then false
  else true.

Fixpoint is_chain_valid_loop (self : Blockchain) (range : list nat) : bool :=
  match range with
  | [] => true
  | i :: range' =>
      match chain self !! i, chain self !! (i - 1)%nat with
      | Some current, Some previous =>
          if check_block self current previous
          then is_chain_valid_loop self range'
          else false
      | _, _ => false
      end
  end.

(** [for i in range(1, len(self.chain))]. Both subscripts are in range for
    every such [i] (lemma [loop_subscripts_in_range]). *)
Definition is_chain_valid (self : Blockchain) : bool :=
  is_chain_valid_loop self (seq 1 (length (chain self) - 1)).

Definition to_dict (self : Blockchain) : json :=
  JDict [ ("difficulty", JInt (difficulty self));
          ("chain", JList (map Block_to_dict (chain self)));
          ("pending_data", JList (pending_data self)) ].

Fixpoint from_dict_blocks (l : list json) : result (list Block) :=
  match l with
  | [] => Ok []
  | b :: l' =>
      blk ← Block_from_dict b;
      rest ← from_dict_blocks l';
      Ok (blk :: rest)
  end.

Definition from_dict (d : json) : result Blockchain :=
  df ← field as_int d "difficulty";
  ch ← field as_list d "chain";
  blocks ← from_dict_blocks ch;
  pd ← field as_list d "pending_data";
  Ok (mkBlockchain blocks pd df).

(** [key in d]: a key of a dict, an element of a list, a substring of a
    string; [TypeError] on a value that is not a container. *)
Definition contains (d : json) (key : string) : result bool :=
  match d with
  | JDict l => Ok (bool_decide (is_Some (pyjson.assoc key l)))
  | JList l =>
      Ok (existsb (fun x => match x with
                            | JStr s => String.eqb s key
                            | _ => false
                            end) l)
  | JStr s => Ok (str_contains s key)
  | _ => Raise TypeError
  end.

(** The items that [list.extend(v)] appends: the elements of a list, the
    characters of a string, the keys of a dict; [TypeError] on a value
    that is not iterable. *)
Definition iterate (v : json) : result (list json) :=
  match v with
  | JList l => Ok l
  | JStr s => Ok (map JStr (str_chars s))
  | JDict d => Ok (map (fun kv => JStr (fst kv)) d)
  | _ => Raise TypeError
  end.

Fixpoint get_messages_loop (blocks : list Block) (messages : list json)
  : result (list json) :=
  match blocks with
  | [] => Ok messages
  | block :: blocks' =>
      has ← contains (data block) "messages";
      if has : bool
      then
        v ← pyjson.getitem (data block) "messages";
        items ← iterate v;
        get_messages_loop blocks' (messages ++ items)
      else get_messages_loop blocks' messages
  end.

(** [for block in self.chain[1:]] *)
Definition get_messages (self : Blockchain) : result (list json) :=
  get_messages_loop (tail (chain self)) [].

Definition __len__ (self : Blockchain) : Z := Z.of_nat (length (chain self)).

(** *** calculate_merkle_root *)

Definition sha256_str (s : string) : string :=
  hashlib.sha256_hexdigest (str_encode s).

(** The inner [for i in range(0, len(hashes), 2)] loop. The level has an
    even length when it runs, so [hashes[i + 1]] exists. *)
Fixpoint next_level (hashes : list string) : list string :=
  match hashes with
  | a :: b :: rest => sha256_str (String.append a b) :: next_level rest
  | _ => []
  end.

Definition duplicate_last (hashes : list string) : list string :=
  if Nat.odd (length hashes)
  then hashes ++ match last hashes with Some h => [h] | None => [] end
  else hashes.

(** The [while len(hashes) > 1] loop. A level of [n > 1] hashes is
    followed by one of [(n + 1) / 2 < n], so [length hashes] rounds are
    enough (lemma [merkle_loop_fuel]). *)
Fixpoint merkle_loop (fuel : nat) (hashes : list string) : list string :=
  match fuel with
  | O => hashes
  | S fuel' =>
      if (1 <? length hashes)%nat
      then merkle_loop fuel' (next_level (duplicate_last hashes))
      else hashes
  end.

Definition calculate_merkle_root (data_list : list bytes) : string :=
  if negb (list_truthy data_list) then hashlib.sha256_hexdigest []
  else
    let hashes := map hashlib.sha256_hexdigest data_list in
    match merkle_loop (length hashes) hashes with
    | h :: _ => h
    | [] => EmptyString
    end.

End blockchain.


(** ** engine/engine.py *)

(** *** The collaborators of the engine

    The modules [core.crypto], [core.message], [network.p2p],
    [network.peer] and [engine.chunker] are used by the engine and are not
    part of the sources at hand. Their data types are modelled from the
    specification's data model and external interfaces; their functions
    are parameters of the section below. *)

Module collaborators.

(** Modelled from the spec: the message types of the data model
    ([core.message.MessageType]). *)
Inductive MessageType := TEXT | ACK | STREAM_START | STREAM_CHUNK | STREAM_END.

(** Modelled from the spec: [chunk_info], "optional {stream_id, sequence,
    total}" ([core.message.ChunkInfo]). *)
Record ChunkInfo := mkChunkInfo {
  ci_stream_id : string;
  ci_sequence : Z;
  ci_total : Z
}.

(** Modelled from the spec: the Message of the data model
    ([core.message.MessagePayload]). The nonce is present exactly when the
    content is encrypted. *)
Record MessagePayload := mkMessagePayload {
  id : string;
  type : MessageType;
  sender : string;
  recipient : string;
  timestamp : pyfloat;
  content : bytes;
  nonce : option bytes;
  signature : bytes;
  metadata : list (string * json);
  chunk_info : option ChunkInfo
}.

Definition set_signature (sig : bytes) (m : MessagePayload) : MessagePayload :=
  mkMessagePayload (id m) (type m) (sender m) (recipient m) (timestamp m)
                   (content m) (nonce m) sig (metadata m) (chunk_info m).

(** What a call draws from its surroundings: the identifier and the clock
    reading that a new message receives, and the randomness of the
    encryption nonce. *)
Record ambient := mkAmbient {
  fresh_id : string;
  now : pyfloat;
  entropy : bytes
}.

(** Modelled from the spec: [MessagePayload.create] builds a message from
    the fields given, with a unique [id], the current time as [timestamp]
    and no [chunk_info]. *)
Definition MessagePayload_create (amb : ambient) (msg_type : MessageType)
    (sender recipient : string) (content signature : bytes)
    (nonce : option bytes) (metadata : list (string * json))
  : MessagePayload :=
  mkMessagePayload (fresh_id amb) msg_type sender recipient (now amb) content
                   nonce signature metadata None.

(** Modelled from the spec: the Chunk of the data model
    ([engine.chunker.Chunk]). *)
Record Chunk := mkChunk {
  stream_id : string;
  sequence : Z;
  total : Z;
  chunk_data : bytes
}.

(** Modelled from the spec: "Peer{id, public_key, encryption_key, address,
    port}" ([network.peer.Peer]); a key that is not known is [None]. *)
Record Peer := mkPeer {
  peer_id : string;
  public_key : option bytes;
  encryption_key : option bytes;
  peer_address : string;
  peer_port : Z
}.

(** Modelled from the spec: the identity/wallet collaborator
    ([core.crypto.Wallet]): "sign(bytes) -> signature; exposes address,
    name, signing and encryption keypairs". *)
Record Wallet := mkWallet {
  address : string;
  name : string;
  encryption_private_key : bytes;
  sign : bytes -> bytes
}.

(** Modelled from the spec: the peer directory collaborator
    ([network.p2p.P2PNode]): "get_peer(id) -> optional Peer;
    send_message(message, recipient_id) -> success: boolean;
    broadcast(message) -> count: integer". What the network answers is
    given by these functions; the calls are recorded in the trace. *)
Record P2PNode := mkP2PNode {
  get_peer : string -> option Peer;
  send_message : MessagePayload -> string -> bool;
  broadcast : MessagePayload -> Z
}.

End collaborators.

Module engine.
Import collaborators.

Inductive ContentType := CT_TEXT | CT_BINARY | CT_AUDIO | CT_VIDEO.

Record ReceivedMessage := mkReceivedMessage {
  rm_id : string;
  rm_sender : string;
  rm_sender_name : option json;
  rm_content : string;
  rm_timestamp : pyfloat;
  rm_verified : bool
}.

(** An observer: what awaiting it on a message comes to, a normal return
    or an exception. Observers are outside the engine and do not change
    its state. *)
Definition MessageCallback := ReceivedMessage -> result unit.

Inductive level := DEBUG | INFO | WARNING | ERROR.

(** What the engine does, in program order: the calls that leave it
    (logger, ledger, key derivation, observers, peer directory) and the
    construction of a [ReceivedMessage]. *)
Inductive event :=
| Log (lvl : level) (msg : string)
| LedgerAdd (entry : json)
| Derive (peer : string) (peer_key : bytes)
| Construct (received : ReceivedMessage)
| Invoke (callback : MessageCallback) (received : ReceivedMessage)
| Send (message : MessagePayload) (recipient_id : string)
| Broadcast (message : MessagePayload).

(** The functions of the missing modules that the engine calls.
    [core.crypto]: verification never raises, and decryption raises on an
    authentication failure; [encrypt_message] takes the randomness of its
    nonce as its first argument. [core.message]: the signable content of a
    message and the construction of an acknowledgment.
    [engine.chunker]: the reassembler and its [add_chunk]. *)
Class Collaborators := {
  verify_signature : bytes -> bytes -> bytes -> bool;
  derive_shared_secret : bytes -> bytes -> bytes;
  encrypt_message : bytes -> bytes -> bytes -> bytes * bytes;
  decrypt_message : bytes -> bytes -> bytes -> result bytes;
  get_signable_content : MessagePayload -> bytes;
  create_ack_message :
    string -> string -> string -> (bytes -> bytes) -> MessagePayload;
  ChunkReassembler : Type;
  add_chunk : Chunk -> ChunkReassembler -> option bytes * ChunkReassembler
}.

Section TransmissionEngine.

Context {collab : Collaborators}.

Record TransmissionEngine := mkEngine {
  wallet : Wallet;
  p2p_node : P2PNode;
  blockchain : blockchain.Blockchain;
  reassembler : ChunkReassembler;
  _message_callbacks : list MessageCallback;
  _shared_secrets : gmap string bytes
}.

Record world := mkWorld {
  self : TransmissionEngine;
  trace : list event
}.

(** Computations of the engine: a result or an exception, and the world
    afterwards. *)
Definition M (A : Type) : Type := world -> result A * world.

Definition ret {A} (a : A) : M A := fun w => (Ok a, w).

Definition bind {A B} (m : M A) (f : A -> M B) : M B :=
  fun w =>
    match m w with
    | (Ok a, w') => f a w'
    | (Raise e, w') => (Raise e, w')
    end.

Declare Scope engine_scope.
Delimit Scope engine_scope with M.
Bind Scope engine_scope with M.
Notation "x ← y ; z" := (bind y (fun x => z))
  (at level 20, y at level 100, z at level 200, only parsing) : engine_scope.
Notation "' x ← y ; z" := (bind y (fun x => z))
  (at level 20, x pattern, y at level 100, z at level 200, only parsing)
  : engine_scope.
Notation "x ;; z" := (bind x (fun _ => z))
  (at level 100, z at level 200, only parsing, right associativity)
  : engine_scope.
Local Open Scope engine_scope.

Definition raise {A} (e : pyexn) : M A := fun w => (Raise e, w).

Definition lift {A} (r : result A) : M A := fun w => (r, w).

Definition get_self : M TransmissionEngine := fun w => (Ok (self w), w).

Definition put_self (e : TransmissionEngine) : M unit :=
  fun w => (Ok tt, mkWorld e (trace w)).

Definition emit (ev : event) : M unit :=
  fun w => (Ok tt, mkWorld (self w) (trace w ++ [ev])).

(** [try: body except <caught>: handler] *)
Definition try_except {A} (body : M A) (caught : pyexn -> bool)
    (handler : pyexn -> M A) : M A :=
  fun w =>
    match body w with
    | (Raise e, w') => if caught e then handler e w' else (Raise e, w')
    | r => r
    end.

(** Every exception of the model is an [Exception]. *)
Definition is_Exception (e : pyexn) : bool := true.
Definition is_UnicodeDecodeError (e : pyexn) : bool :=
  match e with UnicodeDecodeError => true | _ => false end.

(** [for x in l: body(x)] *)
Fixpoint for_each {X} (l : list X) (body : X -> M unit) : M unit :=
  match l with
  | [] => ret tt
  | x :: l' => body x;; for_each l' body
  end.

Definition logger (lvl : level) (msg : string) : M unit := emit (Log lvl msg).

(** [self.blockchain.add_data(entry)] *)
Definition blockchain_add_data (entry : json) : M unit :=
  e ← get_self;
  put_self (mkEngine (wallet e) (p2p_node e)
                     (blockchain.add_data entry (blockchain e))
                     (reassembler e) (_message_callbacks e)
                     (_shared_secrets e));;
  emit (LedgerAdd entry).

(** [await self.p2p_node.send_message(message, recipient_id)] *)
Definition p2p_send_message (message : MessagePayload) (recipient_id : string)
  : M bool :=
  e ← get_self;
  emit (Send message recipient_id);;
  ret (send_message (p2p_node e) message recipient_id).

(** [await callback(received)] *)
Definition await_callback (callback : MessageCallback)
    (received : ReceivedMessage) : M unit :=
  emit (Invoke callback received);; lift (callback received).

Definition on_message (callback : MessageCallback) : M unit :=
  e ← get_self;
  put_self (mkEngine (wallet e) (p2p_node e) (blockchain e) (reassembler e)
                     (_message_callbacks e ++ [callback])
                     (_shared_secrets e)).

Definition _get_shared_secret (peer : Peer) : M (option bytes) :=
  if negb (opt_bytes_truthy (encryption_key peer)) then ret None
  else
    e ← get_self;
    (if negb (bool_decide (is_Some (_shared_secrets e !! peer_id peer)))
     then
       let peer_key := default [] (encryption_key peer) in
       emit (Derive (peer_id peer) peer_key);;
       put_self (mkEngine (wallet e) (p2p_node e) (blockchain e)
                   (reassembler e) (_message_callbacks e)
                   (<[peer_id peer :=
                        derive_shared_secret
                          (encryption_private_key (wallet e)) peer_key]>
                      (_shared_secrets e)))
     else ret tt);;
    e ← get_self;
    match _shared_secrets e !! peer_id peer with
    | Some secret => ret (Some secret)
    | None => raise (KeyError (peer_id peer))
    end.

Definition message_entry (message : MessagePayload) : json :=
  JDict [ ("type", JStr "message");
          ("id", JStr (id message));
          ("sender", JStr (sender message));
          ("recipient", JStr (recipient message));
          ("timestamp", JFloat (timestamp message)) ].

Definition send_text (amb : ambient) (recipient_id : string) (text : string)
    (encrypt : bool) : M bool :=
  e ← get_self;
  match get_peer (p2p_node e) recipient_id with
  | None =>
      logger ERROR "Peer not found";; ret false
  | Some peer =>
      let content := str_encode text in
      let nonce : option bytes := None in
      '(nonce, content) ←
        (if encrypt && opt_bytes_truthy (encryption_key peer)
         then
           shared_secret ← _get_shared_secret peer;
           if opt_bytes_truthy shared_secret
           then
             let '(n, c) := encrypt_message (entropy amb) content
                              (default [] shared_secret) in
             ret (Some n, c)
           else ret (nonce, content)
         else ret (nonce, content));
      let message :=
        MessagePayload_create amb TEXT (address (wallet e)) recipient_id
          content [] nonce [("name", JStr (name (wallet e)))] in
      let signable := get_signable_content message in
      let message := set_signature (sign (wallet e) signable) message in
      blockchain_add_data (message_entry message);;
      success ← p2p_send_message message recipient_id;
      (if success then logger INFO "Sent message" else ret tt);;
      ret success
  end.

Definition broadcast_entry (message : MessagePayload) : json :=
  JDict [ ("type", JStr "broadcast");
          ("id", JStr (id message));
          ("sender", JStr (sender message));
          ("timestamp", JFloat (timestamp message)) ].

Definition broadcast_text (amb : ambient) (text : string) : M Z :=
  e ← get_self;
  let content := str_encode text in
  let message :=
    MessagePayload_create amb TEXT (address (wallet e)) "*" content [] None
      [("name", JStr (name (wallet e)))] in
  let signable := get_signable_content message in
  let message := set_signature (sign (wallet e) signable) message in
  blockchain_add_data (broadcast_entry message);;
  emit (Broadcast message);;
  ret (broadcast (p2p_node e) message).

Definition received_entry (message : MessagePayload) : json :=
  JDict [ ("type", JStr "received");
          ("id", JStr (id message));
          ("sender", JStr (sender message));
          ("timestamp", JFloat (timestamp message)) ].

(** [_handle_text_message] from "Decode text" on, given the content after
    the decryption step. *)
Definition deliver_text (message : MessagePayload) (peer : Peer)
    (verified : bool) (content : bytes) : M unit :=
  match bytes_decode content with
  | Raise e =>
      if is_UnicodeDecodeError e
      then logger ERROR "Failed to decode message content"
      else raise e
  | Ok text =>
      let received :=
        mkReceivedMessage (id message) (sender message)
          (pyjson.assoc "name" (metadata message)) text (timestamp message)
          verified in
      emit (Construct received);;
      blockchain_add_data (received_entry message);;
      e ← get_self;
      for_each (_message_callbacks e) (fun callback =>
        try_except (await_callback callback received) is_Exception
          (fun _ => logger ERROR "Message callback error"));;
      let ack :=
        create_ack_message (address (wallet e)) (sender message) (id message)
                           (sign (wallet e)) in
      p2p_send_message ack (peer_id peer);; ret tt
  end.

Definition _handle_text_message (message : MessagePayload) (peer : Peer)
    (verified : bool) : M unit :=
  let content := content message in
  if opt_bytes_truthy (nonce message) && opt_bytes_truthy (encryption_key peer)
  then
    shared_secret ← _get_shared_secret peer;
    if opt_bytes_truthy shared_secret
    then
      match decrypt_message content (default [] shared_secret)
                            (default [] (nonce message)) with
      | Raise e =>
          if is_Exception e
          then logger ERROR "Failed to decrypt message"
          else raise e
      | Ok content => deliver_text message peer verified content
      end
    else deliver_text message peer verified content
  else deliver_text message peer verified content.

Definition _handle_stream_message (message : MessagePayload) (peer : Peer)
  : M unit :=
  match chunk_info message with
  | None => ret tt
  | Some info =>
      let chunk := mkChunk (ci_stream_id info) (ci_sequence info)
                           (ci_total info) (content message) in
      e ← get_self;
      let '(completed, r) := add_chunk chunk (reassembler e) in
      put_self (mkEngine (wallet e) (p2p_node e) (blockchain e) r
                         (_message_callbacks e) (_shared_secrets e));;
      if opt_bytes_truthy completed
      then logger INFO "Stream complete"
      else ret tt
  end.

Definition _handle_incoming (message : MessagePayload) (peer : Peer)
  : M unit :=
  if negb (opt_bytes_truthy (public_key peer))
  then logger WARNING "No public key for peer"
  else
    let signable := get_signable_content message in
    let verified :=
      verify_signature signable (signature message)
                       (default [] (public_key peer)) in
    if negb verified
    then logger WARNING "Invalid signature"
    else
      match type message with
      | TEXT => _handle_text_message message peer verified
      | ACK => logger DEBUG "Received ACK"
      | STREAM_START | STREAM_CHUNK | STREAM_END =>
          _handle_stream_message message peer
      end.

(** [mine_pending]: [None] when the proof-of-work search outlasts the
    fuel. *)
Definition mine_pending (fuel : nat) (now : pyfloat)
  : world -> option (result unit * world) :=
  fun w =>
    let e := self w in
    match blockchain.mine_pending fuel now (blockchain e) with
    | None => None
    | Some (r, bc) =>
        let w' := mkWorld (mkEngine (wallet e) (p2p_node e) bc (reassembler e)
                                    (_message_callbacks e) (_shared_secrets e))
                          (trace w) in
        match r with
        | Raise ex => Some (Raise ex, w')
        | Ok (Some block) => Some (logger INFO "Mined block" w')
        | Ok None => Some (Ok tt, w')
        end
    end.

Definition get_message_history (e : TransmissionEngine)
  : result (list json) :=
  blockchain.get_messages (blockchain e).

(** [__init__]: a ledger that is given is used unless it is falsy, that
    is, unless its chain is empty ([Blockchain] defines [__len__]);
    otherwise a ledger of difficulty 2 is constructed. The observers and
    the cache of shared secrets start empty. (The registration of
    [_handle_incoming] with the peer directory happens outside the
    engine.) *)
Definition __init__ (fuel : nat) (now : pyfloat) (wallet : Wallet)
    (p2p_node : P2PNode) (new_reassembler : ChunkReassembler)
    (blockchain : option blockchain.Blockchain)
  : option TransmissionEngine :=
  let ledger :=
    match blockchain with
    | Some bc =>
        if list_truthy (blockchain.chain bc) then Some bc
        else blockchain.__init__ fuel now 2
    | None => blockchain.__init__ fuel now 2
    end in
  match ledger with
  | Some bc => Some (mkEngine wallet p2p_node bc new_reassembler [] ∅)
  | None => None
  end.

End TransmissionEngine.

End engine.

(** ** client/cli.py *)

Module cli.

(** Modelled from the spec: the settings of the command-line client
    ([client.client.ClientConfig], not among the sources), with the fields
    that [cli.py] reads and writes. *)
Record ClientConfig := mkClientConfig {
  data_dir : string;
  p2p_port : Z;
  registry_host : string;
  registry_port : Z
}.

(** [server.rsplit(":", 1)] on a string that contains a colon: what is
    before the last colon and what is after it. *)
Fixpoint rsplit_colon (l : list ascii) : option (list ascii * list ascii) :=
  match l with
  | [] => None
  | c :: l' =>
      match rsplit_colon l' with
      | Some (before, rest) => Some (c :: before, rest)
      | None => if Ascii.eqb c ":" then Some ([], l') else None
      end
  end.

Section commands.

(** The builtin [int] on a string: the integer, or the [ValueError]. *)
Variable int : string -> result Z.

(** "Parse server address", as the commands [register], [send], [listen]
    and [peers] all do before they build their client. *)
Definition parse_server (server : string) (config : ClientConfig)
  : result ClientConfig :=
  if str_contains server ":"
  then
    match rsplit_colon (list_ascii_of_string server) with
    | Some (host, port) =>
        let config :=
          mkClientConfig (data_dir config) (p2p_port config)
                         (string_of_list_ascii host) (registry_port config) in
        port ← int (string_of_list_ascii port);
        Ok (mkClientConfig (data_dir config) (p2p_port config)
                           (registry_host config) port)
    | None => Raise (Exception "ValueError")
    end
  else
    Ok (mkClientConfig (data_dir config) (p2p_port config) server
                       (registry_port config)).

End commands.

(** [peer["peer_id"].startswith(recipient)]: a peer record without the
    key raises [KeyError], one that is not a dict [TypeError], and an id
    that is not a string has no [startswith] ([AttributeError]). *)
Definition peer_id_of (peer : json) : result string :=
  v ← pyjson.getitem peer "peer_id";
  match v with
  | JStr s => Ok s
  | _ => Raise (Exception "AttributeError")
  end.

(** The loop of [send] that looks for the recipient by a partial id; it
    stops at the first peer whose id starts with [recipient]. *)
Fixpoint find_recipient (recipient : string) (peers : list json)
    (full_recipient : string) : result string :=
  match peers with
  | [] => Ok full_recipient
  | peer :: peers' =>
      pid ← peer_id_of peer;
      if startswith pid recipient
      then Ok pid
      else find_recipient recipient peers' full_recipient
  end.

(** "Find recipient" in [send]: [peers] is what [client.get_peers()]
    returns. *)
Definition resolve_recipient (recipient : string) (peers : list json)
  : result string :=
  let full_recipient := recipient in
  if str_len recipient <? 64
  then find_recipient recipient peers full_recipient
  else Ok full_recipient.

End cli.
(** ** The ledger: auxiliary definitions for the statements *)

Module ledger_model.
Import blockchain.

(** One round of the proof-of-work loop. *)
Definition bump (b : Block) : Block :=
  let b' := set_nonce (nonce b + 1) b in set_hash (calculate_hash b') b'.

(** [k] further nonces after the current one. *)
Fixpoint bumps (k : nat) (b : Block) : Block :=
  match k with
  | O => b
  | S k' => bumps k' (bump b)
  end.

(** Position [i] passes the body of the validation loop: both subscripts
    are in range and the three checks hold. *)
Definition checked_at (self : Blockchain) (i : nat) : Prop :=
  exists current previous,
    chain self !! i = Some current
    /\ chain self !! (i - 1)%nat = Some previous
    /\ check_block self current previous = true.

(** Tampering with a stored block: [self.chain[i].data = v] and
    [self.chain[i].previous_hash = v]. *)
Definition tamper_data (i : nat) (v : json) (self : Blockchain)
  : Blockchain :=
  mkBlockchain (alter (set_data v) i (chain self)) (pending_data self)
               (difficulty self).

Definition tamper_previous_hash (i : nat) (v : string) (self : Blockchain)
  : Blockchain :=
  mkBlockchain (alter (set_previous_hash v) i (chain self))
               (pending_data self) (difficulty self).

(** [add_data] called on each payload in turn. *)
Definition add_all (payloads : list json) (self : Blockchain) : Blockchain :=
  fold_left (fun bc p => add_data p bc) payloads self.

(** Every block sits at the position its [index] names. *)
Definition indexed (l : list Block) : Prop :=
  forall i b, l !! i = Some b -> index b = Z.of_nat i.

(** The ledger states that construction, [add_data] and [mine_pending]
    produce. *)
Inductive reachable : Blockchain -> Prop :=
| reach_init fuel now d self :
    __init__ fuel now d = Some self -> reachable self
| reach_add_data self p :
    reachable self -> reachable (add_data p self)
| reach_mine_pending self fuel now r self' :
    reachable self ->
    mine_pending fuel now self = Some (r, self') ->
    reachable self'.

End ledger_model.

(** ** A ledger of two blocks, mined at difficulty 1 *)

Module demo.
Import blockchain.

Definition t0 : pyfloat := PyFloat "1700000000.25".
Definition t1 : pyfloat := PyFloat "1700000006.75".

Definition entry : json :=
  JDict [ ("type", JStr "message"); ("id", JStr "m1");
          ("sender", JStr "alice"); ("recipient", JStr "bob");
          ("timestamp", JFloat (PyFloat "1700000001.25")) ].

Definition genesis : Block :=
  mkBlock 0 t0 genesis_data
    "0000000000000000000000000000000000000000000000000000000000000000" 1
    "0307415367d43d36ea984702d93b5bc26f17b85a4cf10e9f953b5418f257baf2".

Definition block1 : Block :=
  mkBlock 1 t1 (JDict [("messages", JList [entry])])
    "0307415367d43d36ea984702d93b5bc26f17b85a4cf10e9f953b5418f257baf2" 1
    "028bac4364a479859b6ff71fbfe7a027d5de36c7460cb43c7a62835ec1fd7a68".

Definition ledger0 : Blockchain := mkBlockchain [genesis] [] 1.
Definition ledger1 : Blockchain := mkBlockchain [genesis; block1] [] 1.

Definition forged : json := JDict [("message", JStr "Forged Block")].

End demo.


(** ** The engine: auxiliary definitions for the statements *)

Module engine_model.
Import collaborators engine.

(** What a trace shows of each kind of action. *)
Definition invoked (t : list event)
  : list (MessageCallback * ReceivedMessage) :=
  omap (fun ev => match ev with Invoke cb r => Some (cb, r) | _ => None end) t.

Definition sent (t : list event) : list (MessagePayload * string) :=
  omap (fun ev => match ev with Send m r => Some (m, r) | _ => None end) t.

Definition ledger_added (t : list event) : list json :=
  omap (fun ev => match ev with LedgerAdd j => Some j | _ => None end) t.

Definition constructed (t : list event) : list ReceivedMessage :=
  omap (fun ev => match ev with Construct r => Some r | _ => None end) t.

Definition logged (t : list event) : list level :=
  omap (fun ev => match ev with Log l _ => Some l | _ => None end) t.

(** The derivations of a shared secret for the peer [pid]. *)
Definition derived (pid : string) (t : list event) : list bytes :=
  omap (fun ev => match ev with
                  | Derive p k => if String.eqb p pid then Some k else None
                  | _ => None
                  end) t.

Section statements.

Context {collab : Collaborators}.

Definition secrets (w : world) : gmap string bytes := _shared_secrets (self w).
Definition ledger (w : world) : blockchain.Blockchain := blockchain (self w).

(** The secret that [_get_shared_secret] gives for a peer with an
    encryption key: the cached one, or the one derived now. *)
Definition secret_for (w : world) (peer : Peer) : bytes :=
  match secrets w !! peer_id peer with
  | Some secret => secret
  | None =>
      derive_shared_secret (encryption_private_key (wallet (self w)))
                           (default [] (encryption_key peer))
  end.

(** The world after a secret for [peer] has been derived and cached. *)
Definition with_secret (peer : Peer) (w : world) : world :=
  let e := self w in
  mkWorld (mkEngine (wallet e) (p2p_node e) (blockchain e) (reassembler e)
                    (_message_callbacks e)
                    (<[peer_id peer := secret_for w peer]> (_shared_secrets e)))
          (trace w ++ [Derive (peer_id peer) (default [] (encryption_key peer))]).

(** The world after the secret lookup of a peer with an encryption key. *)
Definition looked_up (peer : Peer) (w : world) : world :=
  match secrets w !! peer_id peer with
  | Some _ => w
  | None => with_secret peer w
  end.

(** Whether [_handle_text_message] calls [decrypt_message]: the message
    has a nonce, the peer an encryption key, and the secret is not empty. *)
Definition decryption_attempted (w : world) (message : MessagePayload)
    (peer : Peer) : bool :=
  opt_bytes_truthy (nonce message) && opt_bytes_truthy (encryption_key peer)
  && list_truthy (secret_for w peer).

(** The content that the decryption step hands on, or the exception that
    [decrypt_message] raises. *)
Definition incoming_content (w : world) (message : MessagePayload)
    (peer : Peer) : result bytes :=
  if decryption_attempted w message peer
  then decrypt_message (content message) (secret_for w peer)
                       (default [] (nonce message))
  else Ok (content message).

(** The world in which the decryption step of [_handle_text_message]
    ends: the secret has been looked up when the message has a nonce and
    the peer an encryption key. *)
Definition after_lookup (message : MessagePayload) (peer : Peer) (w : world)
  : world :=
  if opt_bytes_truthy (nonce message) && opt_bytes_truthy (encryption_key peer)
  then looked_up peer w
  else w.

(** What the notification loop leaves in the trace: each observer is
    invoked, and an error is logged after one that raises. *)
Definition observer_events (callbacks : list MessageCallback)
    (received : ReceivedMessage) : list event :=
  flat_map (fun cb =>
              Invoke cb received ::
              match cb received with
              | Ok _ => []
              | Raise _ => [Log ERROR "Message callback error"]
              end) callbacks.

(** The acknowledgment of a message. *)
Definition ack_of (e : TransmissionEngine) (message : MessagePayload)
  : MessagePayload :=
  create_ack_message (address (wallet e)) (sender message) (id message)
                     (sign (wallet e)).

(** The engine with one more pending ledger entry. *)
Definition with_entry (entry : json) (e : TransmissionEngine)
  : TransmissionEngine :=
  mkEngine (wallet e) (p2p_node e) (blockchain.add_data entry (blockchain e))
           (reassembler e) (_message_callbacks e) (_shared_secrets e).

(** The message that [send_text] builds and signs, from the content and
    nonce that the encryption step hands on. *)
Definition text_message (amb : ambient) (e : TransmissionEngine)
    (recipient_id : string) (content : bytes) (nonce : option bytes)
  : MessagePayload :=
  let message :=
    MessagePayload_create amb TEXT (address (wallet e)) recipient_id content
      [] nonce [("name", JStr (name (wallet e)))] in
  set_signature (sign (wallet e) (get_signable_content message)) message.

(** A message that passes step 1 of [_handle_incoming]. *)
Definition verified (message : MessagePayload) (peer : Peer) : bool :=
  opt_bytes_truthy (public_key peer)
  && verify_signature (get_signable_content message) (signature message)
                      (default [] (public_key peer)).

(** The [ReceivedMessage] built for a verified message with text [text]. *)
Definition received_of (message : MessagePayload) (text : string)
  : ReceivedMessage :=
  mkReceivedMessage (id message) (sender message)
                    (pyjson.assoc "name" (metadata message)) text
                    (timestamp message) true.

(** The calls that an engine receives during its life, and a change of
    the peer directory around it. *)
Inductive call :=
| call_on_message (callback : MessageCallback)
| call_get_shared_secret (peer : Peer)
| call_send_text (amb : ambient) (recipient_id text : string) (encrypt : bool)
| call_broadcast_text (amb : ambient) (text : string)
| call_handle_incoming (message : MessagePayload) (peer : Peer)
| call_mine_pending (fuel : nat) (now : pyfloat)
| directory_changes (node : P2PNode).

Definition after {A} (r : result A * world) : world := snd r.

(** The world after a call; [None] when mining outlasts its fuel. *)
Definition step (c : call) (w : world) : option world :=
  match c with
  | call_on_message cb => Some (after (on_message cb w))
  | call_get_shared_secret peer => Some (after (_get_shared_secret peer w))
  | call_send_text amb r t enc => Some (after (send_text amb r t enc w))
  | call_broadcast_text amb t => Some (after (broadcast_text amb t w))
  | call_handle_incoming m p => Some (after (_handle_incoming m p w))
  | call_mine_pending fuel now => after <$> mine_pending fuel now w
  | directory_changes node =>
      let e := self w in
      Some (mkWorld (mkEngine (wallet e) node (blockchain e) (reassembler e)
                              (_message_callbacks e) (_shared_secrets e))
                    (trace w))
  end.

Fixpoint run (cs : list call) (w : world) : option world :=
  match cs with
  | [] => Some w
  | c :: cs' => w' ← step c w; run cs' w'
  end.

(** 1 when a secret is cached for [pid], else 0. *)
Definition cached (w : world) (pid : string) : nat :=
  match secrets w !! pid with Some _ => 1 | None => 0 end.

(** Secrets stay and, for every peer, each new derivation comes with a
    new entry of the cache. *)
Definition keeps_secrets (w w' : world) : Prop :=
  (forall pid secret,
      secrets w !! pid = Some secret -> secrets w' !! pid = Some secret)
  /\ (forall pid,
        (length (derived pid (trace w')) + cached w pid
         = length (derived pid (trace w)) + cached w' pid)%nat).

(** Computations whose every run keeps the secrets. *)
Definition keeps {A} (m : M A) : Prop :=
  forall w, keeps_secrets w (after (m w)).

End statements.

(** Toy collaborators, for the examples: a signature is the signed bytes
    followed by the key, the shared secret is the two keys joined, and a
    ciphertext is the plaintext reversed behind its secret. *)
Module toy.

Definition verify (msg sig key : bytes) : bool :=
  bool_decide (sig = msg ++ key).
Definition derive (priv pub : bytes) : bytes := priv ++ pub.
Definition encrypt (entropy plaintext secret : bytes) : bytes * bytes :=
  (entropy, secret ++ rev plaintext).
Definition decrypt (ciphertext secret nonce : bytes) : result bytes :=
  if bool_decide (take (length secret) ciphertext = secret)
  then Ok (rev (drop (length secret) ciphertext))
  else Raise (Exception "authentication failed").
Definition signable (m : MessagePayload) : bytes :=
  str_encode (id m) ++ content m.
Definition ack (sender recipient original_id : string)
    (sign : bytes -> bytes) : MessagePayload :=
  mkMessagePayload (String.append "ack-" original_id) ACK sender recipient
                   (PyFloat "1700000010.0") (str_encode original_id) None
                   (sign (str_encode original_id)) [] None.

#[local] Instance collab : Collaborators := {|
  verify_signature := verify;
  derive_shared_secret := derive;
  encrypt_message := encrypt;
  decrypt_message := decrypt;
  get_signable_content := signable;
  create_ack_message := ack;
  ChunkReassembler := unit;
  add_chunk := fun _ r => (None, r)
|}.

Definition alice_key : bytes := str_encode "alice-signing-key".
Definition alice_enc : bytes := str_encode "alice-encryption-key".
Definition bob_priv : bytes := str_encode "bob-private-key".

Definition alice : Peer :=
  mkPeer "alice" (Some alice_key) (Some alice_enc) "10.0.0.1" 8766.
(** A peer whose signing key is not known. *)
Definition stranger : Peer := mkPeer "mallory" None None "10.0.0.9" 8766.

Definition bob_wallet : Wallet :=
  mkWallet "bob" "Bob" bob_priv (fun m => m ++ str_encode "bob-signing-key").

Definition node : P2PNode :=
  mkP2PNode (fun pid => if String.eqb pid "alice" then Some alice else None)
            (fun _ _ => false) (fun _ => 0).

(** Two observers: the first raises, the second returns. *)
Definition failing_observer : MessageCallback :=
  fun _ => Raise (Exception "observer failed").
Definition quiet_observer : MessageCallback := fun _ => Ok tt.

(** Bob's engine as constructed on the ledger [demo.ledger0], and after
    the two observers have been registered. *)
Definition fresh : TransmissionEngine :=
  mkEngine bob_wallet node demo.ledger0 tt [] ∅.

Definition bob : TransmissionEngine :=
  mkEngine bob_wallet node demo.ledger0 tt
           [failing_observer; quiet_observer] ∅.

Definition w0 : world := mkWorld bob [].

Definition amb : ambient :=
  mkAmbient "m2" (PyFloat "1700000020.5") (str_encode "nonce-1").

Definition secret : bytes := derive bob_priv alice_enc.

(** Messages from alice to bob. *)
Definition signed (m : MessagePayload) : MessagePayload :=
  set_signature (signable m ++ alice_key) m.

Definition hi_encrypted : MessagePayload :=
  signed (mkMessagePayload "m1" TEXT "alice" "bob" (PyFloat "1700000001.25")
            (secret ++ rev (str_encode "hi")) (Some (str_encode "n1"))
            [] [("name", JStr "Alice")] None).

Definition hi_clear : MessagePayload :=
  signed (mkMessagePayload "m1" TEXT "alice" "bob" (PyFloat "1700000001.25")
            (str_encode "hi") None [] [("name", JStr "Alice")] None).

(** Encrypted under another secret. *)
Definition garbled : MessagePayload :=
  signed (mkMessagePayload "m3" TEXT "alice" "bob" (PyFloat "1700000001.25")
            (str_encode "not for bob") (Some (str_encode "n2"))
            [] [] None).

(** Not UTF-8. *)
Definition undecodable : MessagePayload :=
  signed (mkMessagePayload "m4" TEXT "alice" "bob" (PyFloat "1700000001.25")
            [xff; xfe] None [] [] None).

Definition forged_message : MessagePayload :=
  set_signature (str_encode "forged") hi_clear.

(** Alice under the same id, advertising another encryption key. *)
Definition alice_rekeyed : Peer :=
  mkPeer "alice" (Some alice_key) (Some (str_encode "another-key"))
         "10.0.0.1" 8766.

(** A stretch of the engine's life after the first lookup of the secret. *)
Definition calls : list call :=
  [ call_handle_incoming hi_encrypted alice;
    call_send_text amb "alice" "yo" true;
    directory_changes
      (mkP2PNode (fun _ => Some alice_rekeyed) (fun _ _ => true) (fun _ => 1));
    call_handle_incoming hi_encrypted alice_rekeyed;
    call_mine_pending 1 (PyFloat "1700000032.75");
    call_get_shared_secret alice_rekeyed ].

Definition w1 : world := snd (_get_shared_secret alice w0).
Definition w2 : world := default w1 (run calls w1).

End toy.

End engine_model.

(** ** The ledger: further definitions for the statements *)

Module ledger_more.
Import blockchain ledger_model.

(** A block that carries the hash of its contents and meets the target. *)
Definition sealed (d : Z) (b : Block) : Prop :=
  hash b = calculate_hash b /\ startswith (hash b) (target d) = true.

(** A ledger and what followed from it by [add_data] and [mine_pending]. *)
Inductive evolves : Blockchain -> Blockchain -> Prop :=
| evolves_refl self : evolves self self
| evolves_add_data self self' p :
    evolves self self' -> evolves self (add_data p self')
| evolves_mine_pending self self' fuel now r self'' :
    evolves self self' ->
    mine_pending fuel now self' = Some (r, self'') ->
    evolves self self''.

(** A ledger built by the code, with the payloads mined so far, in the
    order in which they were added. *)
Inductive built : Blockchain -> list json -> Prop :=
| built_init fuel now d self :
    __init__ fuel now d = Some self -> built self []
| built_add_data self mined p :
    built self mined -> built (add_data p self) mined
| built_mine_pending self mined fuel now r self' :
    built self mined ->
    mine_pending fuel now self = Some (r, self') ->
    built self' (mined ++ pending_data self).

(** The ledger cut back to its first [n] blocks. *)
Definition truncate (n : nat) (self : Blockchain) : Blockchain :=
  mkBlockchain (take n (chain self)) (pending_data self) (difficulty self).

(** The first block rewritten by [f]. *)
Definition rewrite_genesis (f : Block -> Block) (self : Blockchain)
  : Blockchain :=
  mkBlockchain (alter f 0%nat (chain self)) (pending_data self)
               (difficulty self).

Definition hex_digit_char (c : ascii) : bool :=
  let n := N_of_ascii c in
  ((48 <=? n) && (n <=? 57) || (97 <=? n) && (n <=? 102))%N.

(** A hex digest of SHA-256: 64 characters among [0-9a-f]. *)
Definition hex_digest (s : string) : Prop :=
  String.length s = 64%nat
  /\ forallb hex_digit_char (list_ascii_of_string s) = true.

End ledger_more.


(** ** The engine: further definitions for the statements *)

Module engine_more.
Import collaborators engine engine_model.

(** A string that stands for a Python [str]: its bytes are the UTF-8
    encoding of a sequence of code points. *)
Definition is_str (s : string) : bool :=
  match utf8.code_points (map Z_of_byte (str_encode s)) with
  | Some _ => true
  | None => false
  end.

(** The keys of the ledger entries that the engine writes. *)
Definition metadata_keys : list string :=
  ["type"; "id"; "sender"; "recipient"; "timestamp"].

(** An entry that holds nothing but these keys. *)
Definition metadata_only (entry : json) : bool :=
  match entry with
  | JDict d =>
      forallb (fun kv => existsb (String.eqb (fst kv)) metadata_keys) d
  | _ => false
  end.

(** A ledger and what followed from it by adding the entries [entries],
    in this order, with calls of [mine_pending] in between. *)
Inductive ledger_steps
  : list json -> blockchain.Blockchain -> blockchain.Blockchain -> Prop :=
| ledger_steps_refl bc : ledger_steps [] bc bc
| ledger_steps_add entries bc bc' entry :
    ledger_steps entries bc bc' ->
    ledger_steps (entries ++ [entry]) bc (blockchain.add_data entry bc')
| ledger_steps_mine entries bc bc' fuel now r bc'' :
    ledger_steps entries bc bc' ->
    blockchain.mine_pending fuel now bc' = Some (r, bc'') ->
    ledger_steps entries bc bc''.

Section statements.

Context {collab : Collaborators}.

(** What a stretch of the engine's life does to it: the wallet stays, the
    observers and the trace are extended, and the ledger changes by the
    entries that the trace shows, each of them metadata only. *)
Definition grows (w w' : world) : Prop :=
  wallet (self w') = wallet (self w)
  /\ _message_callbacks (self w) `prefix_of` _message_callbacks (self w')
  /\ exists t,
       trace w' = trace w ++ t
       /\ ledger_steps (ledger_added t) (ledger w) (ledger w')
       /\ forallb metadata_only (ledger_added t) = true.

(** Computations whose every run does no more than that. *)
Definition tame {A} (m : M A) : Prop :=
  forall w, grows w (after (m w)).

(** The message that [broadcast_text] builds and signs. *)
Definition broadcast_message (amb : ambient) (e : TransmissionEngine)
    (text : string) : MessagePayload :=
  text_message amb e "*" (str_encode text) None.

(** What the encryption step of [send_text] hands on for a peer: the
    nonce and the content. *)
Definition outgoing (amb : ambient) (w : world) (peer : Peer)
    (text : string) (encrypt : bool) : option bytes * bytes :=
  if encrypt && opt_bytes_truthy (encryption_key peer)
     && list_truthy (secret_for w peer)
  then
    let '(n, c) := encrypt_message (entropy amb) (str_encode text)
                     (secret_for w peer) in
    (Some n, c)
  else (None, str_encode text).

(** The [ReceivedMessage] that the receiver of a text of this engine
    builds. *)
Definition received_from (amb : ambient) (e : TransmissionEngine)
    (text : string) : ReceivedMessage :=
  mkReceivedMessage (fresh_id amb) (address (wallet e))
                    (Some (JStr (name (wallet e)))) text (now amb) true.

End statements.

(** Toy engines on both ends of a conversation. The toy derivation joins
    the two keys, so the two sides agree when their keys are cut from the
    same bytes at different places. *)
Module toy_pair.
Import toy.

#[local] Existing Instance toy.collab.

Definition alice_priv : bytes := str_encode "bob-private-keyalice-".
Definition bob_enc : bytes := str_encode "encryption-key".

Definition alice_wallet : Wallet :=
  mkWallet "alice" "Alice" alice_priv (fun m => m ++ alice_key).

(** Bob as Alice's peer directory knows him. *)
Definition bob_peer : Peer :=
  mkPeer "bob" (Some (str_encode "bob-signing-key")) (Some bob_enc)
         "10.0.0.2" 8766.

(** The same without an encryption key. *)
Definition bob_keyless : Peer :=
  mkPeer "bob" (Some (str_encode "bob-signing-key")) None "10.0.0.2" 8766.

Definition alice_node : P2PNode :=
  mkP2PNode (fun pid => if String.eqb pid "bob" then Some bob_peer else None)
            (fun _ _ => true) (fun _ => 1).

Definition alice_engine : TransmissionEngine :=
  mkEngine alice_wallet alice_node demo.ledger0 tt [] ∅.

Definition wa : world := mkWorld alice_engine [].

Definition ack_from_alice : MessagePayload :=
  signed (mkMessagePayload "ack-m0" ACK "alice" "bob" (PyFloat "1700000002.5")
            (str_encode "m0") (Some (str_encode "n3")) [] [] None).

Definition chunk_from_alice : MessagePayload :=
  signed (mkMessagePayload "s1" STREAM_CHUNK "alice" "bob"
            (PyFloat "1700000003.5") (str_encode "abc")
            (Some (str_encode "n4")) [] []
            (Some (mkChunkInfo "stream-1" 0 2))).

(** A stretch of Bob's life: one more observer, a text from Alice, a
    reply and a broadcast. *)
Definition chat : list call :=
  [ call_on_message quiet_observer;
    call_handle_incoming hi_clear alice;
    call_send_text amb "alice" "yo" true;
    call_broadcast_text amb "hello" ].

Definition w_chat : world := default w0 (run chat w0).

(** Bob's engine with one entry pending. *)
Definition w_pending : world :=
  mkWorld (mkEngine bob_wallet node
                    (blockchain.add_data demo.entry demo.ledger0) tt [] ∅) [].

(** And after mining it. *)
Definition w_mined : world :=
  mkWorld (mkEngine bob_wallet node demo.ledger1 tt [] ∅)
          [Log INFO "Mined block"].

End toy_pair.

End engine_more.

(** ** The command-line client: values for the examples *)

Module cli_model.
Import cli.

(** An [int] that knows one port. *)
Definition toy_int (s : string) : result Z :=
  if String.eqb s "8765" then Ok 8765 else Raise (Exception "ValueError").

Definition toy_config : ClientConfig :=
  mkClientConfig "~/.bmp" 8766 "localhost" 8765.

(** Three peers as the registry lists them. *)
Definition toy_peers : list json :=
  [ JDict [("peer_id", JStr "ab12"); ("name", JStr "Ann")];
    JDict [("peer_id", JStr "cd34"); ("name", JStr "Cid")];
    JDict [("peer_id", JStr "cd56"); ("name", JStr "Cyd")] ].

End cli_model.
(** * The ledger: properties *)

Module ledger_facts.
Import blockchain ledger_model.

(** The hash of a block is kept symbolic in the general proofs. *)
#[local] Opaque hashlib.sha256_hexdigest pyjson.dumps.

(** *** Blocks *)

Lemma calculate_hash_set_hash (h : string) (b : Block) :
  calculate_hash (set_hash h b) = calculate_hash b.
Proof. reflexivity. Qed.

Lemma Block_new_hash i t d p n :
  hash (Block_new i t d p n) = calculate_hash (Block_new i t d p n).
Proof. reflexivity. Qed.

Lemma Block_new_fields i t d p n :
  Block_new i t d p n
  = mkBlock i t d p n (calculate_hash (mkBlock i t d p n EmptyString)).
Proof. reflexivity. Qed.

Lemma mine_unfold fuel b d :
  mine fuel b d =
  if startswith (hash b) (target d) then Some b
  else match fuel with
       | O => None
       | S fuel' => mine fuel' (bump b) d
       end.
Proof. destruct fuel; reflexivity. Qed.

(** What [mine] keeps and what it establishes, when it returns. *)
Lemma mine_returns fuel : forall b d b',
  mine fuel b d = Some b' ->
  index b' = index b /\ timestamp b' = timestamp b /\ data b' = data b
  /\ previous_hash b' = previous_hash b
  /\ startswith (hash b') (target d) = true
  /\ (hash b = calculate_hash b -> hash b' = calculate_hash b').
Proof.
  induction fuel as [|fuel IH]; intros b d b'; rewrite mine_unfold;
    destruct (startswith (hash b) (target d)) eqn:E; intros H;
    try discriminate.
  - injection H as <-. tauto.
  - injection H as <-. tauto.
  - apply IH in H. destruct H as (Hi & Ht & Hd & Hp & Hpow & Hh).
    repeat split; try assumption. intros _. apply Hh. reflexivity.
Qed.

(** The search returns as soon as the fuel reaches a nonce that meets the
    target, and returns the same block for every larger fuel. *)
Lemma mine_enough_fuel k : forall b d,
  startswith (hash (bumps k b)) (target d) = true ->
  exists b', forall fuel, (k <= fuel)%nat -> mine fuel b d = Some b'.
Proof.
  induction k as [|k IH]; intros b d Hk.
  - exists b. intros fuel _. rewrite mine_unfold. simpl in Hk. now rewrite Hk.
  - destruct (startswith (hash b) (target d)) eqn:E.
    + exists b. intros fuel _. rewrite mine_unfold. now rewrite E.
    + destruct (IH (bump b) d Hk) as [b' Hb'].
      exists b'. intros [|fuel] Hf; [lia|].
      rewrite mine_unfold, E. apply Hb'. lia.
Qed.

(** *** Merkle root *)

Lemma next_level_length : forall hashes,
  length (next_level hashes) = Nat.div2 (length hashes).
Proof.
  fix IH 1. intros [|a [|b rest]]; [reflexivity | reflexivity |].
  simpl. now rewrite IH.
Qed.

Lemma duplicate_last_length hashes :
  length (duplicate_last hashes)
  = if Nat.odd (length hashes) then S (length hashes) else length hashes.
Proof.
  unfold duplicate_last. destruct (Nat.odd (length hashes)) eqn:E; [|reflexivity].
  destruct (last hashes) eqn:L.
  - rewrite length_app. simpl. lia.
  - apply last_None in L. subst. discriminate.
Qed.

Lemma level_shrinks hashes :
  (1 < length hashes)%nat ->
  (0 < length (next_level (duplicate_last hashes)) < length hashes)%nat.
Proof.
  intros H. rewrite next_level_length, duplicate_last_length.
  destruct (Nat.odd (length hashes)) eqn:E.
  - pose proof (Nat.div2_odd (S (length hashes))) as D.
    rewrite Nat.odd_succ, <- Nat.negb_odd, E in D.
    change (Nat.b2n (negb true)) with 0%nat in D. lia.
  - pose proof (Nat.div2_odd (length hashes)) as D.
    rewrite E in D. change (Nat.b2n false) with 0%nat in D. lia.
Qed.

(** [length hashes] rounds of the [while] loop reach a single hash, and
    further rounds change nothing: the fuel does not cut the loop short. *)
Lemma merkle_loop_single fuel : forall hashes,
  (0 < length hashes <= fuel)%nat ->
  length (merkle_loop fuel hashes) = 1%nat.
Proof.
  induction fuel as [|fuel IH]; intros hashes H; [lia|].
  simpl. destruct (1 <? length hashes)%nat eqn:E.
  - apply Nat.ltb_lt in E. pose proof (level_shrinks hashes E).
    apply IH. lia.
  - apply Nat.ltb_ge in E. lia.
Qed.

Lemma merkle_loop_fuel fuel : forall hashes fuel',
  (length hashes <= fuel)%nat -> (length hashes <= fuel')%nat ->
  merkle_loop fuel hashes = merkle_loop fuel' hashes.
Proof.
  induction fuel as [|fuel IH]; intros hashes fuel' H H'.
  - destruct hashes; [|simpl in H; lia]. now destruct fuel'.
  - destruct fuel' as [|fuel'].
    + destruct hashes; [reflexivity | simpl in H'; lia].
    + simpl. destruct (1 <? length hashes)%nat eqn:E; [|reflexivity].
      apply Nat.ltb_lt in E. pose proof (level_shrinks hashes E).
      apply IH; lia.
Qed.

(** On a non-empty list the loop ends with the one hash that is returned:
    the default of the final [hashes[0]] is never taken. *)
Lemma merkle_root_nonempty (data_list : list bytes) :
  data_list <> [] ->
  merkle_loop (length data_list) (map hashlib.sha256_hexdigest data_list)
  = [calculate_merkle_root data_list].
Proof.
  intros Hne. unfold calculate_merkle_root.
  destruct data_list as [|x l]; [contradiction|]. cbn [list_truthy negb].
  rewrite length_map.
  pose proof (merkle_loop_single (length (x :: l))
                (map hashlib.sha256_hexdigest (x :: l))) as H.
  rewrite length_map in H.
  assert (0 < length (x :: l) <= length (x :: l))%nat as Hlen
    by (simpl; lia).
  specialize (H Hlen).
  destruct (merkle_loop _ _) as [|h [|h' t]]; simpl in H; try lia.
  reflexivity.
Qed.

(** The pairing and the duplication of the last hash of an odd level, on
    two and on three leaves. *)
Lemma merkle_root_two_three (x y z : bytes) :
  let h := hashlib.sha256_hexdigest in
  calculate_merkle_root [x; y] = sha256_str (String.append (h x) (h y))
  /\ calculate_merkle_root [x; y; z]
     = sha256_str (String.append
                     (sha256_str (String.append (h x) (h y)))
                     (sha256_str (String.append (h z) (h z)))).
Proof. split; reflexivity. Qed.

(** *** Validation *)

Lemma loop_subscripts_in_range (self : Blockchain) (i : nat) :
  In i (seq 1 (length (chain self) - 1)) ->
  is_Some (chain self !! i) /\ is_Some (chain self !! (i - 1)%nat).
Proof.
  intros H. apply in_seq in H.
  split; apply lookup_lt_is_Some; lia.
Qed.

Lemma check_block_true self current previous :
  check_block self current previous = true <->
  hash current = calculate_hash current
  /\ previous_hash current = hash previous
  /\ startswith (hash current) (target (difficulty self)) = true.
Proof.
  unfold check_block.
  destruct (String.eqb_spec (hash current) (calculate_hash current));
    destruct (String.eqb_spec (previous_hash current) (hash previous));
    destruct (startswith (hash current) (target (difficulty self)));
    simpl; intuition congruence.
Qed.

Lemma is_chain_valid_loop_true self range :
  is_chain_valid_loop self range = true <->
  forall i, In i range -> checked_at self i.
Proof.
  induction range as [|i range IH]; simpl.
  - split; [intros _ i [] | reflexivity].
  - destruct (chain self !! i) as [current|] eqn:Ec;
      [destruct (chain self !! (i - 1)%nat) as [previous|] eqn:Ep;
       [destruct (check_block self current previous) eqn:Ek|]|].
    + rewrite IH. split.
      * intros H j [<-|Hj]; [exists current, previous; auto | auto].
      * intros H j Hj. apply H. now right.
    + split; [discriminate|]. intros H.
      destruct (H i (or_introl eq_refl)) as (c & p & Hc & Hp & Hk). congruence.
    + split; [discriminate|]. intros H.
      destruct (H i (or_introl eq_refl)) as (c & p & Hc & Hp & Hk). congruence.
    + split; [discriminate|]. intros H.
      destruct (H i (or_introl eq_refl)) as (c & p & Hc & Hp & Hk). congruence.
Qed.

(** Validation succeeds exactly when every block after the first passes
    the three checks against its predecessor. *)
Lemma is_chain_valid_true self :
  is_chain_valid self = true <->
  forall i current previous,
    (1 <= i)%nat ->
    chain self !! i = Some current ->
    chain self !! (i - 1)%nat = Some previous ->
    hash current = calculate_hash current
    /\ previous_hash current = hash previous
    /\ startswith (hash current) (target (difficulty self)) = true.
Proof.
  unfold is_chain_valid. rewrite is_chain_valid_loop_true. split.
  - intros H i current previous Hi Hc Hp.
    assert (In i (seq 1 (length (chain self) - 1))) as Hin.
    { apply in_seq. apply lookup_lt_Some in Hc. lia. }
    destruct (H i Hin) as (c & p & Hc' & Hp' & Hk).
    apply check_block_true. congruence.
  - intros H i Hin.
    destruct (loop_subscripts_in_range self i Hin) as [[c Hc] [p Hp]].
    exists c, p. repeat split; try assumption.
    apply check_block_true. apply in_seq in Hin. apply (H i); auto. lia.
Qed.

Lemma is_chain_valid_false self i current previous :
  (1 <= i)%nat ->
  chain self !! i = Some current ->
  chain self !! (i - 1)%nat = Some previous ->
  check_block self current previous = false ->
  is_chain_valid self = false.
Proof.
  intros Hi Hc Hp Hk. destruct (is_chain_valid self) eqn:E; [|reflexivity].
  rewrite is_chain_valid_true in E. specialize (E i current previous Hi Hc Hp).
  apply check_block_true in E. congruence.
Qed.

(** Tampering with a block after the first is caught where the stored hash
    no longer matches the contents, or the link no longer matches the
    predecessor. *)
Lemma tampered_data_detected self i b v :
  (1 <= i)%nat ->
  chain self !! i = Some b ->
  calculate_hash (set_data v b) <> hash b ->
  is_chain_valid (tamper_data i v self) = false.
Proof.
  intros Hi Hb Hne.
  assert (is_Some (chain self !! (i - 1)%nat)) as [previous Hp].
  { apply lookup_lt_is_Some. apply lookup_lt_Some in Hb. lia. }
  apply (is_chain_valid_false _ i (set_data v b) previous Hi).
  - simpl. now rewrite list_lookup_alter_eq, Hb.
  - simpl. rewrite list_lookup_alter_ne by lia. exact Hp.
  - unfold check_block.
    destruct (String.eqb_spec (hash (set_data v b))
                              (calculate_hash (set_data v b))) as [E|E];
      [|reflexivity].
    exfalso. apply Hne. now rewrite <- E.
Qed.

Lemma tampered_link_detected self i b previous v :
  (1 <= i)%nat ->
  chain self !! i = Some b ->
  chain self !! (i - 1)%nat = Some previous ->
  v <> hash previous ->
  is_chain_valid (tamper_previous_hash i v self) = false.
Proof.
  intros Hi Hb Hp Hne.
  apply (is_chain_valid_false _ i (set_previous_hash v b) previous Hi).
  - simpl. now rewrite list_lookup_alter_eq, Hb.
  - simpl. rewrite list_lookup_alter_ne by lia. exact Hp.
  - unfold check_block.
    destruct (negb (String.eqb (hash (set_previous_hash v b)) _));
      [reflexivity|].
    destruct (String.eqb_spec (previous_hash (set_previous_hash v b))
                              (hash previous)) as [E|E];
      [|reflexivity].
    exfalso. apply Hne. exact E.
Qed.

(** *** Pending payloads *)

Lemma add_all_fields payloads : forall self,
  chain (add_all payloads self) = chain self
  /\ pending_data (add_all payloads self) = pending_data self ++ payloads
  /\ difficulty (add_all payloads self) = difficulty self.
Proof.
  induction payloads as [|p payloads IH]; intros self; simpl.
  - now rewrite app_nil_r.
  - destruct (IH (add_data p self)) as (Hc & Hp & Hd).
    unfold add_all in *. rewrite Hc, Hp, Hd. simpl.
    now rewrite <- app_assoc.
Qed.

(** *** Persistence *)

Lemma Block_round_trip (b : Block) :
  Block_from_dict (Block_to_dict b) = Ok b.
Proof. destruct b. reflexivity. Qed.

Lemma blocks_round_trip (l : list Block) :
  from_dict_blocks (map Block_to_dict l) = Ok l.
Proof.
  induction l as [|b l IH]; [reflexivity|].
  cbn [map from_dict_blocks]. rewrite Block_round_trip, IH. reflexivity.
Qed.

(** *** Indices *)

Lemma indexed_snoc l b :
  indexed l -> index b = Z.of_nat (length l) -> indexed (l ++ [b]).
Proof.
  intros Hl Hb i b' H. apply lookup_app_Some in H.
  destruct H as [H | [Hi H]]; [now apply Hl|].
  destruct (i - length l)%nat as [|n] eqn:E; simpl in H; [|discriminate].
  injection H as <-. rewrite Hb. f_equal. lia.
Qed.

Lemma reachable_indexed self : reachable self -> indexed (chain self).
Proof.
  induction 1 as [fuel now d self Hinit | self p _ IH
                 | self fuel now r self' _ IH Hmine].
  - unfold __init__, _create_genesis_block in Hinit. simpl in Hinit.
    destruct (mine fuel _ d) as [g|] eqn:Hg; [|discriminate].
    injection Hinit as <-. simpl.
    apply mine_returns in Hg. destruct Hg as (Hi & _).
    intros [|i] b H; simpl in H; [|discriminate].
    injection H as <-. exact Hi.
  - exact IH.
  - unfold mine_pending in Hmine.
    destruct (negb (list_truthy (pending_data self))).
    { injection Hmine as _ <-. exact IH. }
    destruct (latest_block self) as [latest|e].
    2:{ injection Hmine as _ <-. exact IH. }
    simpl in Hmine.
    destruct (mine fuel _ (difficulty self)) as [nb|] eqn:Hnb; [|discriminate].
    injection Hmine as _ <-. simpl.
    apply mine_returns in Hnb. destruct Hnb as (Hi & _).
    apply indexed_snoc; [exact IH | exact Hi].
Qed.

(** *** Ledgers built by the code validate *)

Lemma is_chain_valid_snoc self latest b pending :
  is_chain_valid self = true ->
  last (chain self) = Some latest ->
  check_block self b latest = true ->
  is_chain_valid (mkBlockchain (chain self ++ [b]) pending (difficulty self))
  = true.
Proof.
  intros Hvalid Hlast Hb. rewrite is_chain_valid_true in *. simpl.
  intros i current previous Hi Hc Hp.
  rewrite last_lookup in Hlast.
  apply lookup_app_Some in Hc. destruct Hc as [Hc | [Hlen Hc]].
  - apply (Hvalid i current previous Hi Hc).
    rewrite lookup_app_l in Hp; [exact Hp|].
    apply lookup_lt_Some in Hc. lia.
  - destruct (i - length (chain self))%nat as [|n] eqn:E; simpl in Hc;
      [|discriminate].
    injection Hc as <-.
    assert (i = length (chain self)) as -> by lia.
    rewrite lookup_app_l in Hp by lia.
    replace (length (chain self) - 1)%nat with (pred (length (chain self)))
      in Hp by lia.
    rewrite Hlast in Hp. injection Hp as <-.
    apply check_block_true in Hb. exact Hb.
Qed.

Lemma reachable_nonempty self : reachable self -> chain self <> [].
Proof.
  induction 1 as [fuel now d self Hinit | self p _ IH
                 | self fuel now r self' _ IH Hmine].
  - unfold __init__, _create_genesis_block in Hinit. simpl in Hinit.
    destruct (mine fuel _ d); [|discriminate]. now injection Hinit as <-.
  - exact IH.
  - unfold mine_pending in Hmine.
    destruct (negb (list_truthy (pending_data self))).
    { now injection Hmine as _ <-. }
    destruct (latest_block self) as [latest|e].
    2:{ now injection Hmine as _ <-. }
    simpl in Hmine.
    destruct (mine fuel _ (difficulty self)); [|discriminate].
    injection Hmine as _ <-. simpl. now destruct (chain self).
Qed.

Lemma reachable_valid self : reachable self -> is_chain_valid self = true.
Proof.
  induction 1 as [fuel now d self Hinit | self p _ IH
                 | self fuel now r self' _ IH Hmine].
  - unfold __init__, _create_genesis_block in Hinit. simpl in Hinit.
    destruct (mine fuel _ d); [|discriminate]. now injection Hinit as <-.
  - rewrite is_chain_valid_true in *. exact IH.
  - unfold mine_pending in Hmine.
    destruct (negb (list_truthy (pending_data self))).
    { now injection Hmine as _ <-. }
    unfold latest_block in Hmine.
    destruct (last (chain self)) as [latest|] eqn:Hlast.
    2:{ now injection Hmine as _ <-. }
    simpl in Hmine.
    destruct (mine fuel _ (difficulty self)) as [b|] eqn:Hb; [|discriminate].
    injection Hmine as _ <-.
    apply mine_returns in Hb. destruct Hb as (_ & _ & _ & Hph & Hpow & Hh).
    apply (is_chain_valid_snoc self latest b []); [exact IH | exact Hlast|].
    apply check_block_true. repeat split; [now apply Hh | exact Hph | exact Hpow].
Qed.

(** *** The demonstration ledger is what the code builds *)

#[local] Transparent hashlib.sha256_hexdigest pyjson.dumps.

Lemma demo_ledger0_constructed :
  __init__ 1 demo.t0 1 = Some demo.ledger0.
Proof. vm_compute. reflexivity. Qed.

Lemma demo_ledger1_mined :
  mine_pending 1 demo.t1 (add_data demo.entry demo.ledger0)
  = Some (Ok (Some demo.block1), demo.ledger1).
Proof. vm_compute. reflexivity. Qed.

Lemma demo_ledger1_valid : is_chain_valid demo.ledger1 = true.
Proof. vm_compute. reflexivity. Qed.

#[local] Opaque hashlib.sha256_hexdigest pyjson.dumps.

End ledger_facts.

(** * The ledger: the specification's statements *)

Module ledger_claims.
Import blockchain ledger_model ledger_facts.

#[local] Opaque hashlib.sha256_hexdigest pyjson.dumps.

(** C1, as the specification words it, fails on the genesis block: the
    two-block ledger [demo.ledger1] is what the code builds and passes
    validation, and it still passes after the data, or the previous hash,
    of its block 0 has been overwritten. *)
Lemma tampered_genesis_still_validates :
  is_chain_valid demo.ledger1 = true
  /\ chain demo.ledger1 !! 0%nat = Some demo.genesis
  /\ demo.forged <> data demo.genesis
  /\ is_chain_valid (tamper_data 0 demo.forged demo.ledger1) = true
  /\ "ffff" <> previous_hash demo.genesis
  /\ is_chain_valid (tamper_previous_hash 0 "ffff" demo.ledger1) = true.
Proof.
  split; [exact demo_ledger1_valid|].
  split; [reflexivity|].
  split; [discriminate|].
  split; [vm_compute; reflexivity|].
  split; [discriminate|].
  vm_compute; reflexivity.
Qed.

(** C1 (amended). [is_chain_valid] checks the blocks at positions 1 and
    up, never the genesis block: it returns true exactly when each of
    them carries the hash of its own contents, names the stored hash of
    its predecessor, and meets the proof-of-work target; one failure at
    any of these positions makes it return false. Hence, in a chain that
    validates, for every block at a position [i >= 1]: overwriting its
    previous hash with another value makes validation return false, and
    so does overwriting its data, unless the new contents have the very
    hash of the old ones. *)
Theorem validation_checks_every_later_block (self : Blockchain) :
  (is_chain_valid self = true <->
   forall i current previous,
     (1 <= i)%nat ->
     chain self !! i = Some current ->
     chain self !! (i - 1)%nat = Some previous ->
     hash current = calculate_hash current
     /\ previous_hash current = hash previous
     /\ startswith (hash current) (target (difficulty self)) = true)
  /\ (forall i b v,
        is_chain_valid self = true ->
        (1 <= i)%nat ->
        chain self !! i = Some b ->
        calculate_hash (set_data v b) <> calculate_hash b ->
        is_chain_valid (tamper_data i v self) = false)
  /\ (forall i b v,
        is_chain_valid self = true ->
        (1 <= i)%nat ->
        chain self !! i = Some b ->
        v <> previous_hash b ->
        is_chain_valid (tamper_previous_hash i v self) = false).
Proof.
  split; [apply is_chain_valid_true|]. split.
  - intros i b v Hvalid Hi Hb Hne.
    assert (is_Some (chain self !! (i - 1)%nat)) as [previous Hp].
    { apply lookup_lt_is_Some. apply lookup_lt_Some in Hb. lia. }
    destruct (proj1 (is_chain_valid_true self) Hvalid i b previous Hi Hb Hp)
      as (Hh & _ & _).
    apply (tampered_data_detected self i b v Hi Hb). now rewrite Hh.
  - intros i b v Hvalid Hi Hb Hne.
    assert (is_Some (chain self !! (i - 1)%nat)) as [previous Hp].
    { apply lookup_lt_is_Some. apply lookup_lt_Some in Hb. lia. }
    destruct (proj1 (is_chain_valid_true self) Hvalid i b previous Hi Hb Hp)
      as (_ & Hl & _).
    apply (tampered_link_detected self i b previous v Hi Hb Hp).
    now rewrite <- Hl.
Qed.

#[local] Transparent hashlib.sha256_hexdigest pyjson.dumps.

(** Block 1 of [demo.ledger1], tampered with in either way, is caught. *)
Lemma validation_checks_every_later_block_witness :
  is_chain_valid (tamper_data 1 demo.forged demo.ledger1) = false
  /\ is_chain_valid (tamper_previous_hash 1 "ffff" demo.ledger1) = false.
Proof.
  destruct (validation_checks_every_later_block demo.ledger1)
    as (_ & Hdata & Hlink).
  split.
  - apply (Hdata 1%nat demo.block1 demo.forged);
      [vm_compute; reflexivity | lia | reflexivity | vm_compute; discriminate].
  - apply (Hlink 1%nat demo.block1 "ffff"%string);
      [vm_compute; reflexivity | lia | reflexivity | discriminate].
Defined.

(** C2, as the specification words it, fails for a single leaf: the root
    of [[b"a"]] is the hash of [b"a"], not the hash of that hash paired
    with itself. *)
Lemma merkle_single_leaf_is_not_paired :
  let x := str_encode "a" in
  let h := hashlib.sha256_hexdigest x in
  calculate_merkle_root [x]
  = "ca978112ca1bbdcafac231b39a23dc4da786eff8147c4e72b9807785afee48bb"%string
  /\ calculate_merkle_root [x] <> sha256_str (String.append h h).
Proof.
  split; [vm_compute; reflexivity|].
  intros H. vm_compute in H. discriminate H.
Qed.

(** C2 (amended). The Merkle root of the empty list is the SHA-256 hex
    digest of the empty byte string, [e3b0c442...], and the root of a
    one-element list [[x]] is the hex digest of [x] itself: the loop that
    pairs hashes, and duplicates the last one of an odd level, runs only
    while more than one hash is left. *)
Theorem merkle_root_empty_and_single :
  calculate_merkle_root [] = hashlib.sha256_hexdigest []
  /\ calculate_merkle_root []
     = "e3b0c44298fc1c149afbf4c8996fb92427ae41e4649b934ca495991b7852b855"%string
  /\ forall x : bytes, calculate_merkle_root [x] = hashlib.sha256_hexdigest x.
Proof.
  split; [reflexivity|]. split; [vm_compute; reflexivity|].
  intros x. unfold calculate_merkle_root. simpl. reflexivity.
Qed.

#[local] Opaque hashlib.sha256_hexdigest pyjson.dumps.

(** C3. With nothing pending, [mine_pending] returns [None] and leaves
    the ledger as it was. After [add_data] of one or more payloads to a
    ledger with a non-empty chain, [mine_pending] (given that some number
    [k] of nonce increments meets the target, and fuel for them) returns
    a block that it has appended to the chain, the only change to the
    chain; the block's data is [{"messages": ...}] with everything that
    was pending followed by the payloads in the order added; and nothing
    is pending afterwards. *)
Theorem mine_pending_drains_pending (self : Blockchain) (now : pyfloat) :
  (pending_data self = [] ->
   forall fuel, mine_pending fuel now self = Some (Ok None, self))
  /\ (forall payloads latest k,
        payloads <> [] ->
        last (chain self) = Some latest ->
        let messages := JDict [("messages",
                                JList (pending_data self ++ payloads))] in
        let candidate :=
          Block_new (Z.of_nat (length (chain self))) now messages
                    (hash latest) 0 in
        startswith (hash (bumps k candidate)) (target (difficulty self))
          = true ->
        exists new_block,
          (forall fuel, (k <= fuel)%nat ->
             mine_pending fuel now (add_all payloads self)
             = Some (Ok (Some new_block),
                     mkBlockchain (chain self ++ [new_block]) []
                                  (difficulty self)))
          /\ data new_block = messages
          /\ index new_block = Z.of_nat (length (chain self))
          /\ previous_hash new_block = hash latest
          /\ hash new_block = calculate_hash new_block
          /\ startswith (hash new_block) (target (difficulty self)) = true).
Proof.
  split.
  - intros Hp fuel. unfold mine_pending. rewrite Hp. reflexivity.
  - intros payloads latest k Hne Hlast messages candidate Hk.
    destruct (mine_enough_fuel k candidate (difficulty self) Hk)
      as [new_block Hmine].
    exists new_block.
    destruct (add_all_fields payloads self) as (Hc & Hpd & Hd).
    split.
    + intros fuel Hfuel. unfold mine_pending, latest_block.
      rewrite Hc, Hpd, Hd, Hlast.
      assert (list_truthy (pending_data self ++ payloads) = true) as ->.
      { destruct (pending_data self ++ payloads) eqn:E; [|reflexivity].
        apply app_eq_nil in E. tauto. }
      simpl. fold messages. fold candidate.
      rewrite (Hmine fuel Hfuel). reflexivity.
    + destruct (mine_returns k candidate (difficulty self) new_block
                  (Hmine k (Nat.le_refl k))) as (Hi & _ & Hdt & Hph & Hpow & Hh).
      repeat split; try assumption. apply Hh. reflexivity.
Qed.

#[local] Transparent hashlib.sha256_hexdigest pyjson.dumps.

(** On the ledger just constructed, one payload is mined into block 1
    after one nonce increment. *)
Lemma mine_pending_drains_pending_witness :
  mine_pending 5 demo.t1 demo.ledger0 = Some (Ok None, demo.ledger0)
  /\ exists new_block,
       (forall fuel, (1 <= fuel)%nat ->
          mine_pending fuel demo.t1 (add_all [demo.entry] demo.ledger0)
          = Some (Ok (Some new_block),
                  mkBlockchain (chain demo.ledger0 ++ [new_block]) [] 1))
       /\ data new_block = JDict [("messages", JList [demo.entry])].
Proof.
  destruct (mine_pending_drains_pending demo.ledger0 demo.t1) as [Hnone Hsome].
  split; [apply Hnone; reflexivity|].
  destruct (Hsome [demo.entry] demo.genesis 1%nat) as (nb & Hm & Hd & _).
  - discriminate.
  - reflexivity.
  - vm_compute. reflexivity.
  - exists nb. split; [exact Hm | exact Hd].
Defined.

#[local] Opaque hashlib.sha256_hexdigest pyjson.dumps.

(** C9. Loading the document that [to_dict] writes gives back the ledger:
    the same difficulty, the same pending payloads, and the same blocks
    field by field. The [hash] of each block is the one written in the
    document, whatever it is: loading neither recomputes it nor mines. *)
Theorem from_dict_to_dict (self : Blockchain) :
  from_dict (to_dict self) = Ok self.
Proof.
  destruct self as [ch pd df]. unfold from_dict, to_dict, field.
  cbn [pyjson.getitem pyjson.assoc String.eqb Ascii.eqb Bool.eqb mbind
       result_bind as_int as_list chain pending_data difficulty].
  rewrite blocks_round_trip. reflexivity.
Qed.

(** C10. In every ledger reached by construction, [add_data] and
    [mine_pending], the block at position [i] of the chain has index [i]:
    the indices of the chain are 0, 1, ..., length - 1 in order. *)
Theorem reachable_chain_indices (self : Blockchain) (H : reachable self) :
  (forall i b, chain self !! i = Some b -> index b = Z.of_nat i)
  /\ map index (chain self)
     = map Z.of_nat (seq 0 (length (chain self))).
Proof.
  pose proof (reachable_indexed self H) as Hidx.
  split; [exact Hidx|].
  apply list_eq. intros i.
  rewrite !list_lookup_fmap.
  destruct (chain self !! i) as [b|] eqn:Hb; simpl.
  - rewrite (Hidx i b Hb).
    rewrite lookup_seq_lt by (apply lookup_lt_Some in Hb; exact Hb).
    reflexivity.
  - apply lookup_ge_None in Hb. rewrite lookup_seq_ge by exact Hb.
    reflexivity.
Qed.

#[local] Transparent hashlib.sha256_hexdigest pyjson.dumps.

(** [demo.ledger1] is reached by construction, one [add_data] and one
    [mine_pending]; its blocks have indices 0 and 1. *)
Lemma reachable_chain_indices_witness :
  reachable demo.ledger1
  /\ map index (chain demo.ledger1) = [0; 1].
Proof.
  assert (reachable demo.ledger1) as R.
  { apply (reach_mine_pending (add_data demo.entry demo.ledger0) 1 demo.t1
             (Ok (Some demo.block1))).
    - apply reach_add_data.
      apply (reach_init 1 demo.t0 1). vm_compute. reflexivity.
    - vm_compute. reflexivity. }
  split; [exact R|].
  exact (proj2 (reachable_chain_indices demo.ledger1 R)).
Defined.

End ledger_claims.

(** * The engine: properties *)

Module engine_facts.
Import collaborators engine engine_model.

Section facts.

Context {collab : Collaborators}.

(** *** The shared-secret cache *)

Lemma get_shared_secret_no_key peer w :
  opt_bytes_truthy (encryption_key peer) = false ->
  _get_shared_secret peer w = (Ok None, w).
Proof. intros H. unfold _get_shared_secret. now rewrite H. Qed.

Lemma get_shared_secret_cached peer w secret :
  opt_bytes_truthy (encryption_key peer) = true ->
  secrets w !! peer_id peer = Some secret ->
  _get_shared_secret peer w = (Ok (Some secret), w).
Proof.
  intros H Hc. unfold secrets in Hc.
  unfold _get_shared_secret, bind, get_self, ret. rewrite H. simpl.
  rewrite Hc. rewrite bool_decide_eq_true_2 by eauto. simpl.
  now rewrite Hc.
Qed.

Lemma get_shared_secret_fresh peer w :
  opt_bytes_truthy (encryption_key peer) = true ->
  secrets w !! peer_id peer = None ->
  _get_shared_secret peer w
  = (Ok (Some (secret_for w peer)), with_secret peer w).
Proof.
  intros H Hc. unfold secret_for, with_secret, secret_for. rewrite Hc.
  unfold secrets in Hc.
  unfold _get_shared_secret, bind, get_self, ret, emit, put_self. rewrite H.
  simpl. rewrite Hc.
  rewrite bool_decide_eq_false_2 by (intros [? ?]; discriminate). simpl.
  now rewrite lookup_insert_eq.
Qed.

Lemma get_shared_secret_key peer w :
  opt_bytes_truthy (encryption_key peer) = true ->
  _get_shared_secret peer w = (Ok (Some (secret_for w peer)), looked_up peer w).
Proof.
  intros H. unfold looked_up. destruct (secrets w !! peer_id peer) eqn:E.
  - rewrite (get_shared_secret_cached peer w _ H E).
    unfold secret_for. now rewrite E.
  - now apply get_shared_secret_fresh.
Qed.

(** *** Secrets are kept *)

Lemma derived_app pid t1 t2 :
  derived pid (t1 ++ t2) = derived pid t1 ++ derived pid t2.
Proof. apply omap_app. Qed.

Lemma keeps_secrets_refl w : keeps_secrets w w.
Proof. split; [auto | intros; lia]. Qed.

Lemma keeps_secrets_trans w1 w2 w3 :
  keeps_secrets w1 w2 -> keeps_secrets w2 w3 -> keeps_secrets w1 w3.
Proof.
  intros [M1 D1] [M2 D2]. split; [auto|].
  intros pid. specialize (D1 pid). specialize (D2 pid). lia.
Qed.

(** A step that leaves the cache alone and derives nothing. *)
Lemma keeps_secrets_quiet w w' t :
  secrets w' = secrets w ->
  trace w' = trace w ++ t ->
  Forall (fun ev => match ev with Derive _ _ => False | _ => True end) t ->
  keeps_secrets w w'.
Proof.
  intros Hs Ht Hq. split.
  - intros pid secret. now rewrite Hs.
  - intros pid. unfold cached. rewrite Hs, Ht, derived_app, length_app.
    assert (derived pid t = []) as ->; [|simpl; lia].
    clear Ht. induction Hq as [|ev t Hev _ IH]; [reflexivity|].
    destruct ev; try exact IH. contradiction.
Qed.

Lemma keeps_secrets_derive peer w :
  secrets w !! peer_id peer = None ->
  keeps_secrets w (with_secret peer w).
Proof.
  intros Hnone. split.
  - intros pid secret H. unfold with_secret, secrets. simpl.
    rewrite lookup_insert_ne; [exact H|].
    intros <-. unfold secrets in *. congruence.
  - intros pid. unfold cached, with_secret, secrets. simpl.
    rewrite derived_app, length_app. simpl.
    destruct (String.eqb_spec (peer_id peer) pid) as [<-|Hne].
    + unfold secrets in Hnone. rewrite Hnone, lookup_insert_eq. simpl. lia.
    + rewrite lookup_insert_ne by exact Hne. simpl. lia.
Qed.

Lemma keeps_ret {A} (a : A) : keeps (ret a).
Proof. intros w. apply keeps_secrets_refl. Qed.

Lemma keeps_raise {A} (e : pyexn) : keeps (@raise _ A e).
Proof. intros w. apply keeps_secrets_refl. Qed.

Lemma keeps_lift {A} (r : result A) : keeps (lift r).
Proof. intros w. apply keeps_secrets_refl. Qed.

Lemma keeps_get_self : keeps get_self.
Proof. intros w. apply keeps_secrets_refl. Qed.

Lemma keeps_bind {A B} (m : M A) (f : A -> M B) :
  keeps m -> (forall a, keeps (f a)) -> keeps (bind m f).
Proof.
  intros Hm Hf w. unfold bind, after. specialize (Hm w). unfold after in Hm.
  destruct (m w) as [[a|e] w']; simpl in *; [|exact Hm].
  eapply keeps_secrets_trans; [exact Hm | apply Hf].
Qed.

Lemma keeps_try_except {A} (body : M A) caught handler :
  keeps body -> (forall e, keeps (handler e)) ->
  keeps (try_except body caught handler).
Proof.
  intros Hb Hh w. unfold try_except, after. specialize (Hb w).
  unfold after in Hb.
  destruct (body w) as [[a|e] w']; simpl in *; [exact Hb|].
  destruct (caught e); [|exact Hb].
  eapply keeps_secrets_trans; [exact Hb | apply Hh].
Qed.

Lemma keeps_for_each {X} (l : list X) (body : X -> M unit) :
  (forall x, keeps (body x)) -> keeps (for_each l body).
Proof.
  intros Hb. induction l as [|x l IH]; simpl.
  - apply keeps_ret.
  - apply keeps_bind; [apply Hb | intros _; exact IH].
Qed.

Lemma keeps_emit ev :
  match ev with Derive _ _ => False | _ => True end -> keeps (emit ev).
Proof.
  intros H w. apply (keeps_secrets_quiet _ _ [ev]); [reflexivity..|].
  now constructor.
Qed.

Lemma keeps_logger lvl msg : keeps (logger lvl msg).
Proof. now apply keeps_emit. Qed.

(** Writing back an engine whose cache is the one read. *)
Lemma keeps_put_self e :
  forall w, _shared_secrets e = secrets w ->
            keeps_secrets w (after (put_self e w)).
Proof.
  intros w H. apply (keeps_secrets_quiet _ _ []); [exact H | | constructor].
  simpl. now rewrite app_nil_r.
Qed.

Lemma keeps_blockchain_add_data entry : keeps (blockchain_add_data entry).
Proof.
  intros w. apply (keeps_secrets_quiet _ _ [LedgerAdd entry]);
    [reflexivity.. |]. now constructor.
Qed.

Lemma keeps_p2p_send_message message recipient_id :
  keeps (p2p_send_message message recipient_id).
Proof.
  intros w. apply (keeps_secrets_quiet _ _ [Send message recipient_id]);
    [reflexivity.. |]. now constructor.
Qed.

Lemma keeps_await_callback callback received :
  keeps (await_callback callback received).
Proof.
  intros w. unfold await_callback, bind, emit, lift, after. simpl.
  apply (keeps_secrets_quiet _ _ [Invoke callback received]).
  - now destruct (callback received).
  - now destruct (callback received).
  - now constructor.
Qed.

Lemma keeps_on_message callback : keeps (on_message callback).
Proof.
  intros w. apply (keeps_secrets_quiet _ _ []); [reflexivity | | constructor].
  simpl. now rewrite app_nil_r.
Qed.

Lemma keeps_get_shared_secret peer : keeps (_get_shared_secret peer).
Proof.
  intros w. destruct (opt_bytes_truthy (encryption_key peer)) eqn:H.
  - rewrite get_shared_secret_key by exact H. unfold after, looked_up. simpl.
    destruct (secrets w !! peer_id peer) eqn:E.
    + apply keeps_secrets_refl.
    + now apply keeps_secrets_derive.
  - rewrite get_shared_secret_no_key by exact H. apply keeps_secrets_refl.
Qed.

Create HintDb keeps.
#[local] Hint Resolve keeps_ret keeps_raise keeps_lift keeps_get_self
  keeps_logger keeps_blockchain_add_data keeps_p2p_send_message
  keeps_await_callback keeps_on_message keeps_get_shared_secret : keeps.

(** Takes a computation apart along its binds and case distinctions. *)
Ltac keeps_step :=
  match goal with
  | |- keeps (bind _ _) => apply keeps_bind; [|intros]
  | |- keeps (try_except _ _ _) => apply keeps_try_except; [|intros]
  | |- keeps (for_each _ _) => apply keeps_for_each; intros
  | |- keeps (emit _) => apply keeps_emit; exact I
  | |- keeps (if ?b then _ else _) => destruct b
  | |- keeps (match ?x with _ => _ end) => destruct x
  | |- keeps _ => solve [auto with keeps]
  end.

Lemma keeps_send_text amb recipient_id text encrypt :
  keeps (send_text amb recipient_id text encrypt).
Proof.
  unfold send_text. apply keeps_bind; [auto with keeps|]. intros e.
  destruct (get_peer (p2p_node e) recipient_id) as [peer|];
    repeat keeps_step.
Qed.

Lemma keeps_broadcast_text amb text : keeps (broadcast_text amb text).
Proof. unfold broadcast_text. repeat keeps_step. Qed.

Lemma keeps_deliver_text message peer v content :
  keeps (deliver_text message peer v content).
Proof. unfold deliver_text. repeat keeps_step. Qed.

Lemma keeps_handle_text_message message peer v :
  keeps (_handle_text_message message peer v).
Proof.
  pose proof keeps_deliver_text.
  unfold _handle_text_message. repeat keeps_step; auto.
Qed.

Lemma keeps_handle_stream_message message peer :
  keeps (_handle_stream_message message peer).
Proof.
  intros w. unfold _handle_stream_message.
  destruct (chunk_info message) as [info|]; [|apply keeps_secrets_refl].
  unfold bind, get_self, put_self, logger, emit, ret, after. simpl.
  destruct (add_chunk _ (reassembler (self w))) as [completed r]. simpl.
  destruct (opt_bytes_truthy completed); simpl.
  - apply (keeps_secrets_quiet _ _ [Log INFO "Stream complete"]);
      [reflexivity.. |]. now constructor.
  - apply (keeps_secrets_quiet _ _ []); [reflexivity | | constructor].
    simpl. now rewrite app_nil_r.
Qed.

Lemma keeps_handle_incoming message peer :
  keeps (_handle_incoming message peer).
Proof.
  pose proof keeps_handle_text_message.
  pose proof keeps_handle_stream_message.
  unfold _handle_incoming. repeat keeps_step; auto.
Qed.

Lemma keeps_mine_pending fuel now w r w' :
  mine_pending fuel now w = Some (r, w') -> keeps_secrets w w'.
Proof.
  unfold mine_pending.
  destruct (blockchain.mine_pending fuel now (blockchain (self w)))
    as [[[[block|]|ex] bc]|]; intros H; try discriminate;
    injection H as <- <-.
  - apply (keeps_secrets_quiet _ _ [Log INFO "Mined block"]);
      [reflexivity.. |]. now constructor.
  - apply (keeps_secrets_quiet _ _ []); [reflexivity | | constructor].
    simpl. now rewrite app_nil_r.
  - apply (keeps_secrets_quiet _ _ []); [reflexivity | | constructor].
    simpl. now rewrite app_nil_r.
Qed.

Lemma keeps_step_call c w w' : step c w = Some w' -> keeps_secrets w w'.
Proof.
  destruct c as [cb | peer | amb r t enc | amb t | m peer | fuel clock | node];
    simpl; intros H; try (injection H as <-).
  - apply keeps_on_message.
  - apply keeps_get_shared_secret.
  - apply keeps_send_text.
  - apply keeps_broadcast_text.
  - apply keeps_handle_incoming.
  - destruct (mine_pending fuel clock w) as [[r w1]|] eqn:E; [|discriminate].
    injection H as <-. eapply keeps_mine_pending. exact E.
  - apply (keeps_secrets_quiet _ _ []); [reflexivity | | constructor].
    simpl. now rewrite app_nil_r.
Qed.

Lemma keeps_run cs : forall w w', run cs w = Some w' -> keeps_secrets w w'.
Proof.
  induction cs as [|c cs IH]; simpl; intros w w' H.
  - injection H as <-. apply keeps_secrets_refl.
  - destruct (step c w) as [w1|] eqn:E; [|discriminate]. simpl in H.
    eapply keeps_secrets_trans; [eapply keeps_step_call; exact E | auto].
Qed.

(** *** Inbound text messages *)

Lemma looked_up_self peer w :
  wallet (self (looked_up peer w)) = wallet (self w)
  /\ p2p_node (self (looked_up peer w)) = p2p_node (self w)
  /\ blockchain (self (looked_up peer w)) = blockchain (self w)
  /\ _message_callbacks (self (looked_up peer w)) = _message_callbacks (self w)
  /\ exists t, trace (looked_up peer w) = trace w ++ t
               /\ Forall (fun ev => match ev with
                                    | Derive _ _ => True
                                    | _ => False
                                    end) t.
Proof.
  unfold looked_up. destruct (secrets w !! peer_id peer).
  - repeat split. exists []. split; [now rewrite app_nil_r | constructor].
  - repeat split. eexists. split; [reflexivity|]. now repeat constructor.
Qed.

Lemma after_lookup_self message peer w :
  wallet (self (after_lookup message peer w)) = wallet (self w)
  /\ p2p_node (self (after_lookup message peer w)) = p2p_node (self w)
  /\ blockchain (self (after_lookup message peer w)) = blockchain (self w)
  /\ _message_callbacks (self (after_lookup message peer w))
     = _message_callbacks (self w)
  /\ exists t, trace (after_lookup message peer w) = trace w ++ t
               /\ Forall (fun ev => match ev with
                                    | Derive _ _ => True
                                    | _ => False
                                    end) t.
Proof.
  unfold after_lookup.
  destruct (opt_bytes_truthy (nonce message)
            && opt_bytes_truthy (encryption_key peer)).
  - apply looked_up_self.
  - repeat split. exists []. split; [now rewrite app_nil_r | constructor].
Qed.

(** *** Outbound text messages *)

(** [send_text] from "Record to blockchain" on, run. *)
Lemma record_and_dispatch_run (message : MessagePayload)
    (recipient_id : string) (w : world) :
  let answer := send_message (p2p_node (self w)) message recipient_id in
  bind (blockchain_add_data (message_entry message))
    (fun _ =>
       bind (p2p_send_message message recipient_id)
         (fun success =>
            bind (if success then logger INFO "Sent message" else ret tt)
                 (fun _ => ret success))) w
  = (Ok answer,
     mkWorld (with_entry (message_entry message) (self w))
             (trace w
              ++ [LedgerAdd (message_entry message); Send message recipient_id]
              ++ (if answer then [Log INFO "Sent message"] else []))).
Proof.
  unfold bind, blockchain_add_data, p2p_send_message, bind, get_self,
    put_self, emit, logger, emit, ret, with_entry. simpl.
  destruct (send_message (p2p_node (self w)) message recipient_id); simpl;
    rewrite <- !app_assoc; reflexivity.
Qed.

(** The content and nonce that the encryption step of [send_text] hands
    on, and the world in which it ends. *)
Lemma send_text_run amb recipient_id text encrypt peer w :
  get_peer (p2p_node (self w)) recipient_id = Some peer ->
  exists content nonce w1 before,
    (w1 = w \/ w1 = looked_up peer w)
    /\ trace w1 = trace w ++ before
    /\ Forall (fun ev => match ev with Derive _ _ => True | _ => False end)
              before
    /\ send_text amb recipient_id text encrypt w
       = bind (blockchain_add_data
                 (message_entry
                    (text_message amb (self w) recipient_id content nonce)))
           (fun _ =>
              bind (p2p_send_message
                      (text_message amb (self w) recipient_id content nonce)
                      recipient_id)
                (fun success =>
                   bind (if success then logger INFO "Sent message"
                         else ret tt)
                        (fun _ => ret success))) w1.
Proof.
  intros Hp. unfold send_text, bind at 1, get_self. simpl. rewrite Hp.
  destruct (encrypt && opt_bytes_truthy (encryption_key peer)) eqn:Henc.
  - apply andb_prop in Henc. destruct Henc as [_ Hk].
    unfold bind at 1. unfold bind at 1.
    rewrite (get_shared_secret_key peer w Hk).
    destruct (looked_up_self peer w) as (_ & _ & _ & _ & t & Ht & Hq).
    change (opt_bytes_truthy (Some (secret_for w peer)))
      with (list_truthy (secret_for w peer)).
    destruct (list_truthy (secret_for w peer)).
    + destruct (encrypt_message (entropy amb) (str_encode text)
                  (default [] (Some (secret_for w peer)))) as [n c].
      exists c, (Some n), (looked_up peer w), t. auto.
    + exists (str_encode text), None, (looked_up peer w), t. auto.
  - exists (str_encode text), None, w, []. rewrite app_nil_r. auto.
Qed.

Lemma derive_only_is_quiet (t : list event) :
  Forall (fun ev => match ev with Derive _ _ => True | _ => False end) t ->
  ledger_added t = [] /\ sent t = [] /\ invoked t = [] /\ constructed t = []
  /\ logged t = [].
Proof.
  induction 1 as [|ev t Hev _ IH]; [easy|].
  destruct ev; try contradiction. exact IH.
Qed.

(** The decryption step, run. *)
Lemma handle_text_message_run message peer v w :
  _handle_text_message message peer v w =
  match incoming_content w message peer with
  | Raise e => logger ERROR "Failed to decrypt message" (after_lookup message peer w)
  | Ok content => deliver_text message peer v content (after_lookup message peer w)
  end.
Proof.
  unfold _handle_text_message, incoming_content, decryption_attempted,
    after_lookup.
  destruct (opt_bytes_truthy (nonce message)) eqn:Hn; simpl; [|reflexivity].
  destruct (opt_bytes_truthy (encryption_key peer)) eqn:Hk; simpl;
    [|reflexivity].
  unfold bind at 1. rewrite (get_shared_secret_key peer w Hk).
  change (opt_bytes_truthy (Some (secret_for w peer)))
    with (list_truthy (secret_for w peer)).
  destruct (list_truthy (secret_for w peer)); [|reflexivity].
  simpl. now destruct (decrypt_message _ _ _).
Qed.

(** The notification loop, run: every observer is invoked, whatever the
    ones before it did, and the loop ends normally. *)
Lemma notify_run received callbacks : forall w,
  for_each callbacks
    (fun callback =>
       try_except (await_callback callback received) is_Exception
                  (fun _ => logger ERROR "Message callback error")) w
  = (Ok tt, mkWorld (self w) (trace w ++ observer_events callbacks received)).
Proof.
  induction callbacks as [|cb callbacks IH]; intros w; simpl.
  - unfold ret. rewrite app_nil_r. now destruct w.
  - unfold bind at 1. unfold try_except, await_callback, bind, emit, lift,
      logger, emit. simpl.
    destruct (cb received) as [[]|e]; simpl; rewrite IH; simpl;
      rewrite <- !app_assoc; reflexivity.
Qed.

Lemma invoked_observer_events callbacks received :
  invoked (observer_events callbacks received)
  = map (fun cb => (cb, received)) callbacks.
Proof.
  induction callbacks as [|cb callbacks IH]; [reflexivity|].
  simpl. destruct (cb received); simpl; now rewrite IH.
Qed.

Lemma quiet_observer_events callbacks received :
  sent (observer_events callbacks received) = []
  /\ ledger_added (observer_events callbacks received) = []
  /\ constructed (observer_events callbacks received) = [].
Proof.
  induction callbacks as [|cb callbacks IH]; [easy|].
  simpl. destruct (cb received); simpl; exact IH.
Qed.

(** Delivery of a decoded text, run. *)
Lemma deliver_text_decoded message peer v content text w :
  bytes_decode content = Ok text ->
  let received :=
    mkReceivedMessage (id message) (sender message)
      (pyjson.assoc "name" (metadata message)) text (timestamp message) v in
  deliver_text message peer v content w
  = (Ok tt,
     mkWorld (with_entry (received_entry message) (self w))
             (trace w
              ++ [Construct received; LedgerAdd (received_entry message)]
              ++ observer_events (_message_callbacks (self w)) received
              ++ [Send (ack_of (self w) message) (peer_id peer)])).
Proof.
  intros Hd received. unfold deliver_text. rewrite Hd. fold received.
  unfold bind at 1. unfold emit at 1. simpl.
  unfold bind at 1. unfold blockchain_add_data, bind, get_self, put_self, emit.
  simpl. rewrite notify_run. simpl.
  unfold p2p_send_message, bind, get_self, emit, ret. simpl.
  unfold with_entry, ack_of. simpl. rewrite <- !app_assoc. reflexivity.
Qed.

Lemma deliver_text_undecodable message peer v content e w :
  bytes_decode content = Raise e ->
  deliver_text message peer v content w
  = (Ok tt, mkWorld (self w)
                    (trace w ++ [Log ERROR "Failed to decode message content"])).
Proof.
  intros Hd. unfold deliver_text. rewrite Hd.
  unfold bytes_decode in Hd.
  destruct (utf8.code_points _); [discriminate|]. injection Hd as <-.
  reflexivity.
Qed.

(** A verified message goes on to the dispatch on its type. *)
Lemma handle_incoming_verified message peer w :
  verified message peer = true ->
  _handle_incoming message peer w =
  match type message with
  | TEXT => _handle_text_message message peer true w
  | ACK => logger DEBUG "Received ACK" w
  | _ => _handle_stream_message message peer w
  end.
Proof.
  unfold verified, _handle_incoming. intros H.
  apply andb_prop in H. destruct H as [-> ->]. simpl.
  now destruct (type message).
Qed.

End facts.

End engine_facts.

(** * The engine: the specification's statements *)

Module engine_claims.
Import collaborators engine engine_model engine_facts.

Section claims.

Context {collab : Collaborators}.

(** C4. An inbound message whose origin peer has no known public signing
    key, or whose signature does not verify against that key, is dropped:
    [_handle_incoming] returns normally (no exception leaves it), the
    engine is exactly as before, and all it did was to log one warning, so
    that no observer was invoked and no ledger entry was added. *)
Theorem unverified_message_is_dropped
    (message : MessagePayload) (peer : Peer) (w : world) :
  opt_bytes_truthy (public_key peer) = false
  \/ verify_signature (get_signable_content message) (signature message)
                      (default [] (public_key peer)) = false ->
  exists w',
    _handle_incoming message peer w = (Ok tt, w')
    /\ self w' = self w
    /\ (exists reason, trace w' = trace w ++ [Log WARNING reason])
    /\ invoked (trace w') = invoked (trace w)
    /\ ledger_added (trace w') = ledger_added (trace w)
    /\ blockchain.pending_data (ledger w') = blockchain.pending_data (ledger w).
Proof.
  intros H. unfold _handle_incoming.
  destruct (opt_bytes_truthy (public_key peer)) eqn:Hk; simpl.
  - destruct H as [H|H]; [discriminate|]. rewrite H. simpl.
    eexists. split; [reflexivity|]. simpl.
    split; [reflexivity|]. split; [eauto|].
    unfold invoked, ledger_added. rewrite !omap_app. simpl.
    now rewrite !app_nil_r.
  - eexists. split; [reflexivity|]. simpl.
    split; [reflexivity|]. split; [eauto|].
    unfold invoked, ledger_added. rewrite !omap_app. simpl.
    now rewrite !app_nil_r.
Qed.

(** C5. [send_text] to a recipient that the peer directory does not know
    returns [False] without raising and records nothing: the engine is as
    before, an error is logged. To a known recipient it adds exactly one
    entry to the ledger, [{type: "message", id, sender, recipient,
    timestamp}] of the message built (its content is not in it), then
    hands that message to the peer directory, and returns what the
    directory answers; the entry is in the ledger whether the answer is
    true or false. *)
Theorem send_text_records_then_dispatches
    (amb : ambient) (recipient_id text : string) (encrypt : bool) (w : world) :
  (get_peer (p2p_node (self w)) recipient_id = None ->
   exists reason,
     send_text amb recipient_id text encrypt w
     = (Ok false, mkWorld (self w) (trace w ++ [Log ERROR reason])))
  /\ (forall peer,
        get_peer (p2p_node (self w)) recipient_id = Some peer ->
        exists message w' before afterwards,
          let entry :=
            JDict [ ("type", JStr "message");
                    ("id", JStr (id message));
                    ("sender", JStr (sender message));
                    ("recipient", JStr (recipient message));
                    ("timestamp", JFloat (timestamp message)) ] in
          send_text amb recipient_id text encrypt w
          = (Ok (send_message (p2p_node (self w)) message recipient_id), w')
          /\ ledger w' = blockchain.add_data entry (ledger w)
          /\ trace w'
             = trace w ++ before
                 ++ [LedgerAdd entry; Send message recipient_id]
                 ++ afterwards
          /\ ledger_added before = [] /\ sent before = []
          /\ ledger_added afterwards = [] /\ sent afterwards = []
          /\ id message = fresh_id amb
          /\ type message = TEXT
          /\ sender message = address (wallet (self w))
          /\ recipient message = recipient_id
          /\ timestamp message = now amb).
Proof.
  split.
  - intros Hp. unfold send_text, bind at 1, get_self. simpl. rewrite Hp.
    eexists. reflexivity.
  - intros peer Hp.
    destruct (send_text_run amb recipient_id text encrypt peer w Hp)
      as (content & nonce & w1 & before & Hw1 & Htrace & Hquiet & ->).
    destruct (derive_only_is_quiet before Hquiet) as (Hla & Hs & _).
    assert (wallet (self w1) = wallet (self w)
            /\ p2p_node (self w1) = p2p_node (self w)
            /\ blockchain (self w1) = blockchain (self w)) as (Hw & Hn & Hb).
    { destruct Hw1 as [-> | ->]; [easy|].
      destruct (looked_up_self peer w) as (? & ? & ? & _). easy. }
    rewrite record_and_dispatch_run, Hn.
    set (message := text_message amb (self w) recipient_id content nonce).
    exists message. eexists. exists before. eexists.
    split; [reflexivity|]. simpl.
    split; [unfold ledger, with_entry; simpl; now rewrite Hb|].
    split; [rewrite Htrace, <- !app_assoc; reflexivity|].
    repeat split; try assumption;
      now destruct (send_message (p2p_node (self w)) message recipient_id).
Qed.

(** C6. A verified inbound TEXT message whose decryption raises, or whose
    content (as decrypted, or as received when no decryption applies) is
    not decodable text, is logged and dropped: [_handle_incoming] returns
    normally, and what it did contains an error log and, at most, the
    derivation of the shared secret; no [ReceivedMessage] was built, no
    observer invoked, no ledger entry added, nothing sent. *)
Theorem undeliverable_text_is_dropped
    (message : MessagePayload) (peer : Peer) (w : world) :
  verified message peer = true ->
  type message = TEXT ->
  (exists e, incoming_content w message peer = Raise e)
  \/ (exists content e,
        incoming_content w message peer = Ok content
        /\ bytes_decode content = Raise e) ->
  exists w' done,
    _handle_incoming message peer w = (Ok tt, w')
    /\ trace w' = trace w ++ done
    /\ In ERROR (logged done)
    /\ constructed done = []
    /\ invoked done = []
    /\ ledger_added done = []
    /\ sent done = []
    /\ ledger w' = ledger w
    /\ _message_callbacks (self w') = _message_callbacks (self w).
Proof.
  intros Hv Ht Hfail.
  rewrite (handle_incoming_verified message peer w Hv), Ht.
  rewrite handle_text_message_run.
  destruct (after_lookup_self message peer w)
    as (_ & _ & Hb & Hc & t & Htr & Hq).
  destruct (derive_only_is_quiet t Hq) as (Hla & Hs & Hi & Hco & Hlog).
  assert (forall reason,
    let done := t ++ [Log ERROR reason] in
    In ERROR (logged done) /\ constructed done = [] /\ invoked done = []
    /\ ledger_added done = [] /\ sent done = []) as Hdone.
  { intros reason. unfold logged, constructed, invoked, ledger_added, sent in *.
    rewrite !omap_app, Hla, Hs, Hi, Hco, Hlog. simpl. tauto. }
  destruct Hfail as [[e He] | (content & e & Hc' & Hd)].
  - rewrite He. eexists. eexists. split; [reflexivity|]. simpl.
    split; [rewrite Htr, <- app_assoc; reflexivity|].
    destruct (Hdone "Failed to decrypt message"%string) as (? & ? & ? & ? & ?).
    repeat split; assumption.
  - rewrite Hc'. rewrite (deliver_text_undecodable _ _ _ _ e _ Hd).
    eexists. eexists. split; [reflexivity|]. simpl.
    split; [rewrite Htr, <- app_assoc; reflexivity|].
    destruct (Hdone "Failed to decode message content"%string)
      as (? & ? & ? & ? & ?).
    repeat split; assumption.
Qed.

(** C7. For a verified inbound TEXT message that is decrypted (where that
    applies) and decoded, [_handle_incoming] returns normally and the last
    thing it does is to send the acknowledgment to the origin peer. Before
    that, and in the order of registration, every registered observer has
    been invoked once on the received message, whether or not the
    observers before it raised; and nothing was sent before the
    acknowledgment. *)
Theorem acknowledgment_follows_all_observers
    (message : MessagePayload) (peer : Peer) (w : world)
    (content : bytes) (text : string) :
  verified message peer = true ->
  type message = TEXT ->
  incoming_content w message peer = Ok content ->
  bytes_decode content = Ok text ->
  exists w' before,
    _handle_incoming message peer w = (Ok tt, w')
    /\ trace w'
       = trace w ++ before ++ [Send (ack_of (self w) message) (peer_id peer)]
    /\ invoked before
       = map (fun callback => (callback, received_of message text))
             (_message_callbacks (self w))
    /\ sent before = []
    /\ constructed before = [received_of message text]
    /\ ledger_added before = [received_entry message].
Proof.
  intros Hv Ht Hc Hd.
  rewrite (handle_incoming_verified message peer w Hv), Ht.
  rewrite handle_text_message_run, Hc.
  rewrite (deliver_text_decoded _ _ _ _ text _ Hd).
  destruct (after_lookup_self message peer w)
    as (Hw & _ & _ & Hcb & t & Htr & Hq).
  destruct (derive_only_is_quiet t Hq) as (Hla & Hs & Hi & Hco & _).
  rewrite Hcb, Htr. fold (received_of message text).
  set (cbs := _message_callbacks (self w)).
  set (r := received_of message text).
  destruct (quiet_observer_events cbs r) as (Hos & Hol & Hoc).
  eexists.
  exists (t ++ [Construct r; LedgerAdd (received_entry message)]
            ++ observer_events cbs r).
  split; [reflexivity|]. simpl.
  split.
  { unfold ack_of. rewrite Hw. rewrite <- !app_assoc. reflexivity. }
  pose proof (invoked_observer_events cbs r) as Hinv.
  unfold invoked, sent, constructed, ledger_added in *.
  rewrite !omap_app, Hla, Hs, Hi, Hco.
  cbn -[observer_events received_entry].
  rewrite Hos, Hol, Hoc, Hinv.
  repeat split.
Qed.

(** C8. [_get_shared_secret] returns [None] exactly when the peer has no
    encryption key (none, or an empty one). Once it has returned a secret
    for a peer, then after any further calls to the engine (and changes of
    the peer directory) a call for a peer with that id and an encryption
    key returns the same bytes and changes nothing: the secret comes from
    the cache and is not derived again. In the whole life of an engine,
    from its construction on, at most one derivation is made for each
    peer id. *)
Theorem shared_secret_is_memoized :
  (forall peer w,
      fst (_get_shared_secret peer w) = Ok None
      <-> opt_bytes_truthy (encryption_key peer) = false)
  /\ (forall peer w secret w1 calls w2 peer',
        _get_shared_secret peer w = (Ok (Some secret), w1) ->
        run calls w1 = Some w2 ->
        peer_id peer' = peer_id peer ->
        opt_bytes_truthy (encryption_key peer') = true ->
        _get_shared_secret peer' w2 = (Ok (Some secret), w2))
  /\ (forall fuel clock wallet node r ledger e calls w pid,
        __init__ fuel clock wallet node r ledger = Some e ->
        run calls (mkWorld e []) = Some w ->
        (length (derived pid (trace w)) <= 1)%nat).
Proof.
  split; [|split].
  - intros peer w. destruct (opt_bytes_truthy (encryption_key peer)) eqn:Hk.
    + rewrite (get_shared_secret_key peer w Hk). simpl. split; discriminate.
    + rewrite (get_shared_secret_no_key peer w Hk). simpl. tauto.
  - intros peer w secret w1 calls w2 peer' Hfirst Hrun Hid Hk'.
    assert (secrets w1 !! peer_id peer = Some secret) as Hcached.
    { destruct (opt_bytes_truthy (encryption_key peer)) eqn:Hk.
      - rewrite (get_shared_secret_key peer w Hk) in Hfirst.
        injection Hfirst as <- <-. unfold looked_up, secret_for.
        destruct (secrets w !! peer_id peer) eqn:E; [exact E|].
        unfold with_secret, secrets. simpl. rewrite lookup_insert_eq.
        unfold secret_for. now rewrite E.
      - rewrite (get_shared_secret_no_key peer w Hk) in Hfirst. discriminate. }
    apply (keeps_run calls w1 w2 Hrun) in Hcached.
    apply get_shared_secret_cached; [exact Hk' | now rewrite Hid].
  - intros fuel clock wallet node r ledger e calls w pid Hinit Hrun.
    assert (_shared_secrets e = ∅) as Hempty.
    { unfold __init__ in Hinit.
      destruct (match ledger with Some _ => _ | None => _ end);
        [|discriminate].
      now injection Hinit as <-. }
    destruct (keeps_run calls _ w Hrun) as [_ Hcount].
    specialize (Hcount pid). unfold cached, secrets in Hcount. simpl in Hcount.
    rewrite Hempty, lookup_empty in Hcount.
    destruct (_shared_secrets (self w) !! pid); lia.
Qed.

End claims.

(** *** The statements at work on the toy engine *)

Import toy.

(** A message from a peer without a signing key, and one whose signature
    was replaced, are dropped by Bob's engine. *)
Lemma unverified_message_is_dropped_witness :
  (exists w', _handle_incoming hi_clear stranger w0 = (Ok tt, w')
              /\ self w' = self w0
              /\ invoked (trace w') = [])
  /\ (exists w', _handle_incoming forged_message alice w0 = (Ok tt, w')
                 /\ self w' = self w0
                 /\ invoked (trace w') = []).
Proof.
  split.
  - destruct (unverified_message_is_dropped hi_clear stranger w0)
      as (w' & Hrun & Hself & _ & Hinv & _).
    + left. reflexivity.
    + exists w'. auto.
  - destruct (unverified_message_is_dropped forged_message alice w0)
      as (w' & Hrun & Hself & _ & Hinv & _).
    + right. vm_compute. reflexivity.
    + exists w'. auto.
Defined.

(** Bob's engine knows alice and does not know carol. *)
Lemma send_text_records_then_dispatches_witness :
  fst (send_text amb "carol" "yo" true w0) = Ok false
  /\ exists message w',
       send_text amb "alice" "yo" true w0 = (Ok false, w')
       /\ blockchain.pending_data (ledger w')
          = [ JDict [ ("type", JStr "message");
                      ("id", JStr (id message));
                      ("sender", JStr (sender message));
                      ("recipient", JStr (recipient message));
                      ("timestamp", JFloat (timestamp message)) ] ].
Proof.
  split.
  - destruct (send_text_records_then_dispatches amb "carol" "yo" true w0)
      as [Hnone _].
    destruct Hnone as [reason ->]; reflexivity.
  - destruct (send_text_records_then_dispatches amb "alice" "yo" true w0)
      as [_ Hsome].
    destruct (Hsome alice eq_refl)
      as (message & w' & before & afterwards & Hrun & Hledger & _).
    exists message, w'. split; [exact Hrun|]. now rewrite Hledger.
Defined.

(** A text encrypted under another secret, and a clear text that is not
    UTF-8, are dropped by Bob's engine. *)
Lemma undeliverable_text_is_dropped_witness :
  (exists w', _handle_incoming garbled alice w0 = (Ok tt, w')
              /\ ledger w' = ledger w0 /\ sent (trace w') = [])
  /\ (exists w', _handle_incoming undecodable alice w0 = (Ok tt, w')
                 /\ ledger w' = ledger w0 /\ sent (trace w') = []).
Proof.
  split.
  - destruct (undeliverable_text_is_dropped garbled alice w0)
      as (w' & done & Hrun & Htr & _ & _ & _ & _ & Hs & Hl & _).
    + vm_compute. reflexivity.
    + reflexivity.
    + left. eexists. vm_compute. reflexivity.
    + exists w'. rewrite Htr. auto.
  - destruct (undeliverable_text_is_dropped undecodable alice w0)
      as (w' & done & Hrun & Htr & _ & _ & _ & _ & Hs & Hl & _).
    + vm_compute. reflexivity.
    + reflexivity.
    + right. eexists. eexists. split; vm_compute; reflexivity.
    + exists w'. rewrite Htr. auto.
Defined.

(** Alice's encrypted "hi" reaches both of Bob's observers, the first of
    which raises, and then the acknowledgment goes out. *)
Lemma acknowledgment_follows_all_observers_witness :
  exists w' before,
    _handle_incoming hi_encrypted alice w0 = (Ok tt, w')
    /\ trace w' = before ++ [Send (ack_of bob hi_encrypted) "alice"]
    /\ invoked before
       = [ (failing_observer, received_of hi_encrypted "hi");
           (quiet_observer, received_of hi_encrypted "hi") ]
    /\ sent before = [].
Proof.
  destruct (acknowledgment_follows_all_observers hi_encrypted alice w0
              (str_encode "hi") "hi")
    as (w' & before & Hrun & Htr & Hinv & Hs & _).
  - vm_compute. reflexivity.
  - reflexivity.
  - vm_compute. reflexivity.
  - vm_compute. reflexivity.
  - exists w', before. auto.
Defined.

(** After Bob's engine has looked up the secret it shares with alice, and
    through the calls of [toy.calls], a lookup for alice under another key
    returns the same secret and changes nothing; one derivation was made
    for alice. *)
Lemma shared_secret_is_memoized_witness :
  _get_shared_secret alice w0 = (Ok (Some secret), w1)
  /\ run calls w1 = Some w2
  /\ _get_shared_secret alice_rekeyed w2 = (Ok (Some secret), w2)
  /\ (length (derived "alice" (trace w2)) <= 1)%nat.
Proof.
  assert (_get_shared_secret alice w0 = (Ok (Some secret), w1)) as Hfirst
    by (vm_compute; reflexivity).
  assert (run calls w1 = Some w2) as Hrun by (vm_compute; reflexivity).
  destruct (@shared_secret_is_memoized collab) as (_ & Hmemo & Honce).
  split; [exact Hfirst|]. split; [exact Hrun|]. split.
  - apply (Hmemo alice w0 secret w1 calls w2 alice_rekeyed Hfirst Hrun);
      reflexivity.
  - apply (Honce 0%nat demo.t0 bob_wallet node tt (Some demo.ledger0) fresh
                 (call_on_message failing_observer
                  :: call_on_message quiet_observer
                  :: call_get_shared_secret alice :: calls) w2 "alice"%string).
    + reflexivity.
    + vm_compute. reflexivity.
Defined.


End engine_claims.

(** * The ledger: further properties *)

Module ledger_more_facts.
Import blockchain ledger_model ledger_facts ledger_more.

#[local] Opaque hashlib.sha256_hexdigest pyjson.dumps.

(** *** The proof-of-work search *)

Lemma bumps_snoc k : forall b, bumps (S k) b = bump (bumps k b).
Proof. induction k as [|k IH]; intros b; [reflexivity|]. simpl. now rewrite <- IH. Qed.

Lemma bump_fields b :
  index (bump b) = index b /\ timestamp (bump b) = timestamp b
  /\ data (bump b) = data b /\ previous_hash (bump b) = previous_hash b
  /\ nonce (bump b) = nonce b + 1
  /\ hash (bump b) = calculate_hash (bump b).
Proof. repeat split. Qed.

Lemma bumps_nonce k : forall b, nonce (bumps k b) = nonce b + Z.of_nat k.
Proof.
  induction k as [|k IH]; intros b; simpl; [lia|].
  rewrite IH. simpl. lia.
Qed.

(** After at least one round the block is the original one with the
    nonce advanced and the hash recomputed. *)
Lemma bumps_positive k : forall b,
  (1 <= k)%nat ->
  bumps k b
  = let b' := set_nonce (nonce b + Z.of_nat k) b in
    set_hash (calculate_hash b') b'.
Proof.
  induction k as [|k IH]; intros b Hk; [lia|].
  destruct k as [|k].
  - simpl. unfold bump.
    now replace (nonce b + 1) with (nonce b + Z.of_nat 1) by lia.
  - change (bumps (S (S k)) b) with (bumps (S k) (bump b)).
    rewrite IH by lia. cbv zeta.
    replace (nonce (bump b) + Z.of_nat (S k))
      with (nonce b + Z.of_nat (S (S k))) by (simpl nonce; lia).
    now destruct b.
Qed.

Lemma mine_first fuel : forall b d b',
  mine fuel b d = Some b' ->
  exists k, (k <= fuel)%nat /\ b' = bumps k b
            /\ forall j, (j < k)%nat ->
                         startswith (hash (bumps j b)) (target d) = false.
Proof.
  induction fuel as [|fuel IH]; intros b d b'; rewrite mine_unfold;
    destruct (startswith (hash b) (target d)) eqn:E; intros H;
    try discriminate.
  - injection H as <-. exists 0%nat. repeat split; [lia | intros; lia].
  - injection H as <-. exists 0%nat. repeat split; [lia | intros; lia].
  - destruct (IH _ _ _ H) as (k & Hk & -> & Hmin).
    exists (S k). repeat split; [lia|].
    intros [|j] Hj; [exact E|]. apply Hmin. lia.
Qed.

End ledger_more_facts.

Module digest_facts.
Import blockchain ledger_model ledger_facts ledger_more ledger_more_facts.

(** *** The shape of a digest *)

Lemma list_ascii_of_string_append (a b : string) :
  list_ascii_of_string (String.append a b)
  = list_ascii_of_string a ++ list_ascii_of_string b.
Proof. induction a as [|c a IH]; simpl; [reflexivity | now rewrite IH]. Qed.

Lemma string_length_list (s : string) :
  String.length s = length (list_ascii_of_string s).
Proof. induction s as [|c s IH]; simpl; [reflexivity | now rewrite IH]. Qed.

Lemma hex_digit_is_hex (x : Z) :
  hex_digit_char (hashlib.hex_digit (Z.land x 0xf)) = true.
Proof.
  change 0xf with (Z.ones 4). rewrite Z.land_ones by lia.
  pose proof (Z.mod_pos_bound x (2 ^ 4) ltac:(lia)) as Hb.
  remember (x mod 2 ^ 4) as d eqn:Hd. clear Hd.
  assert (d = 0 \/ d = 1 \/ d = 2 \/ d = 3 \/ d = 4 \/ d = 5 \/ d = 6 \/ d = 7
          \/ d = 8 \/ d = 9 \/ d = 10 \/ d = 11 \/ d = 12 \/ d = 13 \/ d = 14
          \/ d = 15) as Hcases by lia.
  repeat (destruct Hcases as [-> | Hcases]; [reflexivity|]).
  subst. reflexivity.
Qed.

Lemma hex_of_shape n x :
  length (list_ascii_of_string (hashlib.hex_of n x)) = n
  /\ forallb hex_digit_char (list_ascii_of_string (hashlib.hex_of n x)) = true.
Proof.
  induction n as [|n [IHl IHc]]; [split; reflexivity|].
  cbn [hashlib.hex_of list_ascii_of_string length forallb].
  rewrite IHl, IHc, hex_digit_is_hex. split; reflexivity.
Qed.

Lemma compress_length h block :
  length h = 8%nat -> length (hashlib.compress h block) = 8%nat.
Proof.
  intros Hh. unfold hashlib.compress.
  rewrite length_map, length_combine, Hh. reflexivity.
Qed.

Lemma blocks_length n : forall h ws,
  length h = 8%nat -> length (hashlib.blocks n h ws) = 8%nat.
Proof.
  induction n as [|n IH]; intros h ws Hh; simpl; [exact Hh|].
  apply IH. now apply compress_length.
Qed.

Lemma words_hex (ws : list Z) :
  let s := fold_right (fun w acc => String.append (hashlib.hex_of 8 w) acc)
                      EmptyString ws in
  length (list_ascii_of_string s) = (8 * length ws)%nat
  /\ forallb hex_digit_char (list_ascii_of_string s) = true.
Proof.
  induction ws as [|w ws [IHl IHc]]; [split; reflexivity|].
  cbn [fold_right]. rewrite list_ascii_of_string_append.
  destruct (hex_of_shape 8 w) as [Hl Hc].
  rewrite length_app, forallb_app, Hl, Hc, IHl, IHc. simpl length.
  split; [lia | reflexivity].
Qed.

(** [hashlib.sha256(data).hexdigest()] is 64 characters among [0-9a-f]. *)
Lemma sha256_hexdigest_shape (data : list byte) :
  hex_digest (hashlib.sha256_hexdigest data).
Proof.
  unfold hex_digest, hashlib.sha256_hexdigest. rewrite string_length_list.
  match goal with
  | |- context [fold_right _ _ ?ws] =>
      destruct (words_hex ws) as [Hl Hc];
      assert (length ws = 8%nat) as Hws
  end.
  { unfold hashlib.digest_words. apply blocks_length. reflexivity. }
  cbv zeta in Hl, Hc. rewrite Hl, Hc, Hws. split; reflexivity.
Qed.

Lemma prefix_length (p s : string) :
  String.prefix p s = true -> (String.length p <= String.length s)%nat.
Proof.
  revert s. induction p as [|c p IH]; intros s H; simpl; [lia|].
  destruct s as [|c' s]; [discriminate|]. simpl in H.
  destruct (ascii_dec c c'); [|discriminate].
  apply IH in H. simpl. lia.
Qed.

Lemma target_length (d : Z) : String.length (target d) = Z.to_nat d.
Proof.
  unfold target, str_repeat. rewrite string_length_list.
  rewrite list_ascii_of_string_of_list_ascii. apply repeat_length.
Qed.

End digest_facts.

Module ledger_more_lemmas.
Import blockchain ledger_model ledger_facts ledger_more ledger_more_facts
       digest_facts.

#[local] Opaque hashlib.sha256_hexdigest pyjson.dumps.

(** *** Validation looks at the chain and the difficulty only *)

Lemma is_chain_valid_loop_ext self self' range :
  chain self = chain self' -> difficulty self = difficulty self' ->
  is_chain_valid_loop self range = is_chain_valid_loop self' range.
Proof.
  intros Hc Hd. induction range as [|i range IH]; [reflexivity|].
  simpl. rewrite Hc, IH. unfold check_block. now rewrite Hd.
Qed.

Lemma is_chain_valid_ext self self' :
  chain self = chain self' -> difficulty self = difficulty self' ->
  is_chain_valid self = is_chain_valid self'.
Proof.
  intros Hc Hd. unfold is_chain_valid. rewrite Hc.
  now apply is_chain_valid_loop_ext.
Qed.

Lemma is_chain_valid_take self n :
  is_chain_valid self = true -> is_chain_valid (truncate n self) = true.
Proof.
  rewrite !is_chain_valid_true. intros H i current previous Hi Hc Hp.
  simpl in Hc, Hp. apply lookup_take_Some in Hc. apply lookup_take_Some in Hp.
  apply (H i current previous Hi); tauto.
Qed.

(** Appending a block that passes the checks against the last block does
    not change the verdict. *)
Lemma is_chain_valid_append self latest b pending :
  last (chain self) = Some latest ->
  check_block self b latest = true ->
  is_chain_valid (mkBlockchain (chain self ++ [b]) pending (difficulty self))
  = is_chain_valid self.
Proof.
  intros Hlast Hb.
  destruct (is_chain_valid self) eqn:E.
  - now apply (is_chain_valid_snoc self latest).
  - destruct (is_chain_valid (mkBlockchain _ _ _)) eqn:E'; [|reflexivity].
    apply (is_chain_valid_take _ (length (chain self))) in E'.
    rewrite <- E, <- E'. apply is_chain_valid_ext; [|reflexivity].
    simpl. now rewrite take_app_length.
Qed.

(** What a call of [mine_pending] that returns has done. *)
Lemma mine_pending_cases fuel now self r self' :
  mine_pending fuel now self = Some (r, self') ->
  (r = Ok None /\ self' = self /\ pending_data self = [])
  \/ (r = Raise IndexError /\ self' = self /\ chain self = []
      /\ pending_data self <> [])
  \/ (exists latest b,
        r = Ok (Some b)
        /\ self' = mkBlockchain (chain self ++ [b]) [] (difficulty self)
        /\ last (chain self) = Some latest
        /\ pending_data self <> []
        /\ index b = Z.of_nat (length (chain self))
        /\ timestamp b = now
        /\ data b = JDict [("messages", JList (pending_data self))]
        /\ previous_hash b = hash latest
        /\ sealed (difficulty self) b).
Proof.
  unfold mine_pending. destruct (pending_data self) as [|p ps] eqn:Hp; simpl.
  { intros H. injection H as <- <-. now left. }
  unfold latest_block. destruct (last (chain self)) as [latest|] eqn:Hl.
  - simpl. destruct (mine fuel _ (difficulty self)) as [b|] eqn:Hm;
      [|discriminate].
    intros H. injection H as <- <-. right. right. exists latest, b.
    apply mine_returns in Hm. destruct Hm as (Hi & Ht & Hd & Hph & Hpow & Hh).
    repeat split; try assumption; try discriminate. now apply Hh.
  - intros H. injection H as <- <-. right. left.
    apply last_None in Hl. repeat split; try assumption. discriminate.
Qed.

(** *** Construction *)

Lemma init_returns fuel now d self :
  __init__ fuel now d = Some self ->
  exists genesis,
    self = mkBlockchain [genesis] [] d
    /\ mine fuel (Block_new 0 now genesis_data (str_repeat "0" 64) 0) d
       = Some genesis.
Proof.
  unfold __init__, _create_genesis_block. simpl.
  destruct (mine fuel _ d) as [g|] eqn:Hg; [|discriminate].
  intros H. injection H as <-. now exists g.
Qed.

(** *** Loading *)


(** *** Message history *)

Lemma get_messages_loop_app l1 : forall l2 messages,
  get_messages_loop (l1 ++ l2) messages
  = get_messages_loop l1 messages ≫= get_messages_loop l2.
Proof.
  induction l1 as [|b l1 IH]; intros l2 messages; [reflexivity|].
  simpl. destruct (contains (data b) "messages") as [[|]|e]; simpl;
    [|apply IH | reflexivity].
  destruct (pyjson.getitem (data b) "messages") as [v|e]; simpl;
    [|reflexivity].
  destruct (iterate v) as [items|e]; simpl; [apply IH | reflexivity].
Qed.

(** A mined block adds its payloads to the history. *)
Lemma get_messages_mined self latest b pending ms :
  last (chain self) = Some latest ->
  data b = JDict [("messages", JList (pending_data self))] ->
  get_messages self = Ok ms ->
  get_messages (mkBlockchain (chain self ++ [b]) pending (difficulty self))
  = Ok (ms ++ pending_data self).
Proof.
  intros Hl Hd Hget. unfold get_messages in *. simpl.
  destruct (chain self) as [|g rest]; [discriminate|]. simpl in *.
  rewrite get_messages_loop_app, Hget. simpl. rewrite Hd. reflexivity.
Qed.

(** *** Merkle levels *)

Lemma last_map {A B} (f : A -> B) (l : list A) :
  last (map f l) = option_map f (last l).
Proof.
  induction l as [|a l IH]; [reflexivity|].
  destruct l as [|b l]; [reflexivity | exact IH].
Qed.


Lemma next_level_digests : forall hashes,
  Forall hex_digest (next_level hashes).
Proof.
  fix IH 1. intros [|a [|b rest]]; [constructor | constructor |].
  simpl. constructor; [apply sha256_hexdigest_shape | apply IH].
Qed.

Lemma merkle_loop_digests fuel : forall hashes,
  Forall hex_digest hashes -> Forall hex_digest (merkle_loop fuel hashes).
Proof.
  induction fuel as [|fuel IH]; intros hashes H; simpl; [exact H|].
  destruct (1 <? length hashes)%nat; [|exact H].
  apply IH. apply next_level_digests.
Qed.

End ledger_more_lemmas.

(** * The ledger: further theorems *)

Module ledger_extras.
Import blockchain ledger_model ledger_facts ledger_more ledger_more_facts
       digest_facts ledger_more_lemmas.

#[local] Opaque hashlib.sha256_hexdigest pyjson.dumps.

(** X1. A ledger that [Blockchain(difficulty)] returns holds one block and
    nothing pending. That block is the genesis block: index 0, the clock
    reading as timestamp, the fixed data, 64 zeros as previous hash, a
    nonce that is not negative, the hash of its contents as hash, and
    that hash meets the target. The ledger validates, has length 1 and no
    message history. *)
Theorem constructed_ledger_is_genesis_only
    (fuel : nat) (now : pyfloat) (d : Z) (self : Blockchain) :
  __init__ fuel now d = Some self ->
  exists genesis,
    chain self = [genesis] /\ pending_data self = [] /\ difficulty self = d
    /\ index genesis = 0 /\ timestamp genesis = now
    /\ data genesis = genesis_data
    /\ previous_hash genesis
       = "0000000000000000000000000000000000000000000000000000000000000000"%string
    /\ 0 <= nonce genesis
    /\ sealed d genesis
    /\ is_chain_valid self = true
    /\ __len__ self = 1
    /\ get_messages self = Ok [].
Proof.
  unfold __init__, _create_genesis_block. simpl.
  destruct (mine fuel _ d) as [g|] eqn:Hg; [|discriminate].
  intros H. injection H as <-. exists g.
  destruct (mine_first _ _ _ _ Hg) as (k & _ & Hk & _).
  apply mine_returns in Hg. destruct Hg as (Hi & Ht & Hd & Hp & Hpow & Hh).
  repeat split; try assumption.
  - rewrite Hk, bumps_nonce. simpl. lia.
  - now apply Hh.
Qed.

#[local] Transparent hashlib.sha256_hexdigest pyjson.dumps.

Lemma constructed_ledger_is_genesis_only_witness :
  exists genesis, chain demo.ledger0 = [genesis] /\ nonce genesis = 1.
Proof.
  destruct (constructed_ledger_is_genesis_only 1 demo.t0 1 demo.ledger0)
    as (g & Hc & _).
  - vm_compute. reflexivity.
  - exists g. split; [exact Hc|]. now injection Hc as <-.
Defined.

#[local] Opaque hashlib.sha256_hexdigest pyjson.dumps.

(** X2. In every ledger reached by construction, [add_data] and
    [mine_pending], the chain is not empty, every block of it, the genesis
    block included, carries the hash of its own contents and meets the
    proof-of-work target, and the ledger validates. *)
Theorem reachable_ledger_is_sealed (self : Blockchain) :
  reachable self ->
  chain self <> []
  /\ Forall (sealed (difficulty self)) (chain self)
  /\ is_chain_valid self = true.
Proof.
  intros R. split; [now apply reachable_nonempty|].
  split; [|now apply reachable_valid].
  induction R as [fuel now d self Hinit | self p _ IH
                 | self fuel now r self' _ IH Hmine].
  - destruct (init_returns _ _ _ _ Hinit) as (g & -> & Hg).
    apply mine_returns in Hg. destruct Hg as (_ & _ & _ & _ & Hpow & Hh).
    constructor; [|constructor]. split; [now apply Hh | exact Hpow].
  - exact IH.
  - destruct (mine_pending_cases _ _ _ _ _ Hmine)
      as [(_ & -> & _) | [(_ & -> & _) | (latest & b & _ & -> & _ & _ & _ & _
                                           & _ & _ & Hs)]];
      try exact IH.
    simpl. apply Forall_app.
    split; [exact IH | constructor; [exact Hs | constructor]].
Qed.

#[local] Transparent hashlib.sha256_hexdigest pyjson.dumps.

Lemma reachable_ledger_is_sealed_witness :
  Forall (sealed 1) [demo.genesis; demo.block1].
Proof.
  apply (reachable_ledger_is_sealed demo.ledger1).
  apply (reach_mine_pending (add_data demo.entry demo.ledger0) 1 demo.t1
           (Ok (Some demo.block1))).
  - apply reach_add_data.
    apply (reach_init 1 demo.t0 1). vm_compute. reflexivity.
  - vm_compute. reflexivity.
Defined.

#[local] Opaque hashlib.sha256_hexdigest pyjson.dumps.

(** X3. When [mine] returns, it has advanced the nonce by some [k] and
    touched nothing else but the hash: with [k = 0] the block is returned
    as it was, otherwise its hash is the hash of the contents under the
    new nonce. The stored hash at the start and the hashes under the
    [k - 1] nonces in between did not meet the target: the nonce found is
    the first that does. *)
Theorem mine_finds_first_nonce
    (fuel : nat) (b : Block) (d : Z) (b' : Block) :
  mine fuel b d = Some b' ->
  exists k : nat,
    (k <= fuel)%nat
    /\ nonce b' = nonce b + Z.of_nat k
    /\ (k = 0%nat -> b' = b)
    /\ ((1 <= k)%nat ->
        startswith (hash b) (target d) = false
        /\ b' = set_hash
                  (calculate_hash (set_nonce (nonce b + Z.of_nat k) b))
                  (set_nonce (nonce b + Z.of_nat k) b))
    /\ (forall j : nat,
          (1 <= j < k)%nat ->
          startswith (calculate_hash (set_nonce (nonce b + Z.of_nat j) b))
                     (target d) = false)
    /\ startswith (hash b') (target d) = true.
Proof.
  intros H. destruct (mine_first _ _ _ _ H) as (k & Hk & -> & Hmin).
  exists k. split; [exact Hk|]. split; [apply bumps_nonce|].
  split; [now intros ->|]. split; [|split].
  - intros Hpos. split; [apply (Hmin 0%nat); lia|].
    now rewrite bumps_positive.
  - intros j Hj. specialize (Hmin j ltac:(lia)).
    rewrite bumps_positive in Hmin by lia. exact Hmin.
  - apply mine_returns in H. tauto.
Qed.

#[local] Transparent hashlib.sha256_hexdigest pyjson.dumps.

Lemma mine_finds_first_nonce_witness :
  let start := Block_new 0 demo.t0 genesis_data (str_repeat "0" 64) 0 in
  exists k : nat,
    (k <= 1)%nat /\ nonce demo.genesis = nonce start + Z.of_nat k.
Proof.
  intros start.
  destruct (mine_finds_first_nonce 1 start 1 demo.genesis)
    as (k & Hk & Hn & _).
  - vm_compute. reflexivity.
  - exists k. split; [exact Hk | exact Hn].
Defined.

#[local] Opaque hashlib.sha256_hexdigest pyjson.dumps.

(** X4. With a difficulty of zero or below the target is the empty string:
    [mine] returns every block as it is, whatever the fuel, construction
    always returns, with a genesis block of nonce 0, and the
    proof-of-work check of validation passes for every hash. *)
Theorem nonpositive_difficulty_needs_no_work (d : Z) :
  d <= 0 ->
  (forall fuel b, mine fuel b d = Some b)
  /\ (forall fuel now,
        exists genesis,
          __init__ fuel now d = Some (mkBlockchain [genesis] [] d)
          /\ nonce genesis = 0)
  /\ (forall h, startswith h (target d) = true).
Proof.
  intros Hd.
  assert (forall h, startswith h (target d) = true) as Hany.
  { intros h. unfold startswith, target, str_repeat.
    replace (Z.to_nat d) with 0%nat by lia. now destruct h. }
  assert (forall fuel b, mine fuel b d = Some b) as Hmine.
  { intros fuel b. rewrite mine_unfold. now rewrite Hany. }
  split; [exact Hmine|]. split; [|exact Hany].
  intros fuel now. eexists. unfold __init__, _create_genesis_block.
  simpl. rewrite Hmine. simpl. split; reflexivity.
Qed.

Lemma nonpositive_difficulty_needs_no_work_witness :
  mine 0 demo.block1 (-3) = Some demo.block1.
Proof.
  apply (nonpositive_difficulty_needs_no_work (-3)). lia.
Defined.

(** X5. A hex digest has 64 characters, so no hash starts with more than
    64 zeros: with a difficulty above 64 the search of [mine] outlasts
    every fuel, on every block that carries the hash of its contents.
    Hence the construction of a ledger never returns, and neither does
    [mine_pending] when something is pending on a non-empty chain. *)
Theorem difficulty_above_64_never_mines (d : Z) :
  64 < d ->
  (forall fuel b, hash b = calculate_hash b -> mine fuel b d = None)
  /\ (forall fuel now, __init__ fuel now d = None)
  /\ (forall fuel now self,
        difficulty self = d -> chain self <> [] -> pending_data self <> [] ->
        mine_pending fuel now self = None).
Proof.
  intros Hd.
  assert (forall b, hash b = calculate_hash b ->
                    startswith (hash b) (target d) = false) as Hno.
  { intros b Hb. destruct (startswith (hash b) (target d)) eqn:E;
      [|reflexivity].
    apply prefix_length in E. rewrite target_length, Hb in E.
    destruct (sha256_hexdigest_shape
                (str_encode
                   (pyjson.dumps
                      (JDict [ ("index", JInt (index b));
                               ("timestamp", JFloat (timestamp b));
                               ("data", data b);
                               ("previous_hash", JStr (previous_hash b));
                               ("nonce", JInt (nonce b)) ])))) as [Hl _].
    unfold calculate_hash in E. rewrite Hl in E. lia. }
  assert (forall fuel b, hash b = calculate_hash b -> mine fuel b d = None)
    as Hmine.
  { induction fuel as [|fuel IH]; intros b Hb; rewrite mine_unfold, (Hno b Hb);
      [reflexivity|].
    apply IH. reflexivity. }
  split; [exact Hmine|]. split.
  - intros fuel now. unfold __init__, _create_genesis_block. simpl.
    now rewrite Hmine.
  - intros fuel now self Hdiff Hc Hp. unfold mine_pending, latest_block.
    destruct (pending_data self) as [|p ps]; [contradiction|]. simpl.
    destruct (last (chain self)) as [latest|] eqn:Hl.
    + simpl. rewrite Hdiff, Hmine; reflexivity.
    + apply last_None in Hl. contradiction.
Qed.

Lemma difficulty_above_64_never_mines_witness :
  __init__ 1000 demo.t0 65 = None.
Proof.
  apply (difficulty_above_64_never_mines 65). lia.
Defined.

(** X6. A ledger with an empty chain (which a document with an empty
    chain loads as) validates, but with something pending on it
    [mine_pending] raises [IndexError], whatever the clock and the fuel,
    and leaves the ledger as it was: nothing is mined and nothing pending
    is lost. *)
Theorem empty_chain_cannot_be_mined (self : Blockchain) :
  chain self = [] ->
  from_dict (to_dict self) = Ok self
  /\ is_chain_valid self = true
  /\ get_messages self = Ok []
  /\ (pending_data self <> [] ->
      forall fuel now, mine_pending fuel now self = Some (Raise IndexError, self)).
Proof.
  intros Hc. destruct self as [ch pd df]. simpl in Hc. subst ch.
  repeat split.
  intros Hp fuel now. unfold mine_pending. simpl.
  now destruct pd.
Qed.

Lemma empty_chain_cannot_be_mined_witness :
  mine_pending 1 demo.t1 (mkBlockchain [] [demo.entry] 2)
  = Some (Raise IndexError, mkBlockchain [] [demo.entry] 2).
Proof.
  apply (empty_chain_cannot_be_mined (mkBlockchain [] [demo.entry] 2)).
  - reflexivity.
  - discriminate.
Defined.

(** X7. Whatever ledger one starts from, [add_data] and [mine_pending]
    only ever append: the blocks there stay where they are, unchanged;
    the difficulty stays; and the verdict of [is_chain_valid] stays what
    it was, true or false, since each block that [mine_pending] appends
    passes the checks against the last block. *)
Theorem ledger_is_append_only (self self' : Blockchain) :
  evolves self self' ->
  chain self `prefix_of` chain self'
  /\ difficulty self' = difficulty self
  /\ is_chain_valid self' = is_chain_valid self.
Proof.
  induction 1 as [self | self self' p _ IH
                 | self self' fuel now r self'' _ IH Hmine].
  - repeat split. reflexivity.
  - destruct IH as (Hp & Hd & Hv). repeat split; try assumption.
    rewrite <- Hv. now apply is_chain_valid_ext.
  - destruct IH as (Hp & Hd & Hv).
    destruct (mine_pending_cases _ _ _ _ _ Hmine)
      as [(_ & -> & _) | [(_ & -> & _) | (latest & b & _ & -> & Hl & _ & _ & _
                                           & _ & Hph & Hh & Hpow)]];
      [tauto | tauto |].
    simpl. split; [|split; [exact Hd|]].
    + etransitivity; [exact Hp|]. now apply prefix_app_r.
    + rewrite <- Hv. apply (is_chain_valid_append self' latest); [exact Hl|].
      apply check_block_true. tauto.
Qed.

#[local] Transparent hashlib.sha256_hexdigest pyjson.dumps.

Lemma ledger_is_append_only_witness :
  chain demo.ledger0 `prefix_of` chain demo.ledger1
  /\ is_chain_valid demo.ledger1 = is_chain_valid demo.ledger0.
Proof.
  destruct (ledger_is_append_only demo.ledger0 demo.ledger1) as (Hp & _ & Hv).
  - apply (evolves_mine_pending _ (add_data demo.entry demo.ledger0) 1 demo.t1
             (Ok (Some demo.block1))).
    + apply evolves_add_data. apply evolves_refl.
    + vm_compute. reflexivity.
  - split; assumption.
Defined.

#[local] Opaque hashlib.sha256_hexdigest pyjson.dumps.

(** X8. Validation reads nothing of the first block but its stored hash:
    rewriting the first block in any way that keeps that hash (its index,
    timestamp, data, previous hash or nonce) leaves the verdict as it
    was. A chain of fewer than two blocks validates whatever it holds. *)
Theorem validation_reads_only_hash_of_genesis
    (f : Block -> Block) (self : Blockchain) :
  (forall b, hash (f b) = hash b) ->
  is_chain_valid (rewrite_genesis f self) = is_chain_valid self
  /\ ((length (chain self) < 2)%nat -> is_chain_valid self = true).
Proof.
  intros Hf. split.
  - apply Bool.eq_iff_eq_true. rewrite !is_chain_valid_true. simpl.
    split; intros H i current previous Hi Hc Hp.
    + destruct (decide (i = 1%nat)) as [->|Hne].
      * specialize (H 1%nat current (f previous) Hi).
        rewrite list_lookup_alter_ne in H by lia.
        simpl in Hp. rewrite list_lookup_alter_eq in H. simpl in H.
        rewrite Hp in H. specialize (H Hc eq_refl). now rewrite Hf in H.
      * apply (H i current previous Hi).
        -- rewrite list_lookup_alter_ne by lia. exact Hc.
        -- rewrite list_lookup_alter_ne by lia. exact Hp.
    + rewrite list_lookup_alter_ne in Hc by lia.
      destruct (decide (i = 1%nat)) as [->|Hne].
      * simpl in Hp. rewrite list_lookup_alter_eq in Hp.
        destruct (chain self !! 0%nat) as [g|] eqn:Hg; [|discriminate].
        injection Hp as <-. rewrite Hf. now apply (H 1%nat current g Hi).
      * rewrite list_lookup_alter_ne in Hp by lia.
        now apply (H i current previous Hi).
  - intros Hlen. apply is_chain_valid_true.
    intros i current previous Hi Hc _. apply lookup_lt_Some in Hc. lia.
Qed.

Lemma validation_reads_only_hash_of_genesis_witness :
  is_chain_valid (rewrite_genesis (set_nonce 77) demo.ledger1)
  = is_chain_valid demo.ledger1.
Proof.
  exact (proj1 (validation_reads_only_hash_of_genesis
                  (set_nonce 77) demo.ledger1 (fun b => eq_refl))).
Defined.

(** X9. Validation does not notice blocks that are missing at the end: a
    chain that validates still validates after it has been cut back to
    any number of its first blocks. *)
Theorem truncated_chain_still_validates (self : Blockchain) (n : nat) :
  is_chain_valid self = true -> is_chain_valid (truncate n self) = true.
Proof.
  rewrite !is_chain_valid_true. intros H i current previous Hi Hc Hp.
  simpl in Hc, Hp.
  apply lookup_take_Some in Hc. apply lookup_take_Some in Hp.
  apply (H i current previous Hi); tauto.
Qed.

#[local] Transparent hashlib.sha256_hexdigest pyjson.dumps.

Lemma truncated_chain_still_validates_witness :
  is_chain_valid (truncate 1 demo.ledger1) = true.
Proof.
  apply (truncated_chain_still_validates demo.ledger1 1).
  vm_compute. reflexivity.
Defined.

#[local] Opaque hashlib.sha256_hexdigest pyjson.dumps.





(** X12. The duplication of the last hash makes two lists share a root: a
    list of an odd number of items, three or more, has the same Merkle
    root as the list with its last item repeated once more. *)
Theorem merkle_root_of_repeated_last (data_list : list bytes) (x : bytes) :
  Nat.odd (length data_list) = true ->
  (1 < length data_list)%nat ->
  last data_list = Some x ->
  calculate_merkle_root (data_list ++ [x]) = calculate_merkle_root data_list.
Proof.
  intros Hodd Hlen Hlast. unfold calculate_merkle_root. unfold bytes in *.
  destruct data_list as [|y l] eqn:El; [simpl in Hlen; lia|].
  rewrite <- El in *. clear El y l.
  assert (list_truthy (data_list ++ [x]) = true) as ->
    by now destruct data_list.
  assert (list_truthy data_list = true) as ->
    by (destruct data_list; [simpl in Hlen; lia | reflexivity]).
  cbn [negb]. rewrite map_app. simpl map.
  set (h := hashlib.sha256_hexdigest).
  set (hashes := map h data_list).
  assert (length hashes = length data_list) as Hl by apply length_map.
  assert (last hashes = Some (h x)) as Hlh.
  { unfold hashes. now rewrite last_map, Hlast. }
  assert (duplicate_last hashes = hashes ++ [h x]) as Hdup.
  { unfold duplicate_last. now rewrite Hl, Hodd, Hlh. }
  assert (duplicate_last (hashes ++ [h x]) = hashes ++ [h x]) as Hdup'.
  { unfold duplicate_last. rewrite length_app, Hl. simpl.
    replace (length data_list + 1)%nat with (S (length data_list)) by lia.
    rewrite Nat.odd_succ, <- Nat.negb_odd, Hodd. reflexivity. }
  rewrite length_app. simpl length.
  replace (length hashes + 1)%nat with (S (length hashes)) by lia.
  destruct (length hashes) as [|n] eqn:En; [lia|].
  cbn [merkle_loop]. rewrite length_app, En. simpl length.
  assert ((1 <? S n + 1)%nat = true) as -> by (apply Nat.ltb_lt; lia).
  assert ((1 <? S n)%nat = true) as -> by (apply Nat.ltb_lt; lia).
  rewrite Hdup, Hdup'.
  pose proof (level_shrinks hashes ltac:(lia)) as Hs. rewrite Hdup in Hs.
  change (if (1 <? length (next_level (hashes ++ [h x])))%nat
          then _ else _)
    with (merkle_loop (S n) (next_level (hashes ++ [h x]))).
  rewrite (merkle_loop_fuel (S n) _ n); [reflexivity | lia | lia].
Qed.

#[local] Transparent hashlib.sha256_hexdigest pyjson.dumps.

Lemma merkle_root_of_repeated_last_witness :
  let items := map str_encode ["a"; "b"; "c"]%string in
  calculate_merkle_root (items ++ [str_encode "c"])
  = calculate_merkle_root items.
Proof.
  apply (merkle_root_of_repeated_last
           (map str_encode ["a"; "b"; "c"]%string) (str_encode "c"));
    [reflexivity | simpl; lia | reflexivity].
Defined.

#[local] Opaque hashlib.sha256_hexdigest pyjson.dumps.

(** X13. Every hash the ledger computes is a hex digest, 64 characters
    among [0-9a-f]: the hash of a block, whatever its fields, and the
    Merkle root of a list, whatever its length; on a non-empty list the
    final [hashes[0]] always finds its one hash. *)
Theorem hashes_are_hex_digests :
  (forall b, hex_digest (calculate_hash b))
  /\ (forall data_list, hex_digest (calculate_merkle_root data_list))
  /\ (forall data_list,
        data_list <> [] ->
        merkle_loop (length data_list)
                    (map hashlib.sha256_hexdigest data_list)
        = [calculate_merkle_root data_list]).
Proof.
  split; [|split].
  - intros b. apply sha256_hexdigest_shape.
  - intros data_list. destruct data_list as [|x l] eqn:E.
    + apply sha256_hexdigest_shape.
    + rewrite <- E.
      assert (data_list <> []) as Hne by (subst; discriminate).
      pose proof (merkle_root_nonempty data_list Hne) as Hroot.
      assert (Forall hex_digest
                (merkle_loop (length data_list)
                   (map hashlib.sha256_hexdigest data_list))) as Hall.
      { apply merkle_loop_digests. apply Forall_map, Forall_forall.
        intros y _. apply sha256_hexdigest_shape. }
      rewrite Hroot in Hall. now inversion Hall.
  - apply merkle_root_nonempty.
Qed.

(** X14. The message history of a ledger built by the code is the list of
    the payloads mined so far, in the order in which they were added:
    [mine_pending] adds to it what was pending, and what is still pending
    is not in it. *)
Theorem get_messages_is_mined_history
    (self : Blockchain) (mined : list json) :
  built self mined -> get_messages self = Ok mined.
Proof.
  intros B.
  assert (chain self <> [] /\ get_messages self = Ok mined) as [_ H];
    [|exact H].
  induction B as [fuel now d self Hinit | self mined p _ IH
                 | self mined fuel now r self' _ IH Hmine].
  - destruct (init_returns _ _ _ _ Hinit) as (g & -> & _).
    split; [discriminate | reflexivity].
  - exact IH.
  - destruct IH as [Hne Hget].
    destruct (mine_pending_cases _ _ _ _ _ Hmine)
      as [(_ & -> & ->) | [(_ & -> & Hc & _) | (latest & b & _ & -> & _ & _ & _
                                                  & _ & Hd & _)]].
    + now rewrite app_nil_r.
    + contradiction.
    + split; [simpl; now destruct (chain self)|].
      unfold get_messages in *. simpl.
      destruct (chain self) as [|g rest]; [contradiction|]. simpl in *.
      rewrite get_messages_loop_app, Hget. simpl. rewrite Hd. reflexivity.
Qed.

#[local] Transparent hashlib.sha256_hexdigest pyjson.dumps.

Lemma get_messages_is_mined_history_witness :
  get_messages demo.ledger1 = Ok [demo.entry].
Proof.
  apply (get_messages_is_mined_history demo.ledger1 [demo.entry]).
  apply (built_mine_pending (add_data demo.entry demo.ledger0) [] 1 demo.t1
           (Ok (Some demo.block1))).
  - apply built_add_data.
    apply (built_init 1 demo.t0 1). vm_compute. reflexivity.
  - vm_compute. reflexivity.
Defined.

End ledger_extras.

(** * The engine: further properties *)

Module engine_more_facts.
Import collaborators engine engine_model engine_facts engine_more.
Import ledger_more ledger_more_lemmas.

Lemma decode_encode text :
  is_str text = true -> bytes_decode (str_encode text) = Ok text.
Proof.
  unfold is_str, bytes_decode.
  destruct (utf8.code_points _); [|discriminate].
  intros _. unfold str_encode. now rewrite string_of_list_byte_of_string.
Qed.

Lemma invoked_app t1 t2 : invoked (t1 ++ t2) = invoked t1 ++ invoked t2.
Proof. apply omap_app. Qed.

Lemma sent_app t1 t2 : sent (t1 ++ t2) = sent t1 ++ sent t2.
Proof. apply omap_app. Qed.

Lemma ledger_added_app t1 t2 :
  ledger_added (t1 ++ t2) = ledger_added t1 ++ ledger_added t2.
Proof. apply omap_app. Qed.

Lemma constructed_app t1 t2 :
  constructed (t1 ++ t2) = constructed t1 ++ constructed t2.
Proof. apply omap_app. Qed.

(** *** Steps of the ledger *)

Lemma ledger_steps_trans es2 b c :
  ledger_steps es2 b c ->
  forall es1 a, ledger_steps es1 a b -> ledger_steps (es1 ++ es2) a c.
Proof.
  induction 1 as [bc | es bc bc' entry _ IH | es bc bc' fuel now r bc'' _ IH Hm];
    intros es1 a Ha.
  - now rewrite app_nil_r.
  - rewrite app_assoc. apply ledger_steps_add. now apply IH.
  - eapply ledger_steps_mine; [now apply IH | exact Hm].
Qed.

Lemma ledger_steps_evolves es bc bc' :
  ledger_steps es bc bc' -> evolves bc bc'.
Proof.
  induction 1 as [bc | es bc bc' entry _ IH | es bc bc' fuel now r bc'' _ IH Hm].
  - constructor.
  - now constructor.
  - econstructor; eassumption.
Qed.

(** The history and what is pending, together, grow by the entries
    added. *)
Lemma ledger_steps_history es bc bc' :
  ledger_steps es bc bc' ->
  forall ms, blockchain.get_messages bc = Ok ms ->
  exists ms',
    blockchain.get_messages bc' = Ok ms'
    /\ ms' ++ blockchain.pending_data bc'
       = ms ++ blockchain.pending_data bc ++ es.
Proof.
  induction 1 as [bc | es bc bc' entry _ IH | es bc bc' fuel now r bc'' _ IH Hm];
    intros ms Hms.
  - exists ms. now rewrite app_nil_r.
  - destruct (IH ms Hms) as (ms' & H1 & H2). exists ms'. split; [exact H1|].
    simpl. rewrite app_assoc, H2, <- !app_assoc. reflexivity.
  - destruct (IH ms Hms) as (ms' & H1 & H2).
    destruct (mine_pending_cases _ _ _ _ _ Hm)
      as [(_ & -> & _) | [(_ & -> & _) | (latest & b & _ & -> & Hl & _ & _ & _
                                            & Hd & _)]].
    + now exists ms'.
    + now exists ms'.
    + exists (ms' ++ blockchain.pending_data bc'). split.
      * now apply (get_messages_mined bc' latest b).
      * simpl. now rewrite app_nil_r.
Qed.

Section facts.

Context {collab : Collaborators}.

(** *** What the engine does to itself *)

Lemma grows_refl w : grows w w.
Proof.
  repeat split; [reflexivity|]. exists []. rewrite app_nil_r.
  repeat split. constructor.
Qed.

Lemma grows_trans w1 w2 w3 : grows w1 w2 -> grows w2 w3 -> grows w1 w3.
Proof.
  intros (W1 & C1 & t1 & T1 & L1 & M1) (W2 & C2 & t2 & T2 & L2 & M2).
  split; [congruence|]. split; [now transitivity (_message_callbacks (self w2))|].
  exists (t1 ++ t2). rewrite T2, T1, app_assoc, ledger_added_app.
  repeat split.
  - eapply ledger_steps_trans; eassumption.
  - rewrite forallb_app, M1, M2. reflexivity.
Qed.

(** A step that leaves wallet, observers and ledger alone and adds no
    ledger entry. *)
Lemma grows_quiet w w' t :
  wallet (self w') = wallet (self w) ->
  _message_callbacks (self w') = _message_callbacks (self w) ->
  ledger w' = ledger w ->
  trace w' = trace w ++ t ->
  ledger_added t = [] ->
  grows w w'.
Proof.
  intros HW HC HL HT HA. split; [exact HW|]. split; [now rewrite HC|].
  exists t. rewrite HA, HL. repeat split; [exact HT | constructor].
Qed.

Lemma tame_ret {A} (a : A) : tame (ret a).
Proof. intros w. apply grows_refl. Qed.

Lemma tame_raise {A} (e : pyexn) : tame (@raise _ A e).
Proof. intros w. apply grows_refl. Qed.

Lemma tame_lift {A} (r : result A) : tame (lift r).
Proof. intros w. apply grows_refl. Qed.

Lemma tame_get_self : tame get_self.
Proof. intros w. apply grows_refl. Qed.

Lemma tame_bind {A B} (m : M A) (f : A -> M B) :
  tame m -> (forall a, tame (f a)) -> tame (bind m f).
Proof.
  intros Hm Hf w. unfold bind, after. specialize (Hm w). unfold after in Hm.
  destruct (m w) as [[a|e] w']; simpl in *; [|exact Hm].
  eapply grows_trans; [exact Hm | apply Hf].
Qed.

Lemma tame_try_except {A} (body : M A) caught handler :
  tame body -> (forall e, tame (handler e)) ->
  tame (try_except body caught handler).
Proof.
  intros Hb Hh w. unfold try_except, after. specialize (Hb w).
  unfold after in Hb.
  destruct (body w) as [[a|e] w']; simpl in *; [exact Hb|].
  destruct (caught e); [|exact Hb].
  eapply grows_trans; [exact Hb | apply Hh].
Qed.

Lemma tame_for_each {X} (l : list X) (body : X -> M unit) :
  (forall x, tame (body x)) -> tame (for_each l body).
Proof.
  intros Hb. induction l as [|x l IH]; simpl.
  - apply tame_ret.
  - apply tame_bind; [apply Hb | intros _; exact IH].
Qed.

Lemma tame_emit ev :
  match ev with LedgerAdd _ => False | _ => True end -> tame (emit ev).
Proof.
  intros H w. apply (grows_quiet _ _ [ev]); try reflexivity.
  now destruct ev.
Qed.

Lemma tame_logger lvl msg : tame (logger lvl msg).
Proof. now apply tame_emit. Qed.

Lemma tame_blockchain_add_data entry :
  metadata_only entry = true -> tame (blockchain_add_data entry).
Proof.
  intros H w. split; [reflexivity|]. split; [reflexivity|].
  exists [LedgerAdd entry]. repeat split.
  - apply (ledger_steps_add []). constructor.
  - simpl. now rewrite H.
Qed.

Lemma tame_p2p_send_message message recipient_id :
  tame (p2p_send_message message recipient_id).
Proof.
  intros w. now apply (grows_quiet _ _ [Send message recipient_id]).
Qed.

Lemma tame_await_callback callback received :
  tame (await_callback callback received).
Proof.
  intros w. unfold await_callback, bind, emit, lift, after. simpl.
  apply (grows_quiet _ _ [Invoke callback received]);
    now destruct (callback received).
Qed.

Lemma tame_on_message callback : tame (on_message callback).
Proof.
  intros w. split; [reflexivity|]. split; [now apply prefix_app_r|].
  exists []. simpl. rewrite app_nil_r. repeat split. constructor.
Qed.

Lemma tame_get_shared_secret peer : tame (_get_shared_secret peer).
Proof.
  intros w. destruct (opt_bytes_truthy (encryption_key peer)) eqn:H.
  - rewrite get_shared_secret_key by exact H. unfold after. simpl.
    destruct (looked_up_self peer w) as (HW & _ & HL & HC & t & HT & HQ).
    apply (grows_quiet _ _ t); try assumption.
    now apply derive_only_is_quiet.
  - rewrite get_shared_secret_no_key by exact H. apply grows_refl.
Qed.

Lemma tame_handle_stream_message message peer :
  tame (_handle_stream_message message peer).
Proof.
  intros w. unfold _handle_stream_message.
  destruct (chunk_info message) as [info|]; [|apply grows_refl].
  unfold bind, get_self, put_self, logger, emit, ret, after. simpl.
  destruct (add_chunk _ (reassembler (self w))) as [completed r]. simpl.
  destruct (opt_bytes_truthy completed); simpl.
  - now apply (grows_quiet _ _ [Log INFO "Stream complete"]).
  - apply (grows_quiet _ _ []); try reflexivity. simpl. now rewrite app_nil_r.
Qed.

Create HintDb tame.
#[local] Hint Resolve tame_ret tame_raise tame_lift tame_get_self
  tame_logger tame_p2p_send_message tame_await_callback tame_on_message
  tame_get_shared_secret tame_handle_stream_message : tame.

(** Takes a computation apart along its binds and case distinctions. *)
Ltac tame_step :=
  match goal with
  | |- tame (bind _ _) => apply tame_bind; [|intros]
  | |- tame (try_except _ _ _) => apply tame_try_except; [|intros]
  | |- tame (for_each _ _) => apply tame_for_each; intros
  | |- tame (blockchain_add_data _) =>
      apply tame_blockchain_add_data; reflexivity
  | |- tame (emit _) => apply tame_emit; exact I
  | |- tame (if ?b then _ else _) => destruct b
  | |- tame (match ?x with _ => _ end) => destruct x
  | |- tame _ => solve [auto with tame]
  end.

Lemma tame_send_text amb recipient_id text encrypt :
  tame (send_text amb recipient_id text encrypt).
Proof.
  unfold send_text. apply tame_bind; [auto with tame|]. intros e.
  destruct (get_peer (p2p_node e) recipient_id) as [peer|];
    repeat tame_step.
Qed.

Lemma tame_broadcast_text amb text : tame (broadcast_text amb text).
Proof. unfold broadcast_text. repeat tame_step. Qed.

Lemma tame_deliver_text message peer v content :
  tame (deliver_text message peer v content).
Proof. unfold deliver_text. repeat tame_step. Qed.

Lemma tame_handle_text_message message peer v :
  tame (_handle_text_message message peer v).
Proof.
  pose proof tame_deliver_text.
  unfold _handle_text_message. repeat tame_step; auto.
Qed.

Lemma tame_handle_incoming message peer :
  tame (_handle_incoming message peer).
Proof.
  pose proof tame_handle_text_message.
  unfold _handle_incoming. repeat tame_step; auto.
Qed.

Lemma grows_mine_pending fuel now w r w' :
  mine_pending fuel now w = Some (r, w') -> grows w w'.
Proof.
  unfold mine_pending.
  destruct (blockchain.mine_pending fuel now (blockchain (self w)))
    as [[r0 bc]|] eqn:E; [|discriminate].
  assert (forall t, ledger_added t = [] ->
            grows w (mkWorld (mkEngine (wallet (self w)) (p2p_node (self w)) bc
                                (reassembler (self w))
                                (_message_callbacks (self w))
                                (_shared_secrets (self w)))
                             (trace w ++ t))) as G.
  { intros t Ht. split; [reflexivity|]. split; [reflexivity|].
    exists t. rewrite Ht. repeat split.
    eapply ledger_steps_mine; [constructor | exact E]. }
  destruct r0 as [[block|]|ex]; intros H; injection H as <- <-.
  - now apply (G [Log INFO "Mined block"]).
  - rewrite <- (app_nil_r (trace w)). now apply G.
  - rewrite <- (app_nil_r (trace w)). now apply G.
Qed.

Lemma grows_step_call c w w' : step c w = Some w' -> grows w w'.
Proof.
  destruct c as [cb | peer | amb r t enc | amb t | m peer | fuel clock | node];
    simpl; intros H; try (injection H as <-).
  - apply tame_on_message.
  - apply tame_get_shared_secret.
  - apply tame_send_text.
  - apply tame_broadcast_text.
  - apply tame_handle_incoming.
  - destruct (mine_pending fuel clock w) as [[r w1]|] eqn:E; [|discriminate].
    injection H as <-. eapply grows_mine_pending. exact E.
  - apply (grows_quiet _ _ []); try reflexivity. simpl. now rewrite app_nil_r.
Qed.

Lemma grows_run cs : forall w w', run cs w = Some w' -> grows w w'.
Proof.
  induction cs as [|c cs IH]; simpl; intros w w' H.
  - injection H as <-. apply grows_refl.
  - destruct (step c w) as [w1|] eqn:E; [|discriminate]. simpl in H.
    eapply grows_trans; [eapply grows_step_call; exact E | auto].
Qed.

Lemma derived_observer_events pid callbacks received :
  derived pid (observer_events callbacks received) = [].
Proof.
  induction callbacks as [|cb callbacks IH]; [reflexivity|].
  simpl. destruct (cb received); simpl; exact IH.
Qed.

(** *** Outbound text, run *)

Lemma send_text_outgoing amb recipient_id text encrypt peer w :
  get_peer (p2p_node (self w)) recipient_id = Some peer ->
  let w1 := if encrypt && opt_bytes_truthy (encryption_key peer)
            then looked_up peer w else w in
  let message :=
    text_message amb (self w) recipient_id
      (snd (outgoing amb w peer text encrypt))
      (fst (outgoing amb w peer text encrypt)) in
  let answer := send_message (p2p_node (self w)) message recipient_id in
  send_text amb recipient_id text encrypt w
  = (Ok answer,
     mkWorld (with_entry (message_entry message) (self w1))
             (trace w1
              ++ [LedgerAdd (message_entry message); Send message recipient_id]
              ++ (if answer then [Log INFO "Sent message"] else []))).
Proof.
  intros Hp. cbv zeta. unfold outgoing.
  unfold send_text, bind at 1, get_self. simpl. rewrite Hp.
  destruct (encrypt && opt_bytes_truthy (encryption_key peer)) eqn:Henc.
  - apply andb_prop in Henc. destruct Henc as [_ Hk].
    unfold bind at 1. unfold bind at 1.
    rewrite (get_shared_secret_key peer w Hk).
    destruct (looked_up_self peer w) as (_ & HN & _).
    change (opt_bytes_truthy (Some (secret_for w peer)))
      with (list_truthy (secret_for w peer)).
    simpl. destruct (list_truthy (secret_for w peer)).
    + destruct (encrypt_message (entropy amb) (str_encode text)
                  (secret_for w peer)) as [n c] eqn:Ee.
      simpl.
      pose proof (record_and_dispatch_run
                    (text_message amb (self w) recipient_id c (Some n))
                    recipient_id (looked_up peer w)) as R.
      cbv zeta in R. rewrite HN in R. exact R.
    + pose proof (record_and_dispatch_run
                    (text_message amb (self w) recipient_id (str_encode text)
                       None)
                    recipient_id (looked_up peer w)) as R.
      cbv zeta in R. rewrite HN in R. exact R.
  - simpl.
    exact (record_and_dispatch_run
             (text_message amb (self w) recipient_id (str_encode text) None)
             recipient_id w).
Qed.

(** The dispatch of a verified text that decrypts (where that applies)
    and decodes. *)
Lemma handle_incoming_delivers message peer w content text :
  verified message peer = true ->
  type message = TEXT ->
  incoming_content w message peer = Ok content ->
  bytes_decode content = Ok text ->
  let w1 := after_lookup message peer w in
  _handle_incoming message peer w
  = (Ok tt,
     mkWorld (with_entry (received_entry message) (self w1))
             (trace w1
              ++ [Construct (received_of message text);
                  LedgerAdd (received_entry message)]
              ++ observer_events (_message_callbacks (self w1))
                                 (received_of message text)
              ++ [Send (ack_of (self w1) message) (peer_id peer)])).
Proof.
  intros Hv Ht Hc Hd. cbv zeta.
  rewrite (handle_incoming_verified _ _ _ Hv), Ht, handle_text_message_run, Hc.
  now rewrite (deliver_text_decoded _ _ _ _ _ _ Hd).
Qed.

End facts.

End engine_more_facts.

(** * The engine: further theorems *)

Module engine_extras.
Import collaborators engine engine_model engine_facts engine_more
       engine_more_facts.
Import ledger_more ledger_more_lemmas.

Section extras.

Context {collab : Collaborators}.

(** Reduces the projections of a world that is written out. *)
Ltac world_simpl :=
  cbn [trace self wallet p2p_node blockchain reassembler _message_callbacks
       _shared_secrets after snd with_entry].

(** X15. An encrypted text arrives as it was sent. When [send_text]
    encrypts [text] for a known recipient under a non-empty shared secret,
    and the receiving engine verifies the message, derives the same
    secret for the sender, and decryption inverts encryption under the
    non-empty nonce chosen, then every observer of the receiver is handed
    a [ReceivedMessage] with exactly [text], the id, the timestamp and the
    address of the sender's message and the sender's wallet name, and the
    acknowledgment goes back; the sender's ledger gets the entry of the
    message sent and the receiver's the entry of the same message
    received. *)
Theorem encrypted_text_round_trip
    (amb : ambient) (recipient_id text : string) (bob alice : Peer)
    (wa wb : world) :
  let secret := secret_for wa bob in
  let sealed := encrypt_message (entropy amb) (str_encode text) secret in
  let message :=
    text_message amb (self wa) recipient_id (snd sealed) (Some (fst sealed)) in
  get_peer (p2p_node (self wa)) recipient_id = Some bob ->
  opt_bytes_truthy (encryption_key bob) = true ->
  list_truthy secret = true ->
  is_str text = true ->
  verified message alice = true ->
  opt_bytes_truthy (encryption_key alice) = true ->
  secret_for wb alice = secret ->
  list_truthy (fst sealed) = true ->
  decrypt_message (snd sealed) secret (fst sealed) = Ok (str_encode text) ->
  exists wa' wb',
    send_text amb recipient_id text true wa
    = (Ok (send_message (p2p_node (self wa)) message recipient_id), wa')
    /\ sent (trace wa') = sent (trace wa) ++ [(message, recipient_id)]
    /\ ledger wa' = blockchain.add_data (message_entry message) (ledger wa)
    /\ _handle_incoming message alice wb = (Ok tt, wb')
    /\ invoked (trace wb')
       = invoked (trace wb)
         ++ map (fun callback => (callback, received_from amb (self wa) text))
                (_message_callbacks (self wb))
    /\ sent (trace wb')
       = sent (trace wb) ++ [(ack_of (self wb) message, peer_id alice)]
    /\ ledger wb' = blockchain.add_data (received_entry message) (ledger wb).
Proof.
  intros secret sealed message Hp Hk Hs Hstr Hv Hka Hsec Hn Hdec.
  pose proof (send_text_outgoing amb recipient_id text true bob wa Hp) as S.
  cbv zeta in S.
  assert (outgoing amb wa bob text true = (Some (fst sealed), snd sealed))
    as Ho.
  { unfold outgoing. simpl. rewrite Hk. fold secret. rewrite Hs. simpl.
    fold sealed. now destruct sealed. }
  rewrite Ho in S. simpl fst in S. simpl snd in S. fold message in S.
  rewrite Hk in S. simpl in S.
  destruct (looked_up_self bob wa) as (_ & _ & HLa & _ & ta & HTa & HQa).
  apply derive_only_is_quiet in HQa. destruct HQa as (_ & HSa & _).
  assert (incoming_content wb message alice = Ok (str_encode text)) as Hc.
  { unfold incoming_content, decryption_attempted.
    change (nonce message) with (Some (fst sealed)).
    change (content message) with (snd sealed).
    change (opt_bytes_truthy (Some (fst sealed)))
      with (list_truthy (fst sealed)).
    rewrite Hn, Hka, Hsec, Hs. simpl. exact Hdec. }
  pose proof (handle_incoming_delivers message alice wb _ text Hv eq_refl Hc
                (decode_encode text Hstr)) as R.
  cbv zeta in R.
  destruct (after_lookup_self message alice wb)
    as (HWb & _ & HLb & HCb & tb & HTb & HQb).
  apply derive_only_is_quiet in HQb. destruct HQb as (_ & HSb & HIb & _).
  destruct (quiet_observer_events (_message_callbacks (self wb))
              (received_of message text)) as (HOs & _).
  eexists. eexists. split; [exact S|]. split.
  { simpl. rewrite HTa, !sent_app, HSa. simpl.
    destruct (send_message _ _ _); simpl; now rewrite ?app_nil_r. }
  split. { unfold ledger. simpl. now rewrite HLa. }
  split; [exact R|]. split.
  { world_simpl.
    rewrite HTb, HCb, !invoked_app, HIb, invoked_observer_events.
    simpl. now rewrite !app_nil_r. }
  split.
  { world_simpl. rewrite HTb, HCb, !sent_app, HSb, HOs. simpl.
    unfold ack_of. now rewrite HWb, app_nil_r. }
  unfold ledger. simpl. now rewrite HLb.
Qed.

(** X16. [broadcast_text] never encrypts and never looks at a peer or a
    secret: it signs a TEXT message for the recipient ["*"] whose content
    is the encoded text and which has no nonce, records one entry
    [{type: "broadcast", id, sender, timestamp}] and hands the message to
    the directory's broadcast, whose count it returns. An engine that
    receives this message and verifies it hands [text] itself to all
    its observers, without deriving any secret, whether or not it has an
    encryption key for the sender. *)
Theorem broadcast_is_clear_text
    (amb : ambient) (text : string) (alice : Peer) (wa wb : world) :
  let message := broadcast_message amb (self wa) text in
  is_str text = true ->
  verified message alice = true ->
  broadcast_text amb text wa
  = (Ok (broadcast (p2p_node (self wa)) message),
     mkWorld (with_entry (broadcast_entry message) (self wa))
             (trace wa ++ [LedgerAdd (broadcast_entry message);
                           Broadcast message]))
  /\ recipient message = "*"
  /\ content message = str_encode text
  /\ nonce message = None
  /\ exists wb',
       _handle_incoming message alice wb = (Ok tt, wb')
       /\ invoked (trace wb')
          = invoked (trace wb)
            ++ map (fun callback =>
                      (callback, received_from amb (self wa) text))
                   (_message_callbacks (self wb))
       /\ secrets wb' = secrets wb
       /\ forall pid, derived pid (trace wb') = derived pid (trace wb).
Proof.
  intros message Hstr Hv. split.
  { unfold broadcast_text, bind, get_self, blockchain_add_data, bind,
      get_self, put_self, emit, ret. simpl. rewrite <- app_assoc.
    reflexivity. }
  repeat split.
  assert (incoming_content wb message alice = Ok (str_encode text)) as Hc
    by reflexivity.
  pose proof (handle_incoming_delivers message alice wb _ text Hv eq_refl Hc
                (decode_encode text Hstr)) as R.
  cbv zeta in R. change (after_lookup message alice wb) with wb in R.
  eexists. split; [exact R|]. world_simpl. repeat split.
  - rewrite !invoked_app, invoked_observer_events. simpl.
    rewrite app_nil_r. reflexivity.
  - intros pid. rewrite !derived_app. simpl.
    rewrite derived_observer_events. simpl. now rewrite app_nil_r.
Qed.

(** X17. [send_text] encrypts only when it is asked to, the recipient has
    an encryption key and the shared secret is not empty. Without the
    request or without the key the text goes out in clear, with no nonce,
    and the cache of secrets is neither read nor written. With both, the
    secret is cached, and the message carries the nonce and ciphertext of
    [encrypt_message] - or, when the secret derived is empty, the text in
    clear again. *)
Theorem send_text_encrypts_only_with_a_key
    (amb : ambient) (recipient_id text : string) (encrypt : bool)
    (peer : Peer) (w : world) :
  get_peer (p2p_node (self w)) recipient_id = Some peer ->
  exists message w',
    send_text amb recipient_id text encrypt w
    = (Ok (send_message (p2p_node (self w)) message recipient_id), w')
    /\ sent (trace w') = sent (trace w) ++ [(message, recipient_id)]
    /\ (encrypt = false \/ opt_bytes_truthy (encryption_key peer) = false ->
        nonce message = None /\ content message = str_encode text
        /\ secrets w' = secrets w
        /\ forall pid, derived pid (trace w') = derived pid (trace w))
    /\ (encrypt = true -> opt_bytes_truthy (encryption_key peer) = true ->
        let sealed := encrypt_message (entropy amb) (str_encode text)
                        (secret_for w peer) in
        secrets w' !! peer_id peer = Some (secret_for w peer)
        /\ (list_truthy (secret_for w peer) = true ->
            nonce message = Some (fst sealed) /\ content message = snd sealed)
        /\ (list_truthy (secret_for w peer) = false ->
            nonce message = None /\ content message = str_encode text)).
Proof.
  intros Hp.
  pose proof (send_text_outgoing amb recipient_id text encrypt peer w Hp) as S.
  cbv zeta in S. eexists. eexists. split; [exact S|].
  destruct (looked_up_self peer w) as (_ & _ & _ & _ & t & HT & HQ).
  apply derive_only_is_quiet in HQ. destruct HQ as (_ & HS & _).
  split.
  { world_simpl. destruct (encrypt && opt_bytes_truthy (encryption_key peer));
      rewrite ?HT, !sent_app, ?HS; simpl;
      destruct (send_message _ _ _); simpl; now rewrite ?app_nil_r. }
  split.
  - intros Hclear.
    assert (encrypt && opt_bytes_truthy (encryption_key peer) = false) as E.
    { destruct Hclear as [-> | ->]; [reflexivity | apply andb_false_r]. }
    unfold outgoing. rewrite E. simpl. repeat split.
    intros pid. rewrite !derived_app.
    match goal with |- context [if ?b then _ else _] => destruct b end;
      simpl; now rewrite app_nil_r.
  - intros -> Hk. cbv zeta. unfold outgoing. rewrite Hk. simpl. split.
    { unfold looked_up, secret_for, secrets.
      destruct (_shared_secrets (self w) !! peer_id peer) eqn:E; simpl.
      - exact E.
      - unfold secret_for, secrets. rewrite E. apply lookup_insert_eq. }
    split; intros ->; simpl; [|easy].
    now destruct (encrypt_message _ _ _).
Qed.

(** X18. A verified message that is not a TEXT is never delivered:
    [_handle_incoming] returns normally, no [ReceivedMessage] is built,
    no observer invoked, no ledger entry added, nothing sent (no
    acknowledgment either), and ledger, observers and secrets are as
    before. For an ACK the engine is unchanged and one debug line is
    logged. A stream message without chunk information changes nothing at
    all; with it, the reassembler is fed one chunk holding the content as
    received (it is not decrypted, whatever the nonce). *)
Theorem verified_non_text_is_not_delivered
    (message : MessagePayload) (peer : Peer) (w : world) :
  verified message peer = true ->
  type message <> TEXT ->
  exists w' done,
    _handle_incoming message peer w = (Ok tt, w')
    /\ trace w' = trace w ++ done
    /\ constructed done = [] /\ invoked done = []
    /\ ledger_added done = [] /\ sent done = []
    /\ ledger w' = ledger w
    /\ _message_callbacks (self w') = _message_callbacks (self w)
    /\ secrets w' = secrets w
    /\ (type message = ACK ->
        self w' = self w /\ done = [Log DEBUG "Received ACK"])
    /\ (type message <> ACK ->
        match chunk_info message with
        | None => w' = w
        | Some info =>
            reassembler (self w')
            = snd (add_chunk (mkChunk (ci_stream_id info) (ci_sequence info)
                                      (ci_total info) (content message))
                             (reassembler (self w)))
        end).
Proof.
  intros Hv Ht. rewrite (handle_incoming_verified _ _ _ Hv).
  assert (type message = ACK
          \/ (type message <> ACK
              /\ match type message with
                 | TEXT => _handle_text_message message peer true w
                 | ACK => logger DEBUG "Received ACK" w
                 | _ => _handle_stream_message message peer w
                 end = _handle_stream_message message peer w)) as [E | [E ->]].
  { destruct (type message); try contradiction; auto;
      right; split; try discriminate; reflexivity. }
  - rewrite E. eexists. exists [Log DEBUG "Received ACK"].
    split; [reflexivity|]. repeat split; congruence.
  - unfold _handle_stream_message.
    destruct (chunk_info message) as [info|].
    + unfold bind, get_self, put_self, logger, emit, ret. simpl.
      destruct (add_chunk _ (reassembler (self w))) as [completed r]. simpl.
      destruct (opt_bytes_truthy completed); simpl.
      * eexists. exists [Log INFO "Stream complete"].
        split; [reflexivity|]. repeat split; congruence.
      * eexists. exists []. split; [reflexivity|]. simpl.
        rewrite app_nil_r. repeat split; congruence.
    + exists w, []. rewrite app_nil_r. repeat split; congruence.
Qed.

(** X19. Observers are called in the order of their registration, and as
    often as they were registered: after [on_message] has been called for
    each of [callbacks], in this order, a verified text that decrypts and
    decodes is handed to the observers registered before, then to
    [callbacks], one call for each registration, also of the same
    observer. *)
Theorem observers_are_called_in_registration_order
    (callbacks : list MessageCallback) (message : MessagePayload)
    (peer : Peer) (w : world) (content : bytes) (text : string) :
  verified message peer = true ->
  type message = TEXT ->
  incoming_content w message peer = Ok content ->
  bytes_decode content = Ok text ->
  exists w',
    run (map call_on_message callbacks ++ [call_handle_incoming message peer])
        w = Some w'
    /\ _message_callbacks (self w')
       = _message_callbacks (self w) ++ callbacks
    /\ invoked (trace w')
       = invoked (trace w)
         ++ map (fun callback => (callback, received_of message text))
                (_message_callbacks (self w) ++ callbacks).
Proof.
  intros Hv Ht Hc Hd. revert w Hc.
  induction callbacks as [|cb callbacks IH]; intros w Hc.
  - simpl.
    pose proof (handle_incoming_delivers message peer w _ text Hv Ht Hc Hd)
      as R. cbv zeta in R. rewrite R.
    destruct (after_lookup_self message peer w)
      as (_ & _ & _ & HC & t & HT & HQ).
    apply derive_only_is_quiet in HQ. destruct HQ as (_ & _ & HI & _).
    eexists. split; [reflexivity|]. world_simpl. rewrite app_nil_r.
    split; [exact HC|].
    rewrite HT, HC, !invoked_app, HI, invoked_observer_events. simpl.
    now rewrite !app_nil_r.
  - simpl.
    destruct (IH (after (on_message cb w))) as (w' & Hrun & Hcbs & Hinv).
    { exact Hc. }
    exists w'. split; [exact Hrun|]. simpl in Hcbs, Hinv.
    rewrite <- !app_assoc in *. simpl in *. auto.
Qed.

(** X20. [__init__] uses the ledger it is given as it is, without
    validating it, unless the ledger is falsy, that is, unless its chain
    is empty: then, as when none is given, the engine starts on a new
    ledger of difficulty 2 that holds the genesis block only, and what
    was pending in the ledger given is not taken over. The engine starts
    with no observer and no cached secret. *)
Theorem engine_starts_on_given_or_new_ledger
    (fuel : nat) (clock : pyfloat) (identity : Wallet) (node : P2PNode)
    (new_reassembler : ChunkReassembler)
    (given : option blockchain.Blockchain) (e : TransmissionEngine) :
  __init__ fuel clock identity node new_reassembler given = Some e ->
  wallet e = identity /\ p2p_node e = node
  /\ reassembler e = new_reassembler
  /\ _message_callbacks e = [] /\ _shared_secrets e = ∅
  /\ match given with
     | Some bc =>
         if decide (blockchain.chain bc = []) then
           exists genesis, blockchain e = blockchain.mkBlockchain [genesis] [] 2
         else blockchain e = bc
     | None =>
         exists genesis, blockchain e = blockchain.mkBlockchain [genesis] [] 2
     end.
Proof.
  unfold __init__. intros H.
  assert (forall ledger,
            match ledger with
            | Some bc =>
                Some (mkEngine identity node bc new_reassembler [] ∅)
            | None => None
            end = Some e ->
            exists bc, ledger = Some bc
                       /\ e = mkEngine identity node bc new_reassembler [] ∅)
    as Hcase.
  { intros [bc|] Hl; [|discriminate]. injection Hl as <-. now exists bc. }
  apply Hcase in H. destruct H as (bc & Hl & ->). simpl.
  repeat split.
  destruct given as [given|].
  - destruct (decide (blockchain.chain given = [])) as [E | E].
    + rewrite E in Hl. simpl in Hl.
      destruct (init_returns _ _ _ _ Hl) as (g & -> & _). now exists g.
    + destruct (blockchain.chain given); [contradiction|]. simpl in Hl.
      now injection Hl as <-.
  - destruct (init_returns _ _ _ _ Hl) as (g & -> & _). now exists g.
Qed.

(** X21. Whatever calls an engine receives, it keeps its wallet, it
    keeps the observers registered, in their order, before the ones
    registered later, what it has done stays done, and its ledger changes
    only by [add_data] and [mine_pending]. *)
Theorem engine_state_only_grows (calls : list call) (w w' : world) :
  run calls w = Some w' ->
  wallet (self w') = wallet (self w)
  /\ _message_callbacks (self w) `prefix_of` _message_callbacks (self w')
  /\ trace w `prefix_of` trace w'
  /\ evolves (ledger w) (ledger w').
Proof.
  intros H. apply grows_run in H.
  destruct H as (HW & HC & t & HT & HL & _).
  repeat split; try assumption.
  - rewrite HT. now apply prefix_app_r.
  - eapply ledger_steps_evolves. exact HL.
Qed.

(** X22. The engine loses no ledger entry and records none twice:
    whatever calls it receives, the message history followed by what is
    pending is, afterwards, what it was before followed by the entries
    that the engine added meanwhile, in the order in which it added
    them; mining only moves entries from pending to the history. *)
Theorem engine_history_is_conserved
    (calls : list call) (w w' : world) (history : list json) :
  run calls w = Some w' ->
  get_message_history (self w) = Ok history ->
  exists done history',
    trace w' = trace w ++ done
    /\ get_message_history (self w') = Ok history'
    /\ history' ++ blockchain.pending_data (ledger w')
       = history ++ blockchain.pending_data (ledger w) ++ ledger_added done.
Proof.
  intros H Hh. apply grows_run in H.
  destruct H as (_ & _ & t & HT & HL & _).
  destruct (ledger_steps_history _ _ _ HL history Hh) as (ms' & H1 & H2).
  now exists t, ms'.
Qed.

(** X23. The ledger of an engine holds metadata only: if every entry of
    the history and every pending entry has no keys but [type], [id],
    [sender], [recipient] and [timestamp], then this is still so after
    any calls to the engine. The text of a message, its ciphertext and
    its nonce are never recorded. *)
Theorem engine_records_metadata_only
    (calls : list call) (w w' : world) (history : list json) :
  run calls w = Some w' ->
  get_message_history (self w) = Ok history ->
  forallb metadata_only (history ++ blockchain.pending_data (ledger w))
  = true ->
  exists history',
    get_message_history (self w') = Ok history'
    /\ forallb metadata_only
         (history' ++ blockchain.pending_data (ledger w')) = true.
Proof.
  intros H Hh Hm. apply grows_run in H.
  destruct H as (_ & _ & t & HT & HL & HM).
  destruct (ledger_steps_history _ _ _ HL history Hh) as (ms' & H1 & H2).
  exists ms'. split; [exact H1|].
  rewrite H2, app_assoc, forallb_app, Hm, HM. reflexivity.
Qed.

(** X24. The engine's [mine_pending] on a ledger with at least one block
    returns without raising, when the proof-of-work search ends. It moves
    what was pending to the end of the message history, leaves nothing
    pending, and logs one line exactly when there was something to mine;
    wallet, observers and secrets are untouched. *)
Theorem engine_mining_moves_pending_to_history
    (fuel : nat) (clock : pyfloat) (w w' : world) (r : result unit)
    (history : list json) :
  mine_pending fuel clock w = Some (r, w') ->
  blockchain.chain (ledger w) <> [] ->
  get_message_history (self w) = Ok history ->
  r = Ok tt
  /\ get_message_history (self w')
     = Ok (history ++ blockchain.pending_data (ledger w))
  /\ blockchain.pending_data (ledger w') = []
  /\ trace w'
     = trace w ++ (if list_truthy (blockchain.pending_data (ledger w))
                   then [Log INFO "Mined block"] else [])
  /\ wallet (self w') = wallet (self w)
  /\ _message_callbacks (self w') = _message_callbacks (self w)
  /\ secrets w' = secrets w.
Proof.
  unfold mine_pending, get_message_history, ledger. intros H Hne Hh.
  destruct (blockchain.mine_pending fuel clock (blockchain (self w)))
    as [[r0 bc]|] eqn:E; [|discriminate].
  destruct (mine_pending_cases _ _ _ _ _ E)
    as [(-> & -> & Hp) | [(_ & _ & Hc & _) | (latest & b & -> & -> & Hl & Hp
                                               & _ & _ & Hd & _)]].
  - injection H as <- <-. simpl. rewrite Hp, !app_nil_r.
    repeat split; assumption.
  - contradiction.
  - injection H as <- <-. simpl. repeat split.
    + now apply (get_messages_mined _ latest b).
    + destruct (blockchain.pending_data (blockchain (self w)));
        [contradiction | reflexivity].
Qed.

End extras.

(** *** Examples *)

Import toy toy_pair.
#[local] Existing Instance toy.collab.

(** Alice sends "hi" to Bob, encrypted; Bob's two observers get it. *)
Lemma encrypted_text_round_trip_witness :
  exists message wb',
    fst (send_text amb "bob" "hi" true wa) = Ok true
    /\ _handle_incoming message alice w0 = (Ok tt, wb')
    /\ map snd (invoked (trace wb'))
       = [received_from amb alice_engine "hi";
          received_from amb alice_engine "hi"].
Proof.
  pose proof (encrypted_text_round_trip amb "bob" "hi" bob_peer alice wa w0)
    as H. cbv zeta in H.
  destruct H as (wa' & wb' & Hs & _ & _ & Hr & Hi & _);
    [vm_compute; reflexivity .. |].
  eexists. exists wb'. rewrite Hs, Hi.
  split; [reflexivity|]. split; [exact Hr | reflexivity].
Defined.

(** Alice broadcasts "hi"; Bob's two observers get it. *)
Lemma broadcast_is_clear_text_witness :
  fst (broadcast_text amb "hi" wa) = Ok 1
  /\ exists wb',
       _handle_incoming (broadcast_message amb alice_engine "hi") alice w0
       = (Ok tt, wb')
       /\ secrets wb' = secrets w0.
Proof.
  destruct (broadcast_is_clear_text amb "hi" alice wa w0)
    as (Hb & _ & _ & _ & wb' & Hr & _ & Hs & _);
    [vm_compute; reflexivity .. |].
  rewrite Hb. split; [reflexivity|]. exists wb'. split; [exact Hr | exact Hs].
Defined.

(** Alice sends "hi" to Bob and asks for no encryption. *)
Lemma send_text_encrypts_only_with_a_key_witness :
  exists message w',
    send_text amb "bob" "hi" false wa = (Ok true, w')
    /\ nonce message = None /\ content message = str_encode "hi"
    /\ sent (trace w') = [(message, "bob")].
Proof.
  destruct (send_text_encrypts_only_with_a_key amb "bob" "hi" false bob_peer
              wa eq_refl)
    as (message & w' & Hs & Hsent & Hclear & _).
  destruct (Hclear (or_introl eq_refl)) as (Hn & Hc & _).
  exists message, w'. rewrite Hs, Hsent. now repeat split.
Defined.

(** An acknowledgment and a stream chunk from Alice, both verified. *)
Lemma verified_non_text_is_not_delivered_witness :
  (exists w', _handle_incoming ack_from_alice alice w0 = (Ok tt, w')
              /\ self w' = self w0)
  /\ (exists w', _handle_incoming chunk_from_alice alice w0 = (Ok tt, w')
                 /\ ledger w' = ledger w0).
Proof.
  split.
  - destruct (verified_non_text_is_not_delivered ack_from_alice alice w0)
      as (w' & done & Hr & _ & _ & _ & _ & _ & _ & _ & _ & Hack & _).
    + vm_compute. reflexivity.
    + discriminate.
    + exists w'. split; [exact Hr | now apply Hack].
  - destruct (verified_non_text_is_not_delivered chunk_from_alice alice w0)
      as (w' & done & Hr & _ & _ & _ & _ & _ & Hl & _).
    + vm_compute. reflexivity.
    + discriminate.
    + exists w'. split; [exact Hr | exact Hl].
Defined.

(** The quiet observer registered twice more on Bob's engine. *)
Lemma observers_are_called_in_registration_order_witness :
  exists w',
    run [call_on_message quiet_observer; call_on_message quiet_observer;
         call_handle_incoming hi_clear alice] w0 = Some w'
    /\ map fst (invoked (trace w'))
       = [failing_observer; quiet_observer; quiet_observer; quiet_observer].
Proof.
  destruct (observers_are_called_in_registration_order
              [quiet_observer; quiet_observer] hi_clear alice w0
              (str_encode "hi") "hi")
    as (w' & Hr & _ & Hi); [vm_compute; reflexivity .. |].
  exists w'. split; [exact Hr|]. rewrite Hi. reflexivity.
Defined.

(** Bob's engine, constructed on the ledger [demo.ledger0]. *)
Lemma engine_starts_on_given_or_new_ledger_witness :
  blockchain fresh = demo.ledger0 /\ _message_callbacks fresh = [].
Proof.
  destruct (@engine_starts_on_given_or_new_ledger toy.collab 0 demo.t0
              bob_wallet node tt
              (Some demo.ledger0) fresh eq_refl)
    as (_ & _ & _ & Hc & _ & Hl).
  split; [exact Hl | exact Hc].
Defined.

Lemma engine_state_only_grows_witness :
  _message_callbacks (self w0) `prefix_of` _message_callbacks (self w_chat)
  /\ trace w0 `prefix_of` trace w_chat.
Proof.
  destruct (engine_state_only_grows chat w0 w_chat)
    as (_ & Hc & Ht & _).
  - vm_compute. reflexivity.
  - split; [exact Hc | exact Ht].
Defined.

Lemma engine_history_is_conserved_witness :
  exists done history',
    trace w_chat = trace w0 ++ done
    /\ get_message_history (self w_chat) = Ok history'
    /\ history' ++ blockchain.pending_data (ledger w_chat)
       = [] ++ blockchain.pending_data (ledger w0) ++ ledger_added done.
Proof.
  exact (engine_history_is_conserved chat w0 w_chat []
           ltac:(vm_compute; reflexivity) ltac:(vm_compute; reflexivity)).
Defined.

Lemma engine_records_metadata_only_witness :
  exists history',
    get_message_history (self w_chat) = Ok history'
    /\ forallb metadata_only
         (history' ++ blockchain.pending_data (ledger w_chat)) = true.
Proof.
  exact (engine_records_metadata_only chat w0 w_chat []
           ltac:(vm_compute; reflexivity) ltac:(vm_compute; reflexivity)
           ltac:(vm_compute; reflexivity)).
Defined.

(** Bob's engine with one pending entry, mined. *)
Lemma engine_mining_moves_pending_to_history_witness :
  get_message_history (self w_mined)
  = Ok ([] ++ blockchain.pending_data (ledger w_pending))
  /\ blockchain.pending_data (ledger w_mined) = [].
Proof.
  destruct (engine_mining_moves_pending_to_history 1 demo.t1 w_pending w_mined
              (Ok tt) [])
    as (_ & Hh & Hp & _).
  - vm_compute. reflexivity.
  - discriminate.
  - vm_compute. reflexivity.
  - split; [exact Hh | exact Hp].
Defined.

End engine_extras.

(** * The command-line client: properties *)

Module cli_facts.
Import cli.

Lemma prefix_colon s :
  String.prefix ":" s
  = match s with String c _ => Ascii.eqb c ":" | EmptyString => false end.
Proof.
  destruct s as [|c s]; [reflexivity|].
  change (String.prefix ":" (String c s))
    with (if ascii_dec ":" c then String.prefix "" s else false).
  destruct (ascii_dec ":" c) as [<-|Hne].
  - now destruct s.
  - symmetry. apply Ascii.eqb_neq. congruence.
Qed.

(** [":" in s] *)
Lemma str_contains_colon s :
  str_contains s ":" = existsb (fun c => Ascii.eqb c ":") (list_ascii_of_string s).
Proof.
  induction s as [|c s IH]; [reflexivity|].
  change (str_contains (String c s) ":")
    with (String.prefix ":" (String c s) || str_contains s ":").
  now rewrite prefix_colon, IH.
Qed.

Lemma rsplit_colon_none l :
  existsb (fun c => Ascii.eqb c ":") l = false -> rsplit_colon l = None.
Proof.
  induction l as [|c l IH]; [reflexivity|]. simpl.
  intros H. apply orb_false_elim in H. destruct H as [Hc Hl].
  now rewrite (IH Hl), Hc.
Qed.

(** The split is at the last colon. *)
Lemma rsplit_colon_last host port :
  existsb (fun c => Ascii.eqb c ":") port = false ->
  rsplit_colon (host ++ ":"%char :: port) = Some (host, port).
Proof.
  intros Hp. induction host as [|c host IH]; simpl.
  - now rewrite (rsplit_colon_none port Hp).
  - now rewrite IH.
Qed.

Lemma find_recipient_find recipient peers : forall ids full_recipient,
  Forall2 (fun peer pid => peer_id_of peer = Ok pid) peers ids ->
  find_recipient recipient peers full_recipient
  = Ok (default full_recipient
          (find (fun pid => startswith pid recipient) ids)).
Proof.
  induction peers as [|peer peers IH]; intros ids full H; inversion H; subst.
  - reflexivity.
  - simpl. rewrite H2. simpl.
    destruct (startswith y recipient); [reflexivity | now apply IH].
Qed.

End cli_facts.

Module cli_extras.
Import cli cli_model cli_facts digest_facts.

(** X25. The server address is split at its last colon: for an address
    [host:port] whose [port] part holds no colon, the registry host
    becomes [host], colons and all, and the registry port what [int]
    makes of [port]; when [int] raises, so does the command. An address
    without a colon becomes the registry host as it is and leaves the
    registry port alone. The other settings are never changed. *)
Theorem server_address_is_split_at_last_colon
    (int : string -> result Z) (host port : string) (config : ClientConfig) :
  str_contains port ":" = false ->
  parse_server int (String.append host (String ":" port)) config
  = match int port with
    | Ok n => Ok (mkClientConfig (data_dir config) (p2p_port config) host n)
    | Raise e => Raise e
    end
  /\ parse_server int port config
     = Ok (mkClientConfig (data_dir config) (p2p_port config) port
                          (registry_port config)).
Proof.
  intros Hp. unfold parse_server. split.
  - rewrite str_contains_colon, list_ascii_of_string_append, existsb_app.
    simpl. rewrite orb_true_r.
    rewrite str_contains_colon in Hp.
    rewrite (rsplit_colon_last _ _ Hp), !string_of_list_ascii_of_string.
    simpl. now destruct (int port).
  - now rewrite Hp.
Qed.

Lemma server_address_is_split_at_last_colon_witness :
  parse_server toy_int "::1:8765" toy_config
  = Ok (mkClientConfig "~/.bmp" 8766 "::1" 8765)
  /\ parse_server toy_int "[::1]:http" toy_config
     = Raise (Exception "ValueError").
Proof.
  split.
  - exact (proj1 (server_address_is_split_at_last_colon toy_int "::1" "8765"
                    toy_config eq_refl)).
  - exact (proj1 (server_address_is_split_at_last_colon toy_int "[::1]" "http"
                    toy_config eq_refl)).
Defined.

(** X26. The recipient of [send]: an id of 64 characters or more is used
    as it is, and the peers are not looked at. A shorter one stands for
    the first peer, in the order of the peer list, whose id starts with
    it, whether or not later peers match too; when no peer matches, it
    is used as it is. *)
Theorem recipient_is_first_peer_with_prefix
    (recipient : string) (peers : list json) (ids : list string) :
  (64 <= str_len recipient -> resolve_recipient recipient peers = Ok recipient)
  /\ (str_len recipient < 64 ->
      Forall2 (fun peer pid => peer_id_of peer = Ok pid) peers ids ->
      resolve_recipient recipient peers
      = Ok (default recipient
              (find (fun pid => startswith pid recipient) ids))).
Proof.
  unfold resolve_recipient. split.
  - intros H. apply Z.ltb_ge in H. now rewrite H.
  - intros H Hids. apply Z.ltb_lt in H. rewrite H.
    now apply find_recipient_find.
Qed.

Lemma recipient_is_first_peer_with_prefix_witness :
  resolve_recipient "cd" toy_peers = Ok "cd34"%string
  /\ resolve_recipient "ef" toy_peers = Ok "ef"%string.
Proof.
  split.
  - exact (proj2 (recipient_is_first_peer_with_prefix "cd" toy_peers
                    ["ab12"; "cd34"; "cd56"]%string)
                 ltac:(vm_compute; reflexivity)
                 ltac:(repeat constructor)).
  - exact (proj2 (recipient_is_first_peer_with_prefix "ef" toy_peers
                    ["ab12"; "cd34"; "cd56"]%string)
                 ltac:(vm_compute; reflexivity)
                 ltac:(repeat constructor)).
Defined.

End cli_extras.
